(** * CineRate API gateway: resilient proxy pipeline

    A shallow embedding of the gateway's proxy pipeline:
    - [src/src/controllers/proxy.controller.js] ([ProxyController.proxyRequest]),
      mounted by [createApp] ([src/index.js], lines 151-199; [src/src/app.js]
      in the README) through [src/unnamed/part_002] ([initProxyRoutes]);
    - [src/src/utils/circuit-breaker.js] ([createCircuitBreaker]), wrapping
      async-retry around axios inside an opossum breaker;
    - [src/src/utils/redis-cache.js] ([RedisCache]);
    - the older single-file gateway [src/unnamed/part_005] (referred to
      below as the legacy gateway), whose breakers are built inline.

    JavaScript values are modelled as JSON values with integer numbers.
    The breakers' timeout and the retry's backoff waits are modelled by a
    timed variant of [fire] ([opossum_fire_timed]); the per-attempt axios
    timeouts and the rolling window's expiry are not modelled. *)

Set Warnings "-register-all".
From Stdlib Require Import ZArith String Ascii Bool List Lia.
From stdpp Require Import base strings list gmap pretty.

Import ListNotations.
Open Scope string_scope.

(* ================================================================= *)
(** ** JavaScript strings *)

(** [s.startsWith(pre)] *)
Fixpoint starts_with (pre s : string) : bool :=
  match pre, s with
  | EmptyString, _ => true
  | String c pre', String d s' => Ascii.eqb c d && starts_with pre' s'
  | String _ _, EmptyString => false
  end.

(** [s.includes(sub)] *)
Fixpoint includes (s sub : string) : bool :=
  starts_with sub s ||
  match s with
  | EmptyString => false
  | String _ s' => includes s' sub
  end.

(** [s.substring(n)] *)
Fixpoint substring_from (n : nat) (s : string) : string :=
  match n, s with
  | O, _ => s
  | S _, EmptyString => EmptyString
  | S n', String _ s' => substring_from n' s'
  end.

(** [s.replace(pat, rep)] with a string pattern: the first occurrence only. *)
Fixpoint replace_first (s pat rep : string) : string :=
  if starts_with pat s then rep +:+ substring_from (String.length pat) s
  else match s with
       | EmptyString => EmptyString
       | String c s' => String c (replace_first s' pat rep)
       end.

(** [x || '/'] on a string: the empty string is falsy. *)
Definition or_default (s d : string) : string :=
  if String.eqb s "" then d else s.

(* ================================================================= *)
(** ** JSON values, [JSON.stringify] and [JSON.parse] *)

Inductive jsval : Type :=
| JNull
| JBool (b : bool)
| JNum (n : Z)
| JStr (s : string)
| JArr (xs : list jsval)
| JObj (fields : list (string * jsval)).

(** JavaScript truthiness ([if (x)]). *)
Definition truthy (v : jsval) : bool :=
  match v with
  | JNull => false
  | JBool b => b
  | JNum n => negb (Z.eqb n 0)
  | JStr s => negb (String.eqb s "")
  | JArr _ | JObj _ => true
  end.

(** [v.k] on an object (the last binding of [k] wins, as in [JSON.parse]);
    [None] stands for [undefined]. *)
Definition js_field (v : jsval) (k : string) : option jsval :=
  match v with
  | JObj fs =>
      fold_left (fun acc '(k', x) => if String.eqb k k' then Some x else acc) fs None
  | _ => None
  end.

Definition chr (n : nat) : ascii := ascii_of_nat n.

(** The double quote character, code 34 (usable in patterns). *)
Abbreviation dq := (Ascii.Ascii false true false false false true false false) (only parsing).

Definition hex_digit (n : nat) : ascii :=
  if Nat.ltb n 10 then chr (48 + n) else chr (87 + n).

(** The escape [JSON.stringify] writes for one character of a string. *)
Definition escape_char (c : ascii) : string :=
  let n := nat_of_ascii c in
  if Ascii.eqb c dq then String "\" (String dq EmptyString)
  else if Ascii.eqb c "\" then String "\" (String "\" EmptyString)
  else if Nat.eqb n 8 then "\b"
  else if Nat.eqb n 12 then "\f"
  else if Nat.eqb n 10 then "\n"
  else if Nat.eqb n 13 then "\r"
  else if Nat.eqb n 9 then "\t"
  else if Nat.ltb n 32 then
    String "\" (String "u" (String "0" (String "0"
      (String (hex_digit (n / 16)) (String (hex_digit (n mod 16)) EmptyString)))))
  else String c EmptyString.

Fixpoint escape_string (s : string) : string :=
  match s with
  | EmptyString => EmptyString
  | String c s' => escape_char c +:+ escape_string s'
  end.

Definition quote (s : string) : string := String dq (escape_string s +:+ String dq EmptyString).

Fixpoint join (sep : string) (xs : list string) : string :=
  match xs with
  | [] => ""
  | [x] => x
  | x :: xs' => x +:+ sep +:+ join sep xs'
  end.

(** [JSON.stringify] *)
Fixpoint json_stringify (v : jsval) : string :=
  match v with
  | JNull => "null"
  | JBool true => "true"
  | JBool false => "false"
  | JNum n => pretty n
  | JStr s => quote s
  | JArr xs => "[" +:+ join "," (map json_stringify xs) +:+ "]"
  | JObj fs =>
      "{" +:+ join "," (map (fun '(k, x) => quote k +:+ ":" +:+ json_stringify x) fs) +:+ "}"
  end.

Definition is_ws (c : ascii) : bool :=
  let n := nat_of_ascii c in (Nat.eqb n 32) || (Nat.eqb n 9) || (Nat.eqb n 10) || (Nat.eqb n 13).

Fixpoint skip_ws (s : string) : string :=
  match s with
  | String c s' => if is_ws c then skip_ws s' else s
  | EmptyString => EmptyString
  end.

Definition digit_val (c : ascii) : option nat :=
  let n := nat_of_ascii c in if Nat.leb 48 n && Nat.leb n 57 then Some (n - 48) else None.

Definition hex_val (c : ascii) : option nat :=
  let n := nat_of_ascii c in
  if Nat.leb 48 n && Nat.leb n 57 then Some (n - 48)
  else if Nat.leb 97 n && Nat.leb n 102 then Some (n - 87)
  else if Nat.leb 65 n && Nat.leb n 70 then Some (n - 55)
  else None.

(** The body of a JSON string literal after its opening quote: the decoded
    text and the input after the closing quote.  Characters are bytes here,
    so a [\uXXXX] escape above [ÿ] is outside the model and rejected. *)
Fixpoint parse_string_body (s : string) : option (string * string) :=
  match s with
  | EmptyString => None
  | String c r =>
      if Ascii.eqb c dq then Some (EmptyString, r)
      else if Ascii.eqb c "\" then
        match r with
        | String "u" (String h1 (String h2 (String h3 (String h4 r')))) =>
            match hex_val h1, hex_val h2, hex_val h3, hex_val h4 with
            | Some 0, Some 0, Some a, Some b =>
                match parse_string_body r' with
                | Some (t, rest) => Some (String (chr (16 * a + b)) t, rest)
                | None => None
                end
            | _, _, _, _ => None
            end
        | String e r' =>
            let dec :=
              if Ascii.eqb e dq then Some dq
              else if Ascii.eqb e "\" then Some "\"%char
              else if Ascii.eqb e "/" then Some "/"%char
              else if Ascii.eqb e "b" then Some (chr 8)
              else if Ascii.eqb e "f" then Some (chr 12)
              else if Ascii.eqb e "n" then Some (chr 10)
              else if Ascii.eqb e "r" then Some (chr 13)
              else if Ascii.eqb e "t" then Some (chr 9)
              else None in
            match dec, parse_string_body r' with
            | Some d, Some (t, rest) => Some (String d t, rest)
            | _, _ => None
            end
        | EmptyString => None
        end
      else if Nat.ltb (nat_of_ascii c) 32 then None
      else match parse_string_body r with
           | Some (t, rest) => Some (String c t, rest)
           | None => None
           end
  end.

(** Decimal digits: value and count. *)
Fixpoint parse_digits (s : string) (acc : Z) (k : nat) : Z * nat * string :=
  match s with
  | String c r =>
      match digit_val c with
      | Some d => parse_digits r (acc * 10 + Z.of_nat d) (S k)
      | None => (acc, k, s)
      end
  | EmptyString => (acc, k, s)
  end.

(** A JSON number.  Numbers are integers in this model: a fraction or an
    exponent is outside it and rejected. *)
Definition parse_number (s : string) : option (jsval * string) :=
  let '(neg, s1) := match s with
                    | String "-" r => (true, r)
                    | _ => (false, s)
                    end in
  match s1 with
  | String "0" (String c _) =>
      if match digit_val c with Some _ => true | None => false end then None
      else if Ascii.eqb c "." || Ascii.eqb c "e" || Ascii.eqb c "E" then None
      else Some (JNum 0, substring_from 1 s1)
  | String "0" EmptyString => Some (JNum 0, EmptyString)
  | _ =>
      let '(v, k, rest) := parse_digits s1 0 0 in
      if Nat.eqb k 0 then None
      else match rest with
           | String c _ =>
               if Ascii.eqb c "." || Ascii.eqb c "e" || Ascii.eqb c "E" then None
               else Some (JNum (if neg then - v else v), rest)
           | EmptyString => Some (JNum (if neg then - v else v), rest)
           end
  end.

Fixpoint parse_value (fuel : nat) (s : string) {struct fuel} : option (jsval * string) :=
  match fuel with
  | O => None
  | S f =>
      match skip_ws s with
      | String "n" (String "u" (String "l" (String "l" r))) => Some (JNull, r)
      | String "t" (String "r" (String "u" (String "e" r))) => Some (JBool true, r)
      | String "f" (String "a" (String "l" (String "s" (String "e" r)))) => Some (JBool false, r)
      | String dq r =>
          match parse_string_body r with
          | Some (t, r') => Some (JStr t, r')
          | None => None
          end
      | String "[" r =>
          match skip_ws r with
          | String "]" r' => Some (JArr [], r')
          | _ => match parse_elems f r with
                 | Some (xs, r') => Some (JArr xs, r')
                 | None => None
                 end
          end
      | String "{" r =>
          match skip_ws r with
          | String "}" r' => Some (JObj [], r')
          | _ => match parse_members f r with
                 | Some (fs, r') => Some (JObj fs, r')
                 | None => None
                 end
          end
      | EmptyString => None
      | s' => parse_number s'
      end
  end
with parse_elems (fuel : nat) (s : string) {struct fuel} : option (list jsval * string) :=
  match fuel with
  | O => None
  | S f =>
      match parse_value f s with
      | Some (v, r) =>
          match skip_ws r with
          | String "," r' =>
              match parse_elems f r' with
              | Some (vs, r'') => Some (v :: vs, r'')
              | None => None
              end
          | String "]" r' => Some ([v], r')
          | _ => None
          end
      | None => None
      end
  end
with parse_members (fuel : nat) (s : string) {struct fuel} : option (list (string * jsval) * string) :=
  match fuel with
  | O => None
  | S f =>
      match skip_ws s with
      | String dq r =>
          match parse_string_body r with
          | Some (k, r1) =>
              match skip_ws r1 with
              | String ":" r2 =>
                  match parse_value f r2 with
                  | Some (v, r3) =>
                      match skip_ws r3 with
                      | String "," r4 =>
                          match parse_members f r4 with
                          | Some (fs, r5) => Some ((k, v) :: fs, r5)
                          | None => None
                          end
                      | String "}" r4 => Some ([(k, v)], r4)
                      | _ => None
                      end
                  | None => None
                  end
              | _ => None
              end
          | None => None
          end
      | _ => None
      end
  end.

(** [JSON.parse]: [None] where it throws. *)
Definition json_parse (s : string) : option jsval :=
  match parse_value (2 * String.length s + 2) s with
  | Some (v, rest) => if String.eqb (skip_ws rest) "" then Some v else None
  | None => None
  end.

(* ================================================================= *)
(** ** Outbound calls: axios, async-retry, opossum *)

(** Results of a promise: resolved or rejected. *)
Inductive outcome (A E : Type) : Type :=
| Ok (a : A)
| Err (e : E).
Arguments Ok {A E} a.
Arguments Err {A E} e.

(** An error's [message]: [MsgStatus n] is axios'
    ["Request failed with status code n"]. *)
Inductive err_msg : Type :=
| MsgStatus (code : Z)
| MsgText (text : string).

Definition err_msg_eqb (m1 m2 : err_msg) : bool :=
  match m1, m2 with
  | MsgStatus a, MsgStatus b => Z.eqb a b
  | MsgText a, MsgText b => String.eqb a b
  | _, _ => false
  end.

(** An error object: [err.type], [err.message], [err.response]
    ([status] and [data]). *)
Record gw_error : Type := mkError {
  e_type : option string;
  e_message : err_msg;
  e_response : option (Z * jsval)
}.

(** An axios response: [response.status], [response.data]. *)
Record response : Type := mkResponse { r_status : Z; r_data : jsval }.

(** What the backend does with one attempt: answer with a status and a
    body, or fail at the network level (refused, reset, timed out). *)
Inductive backend_answer : Type :=
| Answer (status : Z) (data : jsval)
| NetError (text : string).

Definition is_2xx (st : Z) : bool := (200 <=? st)%Z && (st <? 300)%Z.

(** [axios({url, method, data, timeout})]: resolves on a 2xx status
    (its default [validateStatus]), rejects otherwise. *)
Definition axios_call (a : backend_answer) : outcome response gw_error :=
  match a with
  | Answer st d =>
      if is_2xx st then Ok (mkResponse st d)
      else Err (mkError None (MsgStatus st) (Some (st, d)))
  | NetError t => Err (mkError None (MsgText t) None)
  end.

(** One run of the attempt function given to [retry] in
    [createCircuitBreaker]:
    [try { return await axios(..) } catch (err) {
       if (err.response && err.response.status >= 400 && err.response.status < 500)
         { bail(err); return; }
       throw err; }] *)
Inductive attempt_result : Type :=
| AResolve (r : response)
| ABail (e : gw_error)
| AThrow (e : gw_error).

Definition attempt (a : backend_answer) : attempt_result :=
  match axios_call a with
  | Ok r => AResolve r
  | Err e =>
      match e_response e with
      | Some (st, _) => if (400 <=? st)%Z && (st <? 500)%Z then ABail e else AThrow e
      | None => AThrow e
      end
  end.

(** node-retry's [RetryOperation.mainError]: the error whose message
    occurs most often; among equally frequent messages the latest one
    ([count >= mainErrorCount]). *)
Fixpoint msg_count (m : err_msg) (counts : list (err_msg * nat)) : nat :=
  match counts with
  | [] => 0
  | (m', c) :: counts' => if err_msg_eqb m m' then c else msg_count m counts'
  end.

Fixpoint main_error_go (errs : list gw_error) (counts : list (err_msg * nat))
    (best : option gw_error) (best_count : nat) : option gw_error :=
  match errs with
  | [] => best
  | e :: errs' =>
      let c := S (msg_count (e_message e) counts) in
      let counts' := (e_message e, c) :: counts in
      if Nat.leb best_count c then main_error_go errs' counts' (Some e) c
      else main_error_go errs' counts' best best_count
  end.

Definition main_error (errs : list gw_error) : option gw_error :=
  main_error_go errs [] None 0.

(** [retry(fn, { retries, ... })] (async-retry over node-retry).  Attempt
    [num] sees the backend's answer [answer num]; the loop has
    [timeouts_left] retries left ([retries] of them at the start).
    A bail rejects at once; a thrown error is pushed on the operation's
    error list and, when no retry is left, the promise rejects with
    [op.mainError()].  The second component counts the backend calls. *)
Fixpoint retry_go (timeouts_left num : nat) (errs : list gw_error)
    (answer : nat -> backend_answer) : outcome response gw_error * nat :=
  match attempt (answer num) with
  | AResolve r => (Ok r, 1)
  | ABail e => (Err e, 1)
  | AThrow e =>
      let errs' := (errs ++ [e])%list in
      match timeouts_left with
      | O => (Err (default e (main_error errs')), 1)
      | S t => let '(res, n) := retry_go t (S num) errs' answer in (res, S n)
      end
  end.

Definition async_retry (retries : nat) (answer : nat -> backend_answer)
    : outcome response gw_error * nat :=
  retry_go retries 1 [] answer.

(** [retryOptions.retries]: 5 in [src/src/utils/circuit-breaker.js],
    3 in the legacy gateway ([src/unnamed/part_005]) and in
    [src/unnamed/part_006]. *)
Definition retries_src : nat := 5.
Definition retries_legacy : nat := 3.

(** *** opossum circuit breaker *)

Inductive circuit : Type := Closed | Open | HalfOpen.

(** The breaker's state field, its [pendingClose] flag, and the counts of
    its rolling window. *)
Record breaker : Type := mkBreaker {
  b_state : circuit;
  b_pending_close : bool;
  b_fires : nat;
  b_failures : nat;
  b_threshold : nat  (* errorThresholdPercentage *)
}.

Definition with_state (b : breaker) (st : circuit) (pending : bool) : breaker :=
  mkBreaker st pending (b_fires b) (b_failures b) (b_threshold b).

(** [open()], [close()], and the reset timer's [halfOpen()]. *)
Definition breaker_open (b : breaker) : breaker := with_state b Open false.
Definition breaker_close (b : breaker) : breaker := with_state b Closed false.
Definition reset_timer_elapsed (b : breaker) : breaker :=
  match b_state b with
  | Open => with_state b HalfOpen true
  | _ => b
  end.

Definition is_closed (b : breaker) : bool :=
  match b_state b with Closed => true | _ => false end.
Definition is_half_open (b : breaker) : bool :=
  match b_state b with HalfOpen => true | _ => false end.

(** opossum's [fail]: count the failure; open when the failure
    percentage exceeds the threshold ([volumeThreshold] is 0), or at once
    in the half-open state. *)
Definition breaker_fail (b : breaker) : breaker :=
  let b1 := mkBreaker (b_state b) (b_pending_close b) (b_fires b) (S (b_failures b)) (b_threshold b) in
  if Nat.ltb (b_threshold b1 * b_fires b1) (b_failures b1 * 100) || is_half_open b1
  then breaker_open b1 else b1.

(** opossum's error for a call rejected by an open breaker
    ([code: 'EOPENBREAKER'], no [type] field). *)
Definition open_error : gw_error := mkError None (MsgText "Breaker is open") None.

(** [breaker.fire(...)]: count the fire; when the breaker is neither
    closed nor pending a half-open probe, reject without running the
    action; otherwise run it ([run tt], with its side result), close on a
    half-open success, record a failure otherwise.  A rejection is
    replaced by the fallback's value when a fallback is registered.
    [w0] is the side result when the action does not run. *)
Definition opossum_fire {A W : Type} (b : breaker) (fb : option A)
    (run : unit -> outcome A gw_error * W) (w0 : W) : breaker * outcome A gw_error * W :=
  let b1 := mkBreaker (b_state b) (b_pending_close b) (S (b_fires b)) (b_failures b) (b_threshold b) in
  if negb (is_closed b1) && negb (b_pending_close b1) then
    (b1, match fb with Some a => Ok a | None => Err open_error end, w0)
  else
    let b2 := with_state b1 (b_state b1) false in
    let '(o, w) := run tt in
    match o with
    | Ok a => (if is_half_open b2 then breaker_close b2 else b2, Ok a, w)
    | Err e => (breaker_fail b2, match fb with Some a => Ok a | None => Err e end, w)
    end.

(** *** The three backend services and their fallbacks *)

Inductive service : Type := UserSvc | ReviewSvc | WatchlistSvc.

Definition base_path (s : service) : string :=
  match s with
  | UserSvc => "/api/user"
  | ReviewSvc => "/api/review"
  | WatchlistSvc => "/api/watchlist"
  end.

Definition fallback_body (s : service) : jsval :=
  match s with
  | UserSvc => JObj [("error", JStr "User service temporarily unavailable"); ("fallback", JBool true)]
  | ReviewSvc => JObj [("reviews", JArr []); ("fallback", JBool true);
                       ("message", JStr "Review service temporarily unavailable")]
  | WatchlistSvc => JObj [("watchlist", JArr []); ("fallback", JBool true);
                          ("message", JStr "Watchlist service temporarily unavailable")]
  end.

(** [breaker.fallback(...)] in [createCircuitBreaker]: status 503 for the
    three services. *)
Definition fallback_src (s : service) : response := mkResponse 503 (fallback_body s).

(** The legacy gateway's fallbacks: 503 for the user service, 200 for the
    review and watchlist services. *)
Definition fallback_legacy (s : service) : response :=
  match s with
  | UserSvc => mkResponse 503 (fallback_body s)
  | ReviewSvc | WatchlistSvc => mkResponse 200 (fallback_body s)
  end.

(** The breaker-protected call: [breaker.fire(url, method, data)], whose
    action is [retry(attempt, retryOptions)].  The side result counts the
    backend calls. *)
Definition service_fire (retries : nat) (fb : response) (b : breaker)
    (answer : nat -> backend_answer) : breaker * outcome response gw_error * nat :=
  opossum_fire b (Some fb) (fun _ => async_retry retries answer) 0.

(** *** The breaker's [timeout] option

    [fire] also arms a timer of [options.timeout] ms.  When it expires
    before the action settles, opossum counts a failure (an error with
    code ['ETIMEDOUT']) and resolves with the fallback (rejects with that
    error without one); the action keeps running, and its later result is
    ignored.  [opossum_fire] and [service_fire] above are [fire] for an
    action that settles before the timer; the versions below add the
    race. *)

(** [circuitBreakerOptions.timeout]: 10000 ms in [src/src], 3000 ms in
    the legacy gateway. *)
Definition timeout_src : Z := 10000.
Definition timeout_legacy : Z := 3000.

(** [retryOptions.maxTimeout]: 8000 ms in [src/src], 5000 ms in the
    legacy gateway; [minTimeout] is 1000 and [factor] 2 in both. *)
Definition max_timeout_src : Z := 8000.
Definition max_timeout_legacy : Z := 5000.

(** node-retry's [createTimeout(i, opts)] with [randomize: true] is
    [Math.min(Math.round(random * 1000 * 2 ** i), maxTimeout)] with
    [random] in [[1, 2)], so it is at least [min_retry_timeout max_t i].
    [timeouts()] sorts the [retries] values ascending; at most [i] of them
    (those of the indices below [i]) can be smaller than
    [min_retry_timeout max_t i], so the [i]-th wait (from 0) is at least
    that bound too. *)
Definition min_retry_timeout (max_t : Z) (i : nat) : Z :=
  Z.min (1000 * 2 ^ Z.of_nat i) max_t.

(** Times of one [retry] run, in ms after [fire]: attempt [k]'s backend
    call takes [lat k] ms, and after attempt [k] throws the operation
    waits [delay k] ms (its [k]-th timeout) before attempt [k + 1]. *)
Fixpoint attempt_start (lat delay : nat -> Z) (k : nat) : Z :=
  match k with
  | O | S O => 0
  | S ((S _) as k') => attempt_start lat delay k' + lat k' + delay k'
  end.

(** When the [retry] promise settles, after its [n]-th attempt. *)
Definition retry_settle (lat delay : nat -> Z) (n : nat) : Z :=
  attempt_start lat delay n + lat n.

(** How many of the attempts [1..n] start before time [t]. *)
Definition attempts_started_before (t : Z) (lat delay : nat -> Z) (n : nat) : nat :=
  length (List.filter (fun k => (attempt_start lat delay k <? t)%Z) (seq 1 n)).

(** opossum's [buildError(`Timed out after ${this.options.timeout}ms`, 'ETIMEDOUT')]. *)
Definition timeout_error (timeout : Z) : gw_error :=
  mkError None (MsgText ("Timed out after " +:+ pretty timeout +:+ "ms")) None.

(** [breaker.fire(...)] with its timer: [run tt] also gives the time at
    which the action settles; when that is later than [timeout] the timer
    has fired first (a tie is given to the action). *)
Definition opossum_fire_timed {A W : Type} (timeout : Z) (b : breaker) (fb : option A)
    (run : unit -> outcome A gw_error * W * Z) (w0 : W) : breaker * outcome A gw_error * W :=
  let b1 := mkBreaker (b_state b) (b_pending_close b) (S (b_fires b)) (b_failures b) (b_threshold b) in
  if negb (is_closed b1) && negb (b_pending_close b1) then
    (b1, match fb with Some a => Ok a | None => Err open_error end, w0)
  else
    let b2 := with_state b1 (b_state b1) false in
    let '(o, w, t) := run tt in
    if (timeout <? t)%Z then
      (breaker_fail b2, match fb with Some a => Ok a | None => Err (timeout_error timeout) end, w)
    else
      match o with
      | Ok a => (if is_half_open b2 then breaker_close b2 else b2, Ok a, w)
      | Err e => (breaker_fail b2, match fb with Some a => Ok a | None => Err e end, w)
      end.

(** [breaker.fire(url, method, data)] with the timer; the side result
    counts the backend calls the retry makes, also those after the
    timeout. *)
Definition service_fire_timed (timeout : Z) (retries : nat) (fb : response) (b : breaker)
    (answer : nat -> backend_answer) (lat delay : nat -> Z)
    : breaker * outcome response gw_error * nat :=
  opossum_fire_timed timeout b (Some fb)
    (fun _ => let '(o, n) := async_retry retries answer in (o, n, retry_settle lat delay n)) 0.

(* ================================================================= *)
(** ** The Redis server: glob patterns and keys with expiry *)

(** Redis glob patterns ([stringmatchlen]): [*], [?], [\x], and
    character classes [[...]] / [[^...]] with ranges; an unterminated
    class runs to the end of the pattern. *)
Inductive glob_tok : Type :=
| GStar
| GAny
| GChar (c : ascii)
| GClass (neg : bool) (items : list (ascii * ascii)).

Fixpoint tokenize (p : string) : list glob_tok :=
  match p with
  | EmptyString => []
  | String c r =>
      if Ascii.eqb c "*" then GStar :: tokenize r
      else if Ascii.eqb c "?" then GAny :: tokenize r
      else if Ascii.eqb c "\" then
        match r with
        | String d r' => GChar d :: tokenize r'
        | EmptyString => [GChar c]
        end
      else if Ascii.eqb c "[" then
        match r with
        | String d r' =>
            if Ascii.eqb d "^" then tokenize_class true [] r' else tokenize_class false [] r
        | EmptyString => [GClass false []]
        end
      else GChar c :: tokenize r
  end
with tokenize_class (neg : bool) (items : list (ascii * ascii)) (p : string) : list glob_tok :=
  match p with
  | EmptyString => [GClass neg (rev items)]
  | String c r =>
      if Ascii.eqb c "\" then
        match r with
        | String d r' => tokenize_class neg ((d, d) :: items) r'
        | EmptyString => [GClass neg (rev ((c, c) :: items))]
        end
      else if Ascii.eqb c "]" then GClass neg (rev items) :: tokenize r
      else
        match r with
        | String m (String e r') =>
            if Ascii.eqb m "-" then tokenize_class neg ((c, e) :: items) r'
            else tokenize_class neg ((c, c) :: items) r
        | _ => tokenize_class neg ((c, c) :: items) r
        end
  end.

(** A range [a-b] (swapped when [a > b]) contains [c]. *)
Definition in_range (ab : ascii * ascii) (c : ascii) : bool :=
  let a := nat_of_ascii (fst ab) in
  let b := nat_of_ascii (snd ab) in
  let n := nat_of_ascii c in
  if Nat.leb a b then Nat.leb a n && Nat.leb n b else Nat.leb b n && Nat.leb n a.

Definition class_match (neg : bool) (items : list (ascii * ascii)) (c : ascii) : bool :=
  xorb neg (existsb (fun ab => in_range ab c) items).

Fixpoint glob_tokens (ts : list glob_tok) (s : string) : bool :=
  match ts with
  | [] => String.eqb s ""
  | GStar :: ts' =>
      (fix star (s : string) : bool :=
         glob_tokens ts' s || match s with
                              | EmptyString => false
                              | String _ s' => star s'
                              end) s
  | GAny :: ts' =>
      match s with String _ s' => glob_tokens ts' s' | EmptyString => false end
  | GChar c :: ts' =>
      match s with String d s' => Ascii.eqb c d && glob_tokens ts' s' | EmptyString => false end
  | GClass neg items :: ts' =>
      match s with
      | String d s' => class_match neg items d && glob_tokens ts' s'
      | EmptyString => false
      end
  end.

Definition glob_match (pat s : string) : bool := glob_tokens (tokenize pat) s.

(** The server's keyspace: value and absolute expiry time (seconds). *)
Abbreviation store := (gmap string (string * Z)).

Definition live (now : Z) (e : string * Z) : bool := (now <? snd e)%Z.

(** [GET k]: expired keys are absent. *)
Definition srv_get (now : Z) (k : string) (st : store) : option string :=
  match st !! k with
  | Some e => if live now e then Some (fst e) else None
  | None => None
  end.

(** [SET k v EX ttl] *)
Definition srv_set (now : Z) (k v : string) (ttl : Z) (st : store) : store :=
  <[k := (v, (now + ttl)%Z)]> st.

(** [KEYS pat]: the live keys matching [pat]. *)
Definition srv_keys (now : Z) (pat : string) (st : store) : store :=
  filter (fun kv => glob_match pat kv.1 = true /\ live now kv.2 = true) st.

(** [DEL keys] for the keys just listed by [KEYS pat]: removes them and
    returns how many there were. *)
Definition srv_del_matching (now : Z) (pat : string) (st : store) : store * nat :=
  (filter (fun kv => ~ (glob_match pat kv.1 = true /\ live now kv.2 = true)) st,
   size (srv_keys now pat st)).

(* ================================================================= *)
(** ** [RedisCache] ([src/src/utils/redis-cache.js]) *)

(** The constructor's options: [NODE_ENV === 'test'] and the key prefix
    (['api-gateway:'] in both gateways). *)
Record cache_config : Type := mkCacheConfig { cc_test_mode : bool; cc_prefix : string }.

(** The object's mutable fields ([connected], [client !== null],
    [circuitBreaker]) together with the server it talks to: its keyspace
    and whether it accepts connections and commands. *)
Record cache_state : Type := mkCacheState {
  cs_connected : bool;
  cs_client : bool;
  cs_breaker : breaker;
  cs_store : store;
  cs_server_up : bool
}.

Definition set_conn (cs : cache_state) (connected client : bool) : cache_state :=
  mkCacheState connected client (cs_breaker cs) (cs_store cs) (cs_server_up cs).
Definition set_store (cs : cache_state) (st : store) : cache_state :=
  mkCacheState (cs_connected cs) (cs_client cs) (cs_breaker cs) st (cs_server_up cs).
Definition set_cache_breaker (cs : cache_state) (b : breaker) : cache_state :=
  mkCacheState (cs_connected cs) (cs_client cs) b (cs_store cs) (cs_server_up cs).

Definition redis_down_error : gw_error := mkError None (MsgText "Redis unavailable") None.

(** [getKey(key)] *)
Definition get_key (cfg : cache_config) (key : string) : string := cc_prefix cfg +:+ key.

(** [connect()]: nothing when connected or in test mode; otherwise a new
    client is created and connected; on failure [connected] stays false
    and the error is rethrown.  With the server down, node-redis v4's
    [client.connect()] does not reject: it keeps reconnecting and never
    settles.  Every call of [connect()] while [src/src] serves requests
    runs inside the Redis breaker's action ([redis_fire]), where the
    breaker's 3000 ms timeout fires instead: one failure and the fallback [null], with [connected] false
    and a new client, as modelled here.  The connection that completes
    once the server is back is not modelled.  The legacy [/api/health]
    route awaits [connect()] outside the breaker ([redis_connect_await]). *)
Definition redis_connect (cfg : cache_config) (cs : cache_state) : outcome unit gw_error * cache_state :=
  if cs_connected cs then (Ok tt, cs)
  else if cc_test_mode cfg then (Ok tt, cs)
  else if cs_server_up cs then (Ok tt, set_conn cs true true)
  else (Err redis_down_error, set_conn cs false true).

(** [this.circuitBreaker.fire(operation)]: the breaker's action is
    [if (!this.connected) await this.connect(); return await operation();]
    and its fallback returns [null]. *)
Definition redis_fire (cfg : cache_config) (cs : cache_state)
    (operation : cache_state -> outcome jsval gw_error * cache_state) : cache_state * jsval :=
  let action := fun _ : unit =>
    let '(c, cs1) := if cs_connected cs then (Ok tt, cs) else redis_connect cfg cs in
    match c with
    | Ok _ => operation cs1
    | Err e => (Err e, cs1)
    end in
  let '(b', o, cs') := opossum_fire (cs_breaker cs) (Some JNull) action cs in
  (set_cache_breaker cs' b', match o with Ok v => v | Err _ => JNull end).

(** The value read back by [get]:
    [if (value) { try { return JSON.parse(value) } catch { return value } } return null]. *)
Definition decode_cached (value : option string) : jsval :=
  match value with
  | Some s =>
      if String.eqb s "" then JNull
      else match json_parse s with Some v => v | None => JStr s end
  | None => JNull
  end.

(** [async get(key)] *)
Definition cache_get (cfg : cache_config) (now : Z) (key : string) (cs : cache_state)
    : cache_state * jsval :=
  if cc_test_mode cfg then (cs, JNull)
  else redis_fire cfg cs (fun cs1 =>
    if negb (cs_connected cs1) || negb (cs_client cs1) then (Ok JNull, cs1)
    else if negb (cs_server_up cs1) then (Err redis_down_error, cs1)
    else (Ok (decode_cached (srv_get now (get_key cfg key) (cs_store cs1))), cs1)).

(** The string handed to [SET]:
    [typeof value === 'object' ? JSON.stringify(value) : value]; the
    client sends a number as its decimal text and refuses a boolean
    ([TypeError: Invalid argument type]). *)
Definition set_payload (v : jsval) : option string :=
  match v with
  | JNull | JArr _ | JObj _ => Some (json_stringify v)
  | JStr s => Some s
  | JNum n => Some (pretty n)
  | JBool _ => None
  end.

Definition invalid_arg_error : gw_error := mkError None (MsgText "Invalid argument type") None.

(** [async set(key, value, ttl)] *)
Definition cache_set (cfg : cache_config) (now : Z) (key : string) (v : jsval) (ttl : Z)
    (cs : cache_state) : cache_state * jsval :=
  if cc_test_mode cfg then (cs, JStr "OK")
  else redis_fire cfg cs (fun cs1 =>
    if negb (cs_connected cs1) || negb (cs_client cs1) then (Ok (JStr "OK"), cs1)
    else match set_payload v with
         | None => (Err invalid_arg_error, cs1)
         | Some sv =>
             if negb (cs_server_up cs1) then (Err redis_down_error, cs1)
             else (Ok (JStr "OK"), set_store cs1 (srv_set now (get_key cfg key) sv ttl (cs_store cs1)))
         end).

(** [async invalidateByPattern(pattern)]: [KEYS prefix+pattern], then
    [DEL] of the keys found. *)
Definition invalidate_by_pattern (cfg : cache_config) (now : Z) (pattern : string)
    (cs : cache_state) : cache_state * jsval :=
  if cc_test_mode cfg then (cs, JNum 0)
  else redis_fire cfg cs (fun cs1 =>
    if negb (cs_connected cs1) || negb (cs_client cs1) then (Ok (JNum 0), cs1)
    else if negb (cs_server_up cs1) then (Err redis_down_error, cs1)
    else
      let '(st', n) := srv_del_matching now (cc_prefix cfg +:+ pattern) (cs_store cs1) in
      (Ok (JNum (Z.of_nat n)), set_store cs1 st')).

(* ================================================================= *)
(** ** The proxy dispatcher *)

(** The parts of an Express request the dispatcher reads:
    [req.method], [req.originalUrl] (path and query string), the
    application-level path [req.path], [req.user?.id] ([None] for no user
    or no id) and [req.body]. *)
Record request : Type := mkRequest {
  rq_method : string;
  rq_original_url : string;
  rq_pathname : string;
  rq_user : option string;
  rq_body : jsval
}.

(** What the client receives: [res.json(v)], [res.send(v)], or the HTML
    page of Express's final handler. *)
Inductive body : Type :=
| BodyJson (v : jsval)
| BodySend (v : jsval)
| BodyHtml (s : string).

Record client_response : Type := mkClientResponse {
  cr_status : Z;
  cr_headers : list (string * string);
  cr_body : body
}.

(** The backend interaction of one request: the URL handed to
    [breaker.fire] (if any) and how many backend calls were made. *)
Record trace : Type := mkTrace { t_url : option string; t_calls : nat }.
Definition no_backend : trace := mkTrace None 0.

(** The gateway's shared state: the cache object and one breaker per
    service. *)
Record gateway : Type := mkGateway {
  gw_cache : cache_state;
  gw_breakers : service -> breaker
}.

Definition service_eqb (a b : service) : bool :=
  match a, b with
  | UserSvc, UserSvc | ReviewSvc, ReviewSvc | WatchlistSvc, WatchlistSvc => true
  | _, _ => false
  end.

Definition set_breaker (g : gateway) (s : service) (b : breaker) : gateway :=
  mkGateway (gw_cache g) (fun s' => if service_eqb s s' then b else gw_breakers g s').
Definition set_cache (g : gateway) (cs : cache_state) : gateway :=
  mkGateway cs (gw_breakers g).

(** [const userId = req.user?.id || 'anonymous'] *)
Definition user_id (u : option string) : string :=
  match u with
  | Some id => if String.eqb id "" then "anonymous" else id
  | None => "anonymous"
  end.

(** [userId !== 'anonymous' ? `${userId}:${req.originalUrl}` : req.originalUrl] *)
Definition cache_key (u : option string) (url : string) : string :=
  let uid := user_id u in
  if String.eqb uid "anonymous" then url else uid +:+ ":" +:+ url.

(** [response.data && response.data.fallback] *)
Definition is_fallback_data (d : jsval) : bool :=
  truthy d && match js_field d "fallback" with Some x => truthy x | None => false end.

Definition fallback_header (d : jsval) : list (string * string) :=
  if is_fallback_data d then [("X-Fallback-Response", "true")] else [].

Definition is_get (req : request) : bool := String.eqb (rq_method req) "GET".

(** *** [ProxyController.proxyRequest] ([src/src/controllers/proxy.controller.js]) *)

Definition not_found_src : client_response :=
  mkClientResponse 404 [] (BodyJson (JObj [("error", JStr "Service not found")])).

(** [cacheTTL] by [req.serviceType]. *)
Definition ttl_src (s : service) : Z :=
  match s with UserSvc => 3600 | ReviewSvc => 900 | WatchlistSvc => 1200 end.

(** The invalidation pattern by [req.serviceType]. *)
Definition invalidation_pattern_src (s : service) (uid : string) : string :=
  match s with
  | UserSvc => uid +:+ ":*"
  | ReviewSvc => uid +:+ ":*/api/review*"
  | WatchlistSvc => uid +:+ ":*/api/watchlist*"
  end.

(** [const pathSuffix = req.originalUrl.substring(basePath.length) || '/';
     const url = serviceURL + pathSuffix;] *)
Definition backend_url_src (service_url : string) (s : service) (original_url : string) : string :=
  service_url +:+ or_default (substring_from (String.length (base_path s)) original_url) "/".

(** The catch branch: ['open'] to 503, ['timeout'] to 504, otherwise the
    carried backend status and data, or 500. *)
Definition error_response_src (e : gw_error) : client_response :=
  match e_type e with
  | Some "open" => mkClientResponse 503 [] (BodyJson (JObj [("error", JStr "Service temporarily unavailable")]))
  | Some "timeout" => mkClientResponse 504 [] (BodyJson (JObj [("error", JStr "Service request timed out")]))
  | _ =>
      match e_response e with
      | Some (st, d) =>
          mkClientResponse (if Z.eqb st 0 then 500 else st) []
            (BodyJson (if truthy d then d else JObj [("error", JStr "Internal Gateway Error")]))
      | None => mkClientResponse 500 [] (BodyJson (JObj [("error", JStr "Internal Gateway Error")]))
      end
  end.

(** The part of [proxyRequest] after the cache lookup: build the URL,
    fire the service's breaker, then store (successful GET) or invalidate
    (any other method) and answer with the backend's status and data. *)
Definition forward_src (cfg : cache_config) (service_url : string) (now : Z) (s : service)
    (req : request) (answer : nat -> backend_answer) (hdrs : list (string * string))
    (g : gateway) : gateway * client_response * trace :=
  let url := backend_url_src service_url s (rq_original_url req) in
  let '(b', o, n) := service_fire retries_src (fallback_src s) (gw_breakers g s) answer in
  let g1 := set_breaker g s b' in
  let tr := mkTrace (Some url) n in
  match o with
  | Ok resp =>
      let hdrs' := (hdrs ++ fallback_header (r_data resp))%list in
      let cs1 := gw_cache g1 in
      let cs2 :=
        if is_get req && cs_connected cs1 && is_2xx (r_status resp) then
          fst (cache_set cfg now (cache_key (rq_user req) (rq_original_url req))
                 (r_data resp) (ttl_src s) cs1)
        else cs1 in
      let uid := user_id (rq_user req) in
      let cs3 :=
        if negb (is_get req) && cs_connected cs2 && negb (String.eqb uid "anonymous") then
          fst (invalidate_by_pattern cfg now (invalidation_pattern_src s uid) cs2)
        else cs2 in
      (set_cache g1 cs3, mkClientResponse (r_status resp) hdrs' (BodySend (r_data resp)), tr)
  | Err e => (g1, error_response_src e, tr)
  end.

(** [proxyRequest(req, res)] for [req.serviceType] [st]; [rel_path] is
    the router-relative [req.path].  [urls] is [serviceRegistry.serviceMap]
    ([None] for an unset entry). *)
Definition proxy_request (cfg : cache_config) (urls : service -> option string) (now : Z)
    (st : option service) (rel_path : string) (req : request)
    (answer : nat -> backend_answer) (g : gateway) : gateway * client_response * trace :=
  match st with
  | None => (g, not_found_src, no_backend)
  | Some s =>
      match urls s with
      | None => (g, not_found_src, no_backend)
      | Some service_url =>
          if String.eqb service_url "" then (g, not_found_src, no_backend)
          else if is_get req && cs_connected (gw_cache g) then
            if includes rel_path "/health" then
              (* [this.forwardRequest] is not a method of the class: the
                 TypeError lands in the catch branch *)
              (g, error_response_src (mkError None (MsgText "this.forwardRequest is not a function") None),
               no_backend)
            else
              let key := cache_key (rq_user req) (rq_original_url req) in
              let '(cs1, cached) := cache_get cfg now key (gw_cache g) in
              let g1 := set_cache g cs1 in
              if truthy cached then
                (g1, mkClientResponse 200 [("X-Cache", "HIT")] (BodyJson cached), no_backend)
              else forward_src cfg service_url now s req answer [("X-Cache", "MISS")] g1
          else forward_src cfg service_url now s req answer [] g
      end
  end.

(** *** Application routing ([createApp] in [src/index.js], [initProxyRoutes]) *)

Definition ascii_lower (c : ascii) : ascii :=
  let n := nat_of_ascii c in
  if Nat.leb 65 n && Nat.leb n 90 then ascii_of_nat (n + 32) else c.

Fixpoint lower (s : string) : string :=
  match s with
  | EmptyString => EmptyString
  | String c s' => String (ascii_lower c) (lower s')
  end.

(** [router.use(prefix, ...)]: case-insensitive, at a segment boundary. *)
Definition mount_match (prefix path : string) : bool :=
  String.eqb (lower path) prefix || starts_with (prefix +:+ "/") (lower path).

(** [router.get(p, ...)]: case-insensitive, optional trailing slash,
    GET and HEAD. *)
Definition get_route_match (p : string) (req : request) : bool :=
  (String.eqb (rq_method req) "GET" || String.eqb (rq_method req) "HEAD")
  && (String.eqb (lower (rq_pathname req)) p || String.eqb (lower (rq_pathname req)) (p +:+ "/")).

(** Which handler answers a request that gets past [cors()] and the body
    parsers, in the order [createApp] installs them: the metrics endpoint,
    the health routes, the three service mounts, the [/api] fallback, and
    Express's final handler.  [cors()] answers every [OPTIONS] request
    before this ([handle_app]). *)
Inductive route_target : Type :=
| RMetrics
| RHealth
| RProxy (s : service)
| RApiNotFound
| RDefault404.

Definition app_route (req : request) : route_target :=
  let p := rq_pathname req in
  if String.eqb p "/metrics" || String.eqb p "/metrics/" then RMetrics
  else if get_route_match "/health" req || get_route_match "/health/details" req
          || get_route_match "/health/config" req then RHealth
  else if mount_match "/api/user" p then RProxy UserSvc
  else if mount_match "/api/review" p then RProxy ReviewSvc
  else if mount_match "/api/watchlist" p then RProxy WatchlistSvc
  else if mount_match "/api" p then RApiNotFound
  else RDefault404.

(** The result of the whole application: answered by the modelled
    pipeline, or by a metrics/health handler outside this model. *)
Inductive app_result : Type :=
| Answered (g : gateway) (resp : client_response) (tr : trace)
| OtherHandler (t : route_target).

(** The handlers after the rate limiter: [authMiddleware] always calls
    [next()] ([auth_stage] below), so a request that reaches the routers
    is answered by its route.  [handle_app] adds the middlewares before
    them. *)
Definition handle_src (cfg : cache_config) (urls : service -> option string) (now : Z)
    (req : request) (answer : nat -> backend_answer) (g : gateway) : app_result :=
  match app_route req with
  | RProxy s =>
      let rel := or_default (substring_from (String.length (base_path s)) (rq_pathname req)) "/" in
      let '(g', resp, tr) := proxy_request cfg urls now (Some s) rel req answer g in
      Answered g' resp tr
  | RApiNotFound => Answered g not_found_src no_backend
  | RDefault404 =>
      Answered g (mkClientResponse 404 []
                    (BodyHtml ("Cannot " +:+ rq_method req +:+ " " +:+ rq_pathname req))) no_backend
  | t => OtherHandler t
  end.

(** *** The legacy gateway's handler ([src/unnamed/part_005], [app.use(async (req, res) => ...)]) *)

(** [Object.keys(serviceMap).find((path) => req.originalUrl.startsWith(path))],
    keys in declaration order. *)
Definition legacy_route (original_url : string) : option service :=
  if starts_with "/api/user" original_url then Some UserSvc
  else if starts_with "/api/watchlist" original_url then Some WatchlistSvc
  else if starts_with "/api/review" original_url then Some ReviewSvc
  else None.

Definition not_found_legacy : client_response :=
  mkClientResponse 404 [] (BodySend (JStr "Service not found")).

(** [cacheTTL] by [req.originalUrl.includes(...)]. *)
Definition ttl_legacy (original_url : string) : Z :=
  if includes original_url "/api/user" then 3600
  else if includes original_url "/api/review" then 900
  else if includes original_url "/api/watchlist" then 1200
  else 1800.

Definition invalidation_pattern_legacy (original_url uid : string) : option string :=
  if includes original_url "/api/user" then Some (uid +:+ ":*")
  else if includes original_url "/api/review" then Some (uid +:+ ":*/api/review*")
  else if includes original_url "/api/watchlist" then Some (uid +:+ ":*/api/watchlist*")
  else None.

(** [const url = serviceURL + req.originalUrl.replace(basePath, '') || '/';]
    ([+] binds tighter than [||]). *)
Definition backend_url_legacy (service_url : string) (s : service) (original_url : string) : string :=
  or_default (service_url +:+ replace_first original_url (base_path s) "") "/".

Definition error_response_legacy (e : gw_error) : client_response :=
  match e_type e with
  | Some "open" => mkClientResponse 503 [] (BodySend (JStr "Service temporarily unavailable"))
  | Some "timeout" => mkClientResponse 504 [] (BodySend (JStr "Service request timed out"))
  | _ =>
      match e_response e with
      | Some (st, d) =>
          mkClientResponse (if Z.eqb st 0 then 500 else st) []
            (BodySend (if truthy d then d else JStr "Internal Gateway Error"))
      | None => mkClientResponse 500 [] (BodySend (JStr "Internal Gateway Error"))
      end
  end.

Definition forward_legacy (cfg : cache_config) (service_url : string) (now : Z) (s : service)
    (req : request) (answer : nat -> backend_answer) (hdrs : list (string * string))
    (g : gateway) : gateway * client_response * trace :=
  let url := backend_url_legacy service_url s (rq_original_url req) in
  let '(b', o, n) := service_fire retries_legacy (fallback_legacy s) (gw_breakers g s) answer in
  let g1 := set_breaker g s b' in
  let tr := mkTrace (Some url) n in
  match o with
  | Ok resp =>
      let hdrs' := (hdrs ++ fallback_header (r_data resp))%list in
      let cs1 := gw_cache g1 in
      let cs2 :=
        if is_get req && cs_connected cs1 && is_2xx (r_status resp) then
          fst (cache_set cfg now (cache_key (rq_user req) (rq_original_url req))
                 (r_data resp) (ttl_legacy (rq_original_url req)) cs1)
        else cs1 in
      let uid := user_id (rq_user req) in
      let cs3 :=
        if negb (is_get req) && cs_connected cs2 && negb (String.eqb uid "anonymous") then
          match invalidation_pattern_legacy (rq_original_url req) uid with
          | Some pat => fst (invalidate_by_pattern cfg now pat cs2)
          | None => cs2
          end
        else cs2 in
      (set_cache g1 cs3, mkClientResponse (r_status resp) hdrs' (BodySend (r_data resp)), tr)
  | Err e => (g1, error_response_legacy e, tr)
  end.

Definition legacy_handler (cfg : cache_config) (urls : service -> option string) (now : Z)
    (req : request) (answer : nat -> backend_answer) (g : gateway) : gateway * client_response * trace :=
  match legacy_route (rq_original_url req) with
  | None => (g, not_found_legacy, no_backend)
  | Some s =>
      match urls s with
      | None => (g, not_found_legacy, no_backend)
      | Some service_url =>
          if String.eqb service_url "" then (g, not_found_legacy, no_backend)
          else if is_get req && cs_connected (gw_cache g) then
            let key := cache_key (rq_user req) (rq_original_url req) in
            let '(cs1, cached) := cache_get cfg now key (gw_cache g) in
            let g1 := set_cache g cs1 in
            if truthy cached then
              (g1, mkClientResponse 200 [("X-Cache", "HIT")] (BodyJson cached), no_backend)
            else forward_legacy cfg service_url now s req answer [("X-Cache", "MISS")] g1
          else forward_legacy cfg service_url now s req answer [] g
      end
  end.

(* ================================================================= *)
(** ** Concrete configurations used by the examples *)

Definition gw_cache_cfg : cache_config := mkCacheConfig false "api-gateway:".

Definition closed_breaker : breaker := mkBreaker Closed false 0 0 50.
Definition open_breaker : breaker := mkBreaker Open false 10 10 50.

Definition registry_urls (s : service) : option string :=
  match s with
  | UserSvc => Some "http://localhost:3001"
  | ReviewSvc => Some "http://localhost:3002"
  | WatchlistSvc => Some "http://localhost:3003"
  end.

Definition up_cache (st : store) : cache_state := mkCacheState true true closed_breaker st true.

Definition gw0 (st : store) (b : service -> breaker) : gateway := mkGateway (up_cache st) b.

Definition get_req (u : option string) (url : string) : request := mkRequest "GET" url url u JNull.

(** *** The two gateways side by side *)

Inductive variant : Type := SrcGateway | LegacyGateway.

Definition forward_of (v : variant) :=
  match v with SrcGateway => forward_src | LegacyGateway => forward_legacy end.
Definition fallback_of (v : variant) : service -> response :=
  match v with SrcGateway => fallback_src | LegacyGateway => fallback_legacy end.
Definition retries_of (v : variant) : nat :=
  match v with SrcGateway => retries_src | LegacyGateway => retries_legacy end.
Definition timeout_of (v : variant) : Z :=
  match v with SrcGateway => timeout_src | LegacyGateway => timeout_legacy end.
Definition max_timeout_of (v : variant) : Z :=
  match v with SrcGateway => max_timeout_src | LegacyGateway => max_timeout_legacy end.

(** A half-open breaker whose single probe call fails after its retries. *)
Definition probe_fails (retries : nat) (b : breaker) (answer : nat -> backend_answer) : Prop :=
  b_state b = HalfOpen /\ b_pending_close b = true /\
  exists e, fst (async_retry retries answer) = Err e.

(** An attempt that throws (network error or non-4xx status): retried. *)
Definition is_retryable (a : backend_answer) : bool :=
  match attempt a with AThrow _ => true | _ => false end.

(** The errors thrown by attempts [num], [num+1], ... ([k] of them). *)
Fixpoint thrown_errors (answer : nat -> backend_answer) (num k : nat) : list gw_error :=
  match k with
  | O => []
  | S k' =>
      match attempt (answer num) with
      | AThrow e => e :: thrown_errors answer (S num) k'
      | _ => []
      end
  end.


(** Characters that Redis glob patterns treat specially. *)
Definition glob_special (c : ascii) : bool :=
  Ascii.eqb c "*" || Ascii.eqb c "?" || Ascii.eqb c "\" || Ascii.eqb c "[".

Fixpoint glob_safe (s : string) : bool :=
  match s with
  | EmptyString => true
  | String c s' => negb (glob_special c) && glob_safe s'
  end.

Fixpoint no_colon (s : string) : bool :=
  match s with
  | EmptyString => true
  | String c s' => negb (Ascii.eqb c ":") && no_colon s'
  end.

(** A principal id that is read literally inside an invalidation pattern
    and cannot run into the [:] separator of the cache key. *)
Definition id_safe (u : string) : bool := glob_safe u && no_colon u.

(** The cached URLs an invalidation for a mutation on service [s] is
    aimed at. *)
Definition family_match (s : service) (url : string) : bool :=
  match s with
  | UserSvc => true
  | ReviewSvc => includes url "/api/review"
  | WatchlistSvc => includes url "/api/watchlist"
  end.

(** The pattern [invalidateByPattern] is given, behind the key prefix:
    a literal [prefix + uid + ':'] followed by [*] and the family part. *)
Definition pattern_tail (s : service) : string :=
  match s with
  | UserSvc => ""
  | ReviewSvc => "/api/review*"
  | WatchlistSvc => "/api/watchlist*"
  end.

(* ================================================================= *)
(** ** The rest of [RedisCache] ([src/src/utils/redis-cache.js]) *)

(** [DEL k]: removes the key; the reply counts it when it was live. *)
Definition srv_del (now : Z) (k : string) (st : store) : store * nat :=
  (delete k st, match srv_get now k st with Some _ => 1%nat | None => 0%nat end).

(** [async del(key)] *)
Definition cache_del (cfg : cache_config) (now : Z) (key : string) (cs : cache_state)
    : cache_state * jsval :=
  if cc_test_mode cfg then (cs, JNum 1)
  else redis_fire cfg cs (fun cs1 =>
    if negb (cs_connected cs1) || negb (cs_client cs1) then (Ok (JNum 1), cs1)
    else if negb (cs_server_up cs1) then (Err redis_down_error, cs1)
    else let '(st', n) := srv_del now (get_key cfg key) (cs_store cs1) in
         (Ok (JNum (Z.of_nat n)), set_store cs1 st')).

(** [async flush()]: [FLUSHALL] empties the whole keyspace. *)
Definition cache_flush (cfg : cache_config) (cs : cache_state) : cache_state * jsval :=
  if cc_test_mode cfg then (cs, JStr "OK")
  else redis_fire cfg cs (fun cs1 =>
    if negb (cs_connected cs1) || negb (cs_client cs1) then (Ok (JStr "OK"), cs1)
    else if negb (cs_server_up cs1) then (Err redis_down_error, cs1)
    else (Ok (JStr "OK"), set_store cs1 ∅)).

(** [async close()]: when a client is connected, [await client.quit()]
    and then [connected = false]; a [QUIT] that fails rejects before the
    flag is reset.  [client] keeps the closed client object. *)
Definition cache_close (cs : cache_state) : outcome unit gw_error * cache_state :=
  if cs_client cs && cs_connected cs then
    if cs_server_up cs then (Ok tt, set_conn cs false true) else (Err redis_down_error, cs)
  else (Ok tt, cs).

(** [async invalidateUserCache(userId)] *)
Definition invalidate_user_cache (cfg : cache_config) (now : Z) (user_id : string)
    (cs : cache_state) : cache_state * jsval :=
  if cc_test_mode cfg then (cs, JNum 0)
  else invalidate_by_pattern cfg now (user_id +:+ ":*") cs.

(** *** [cacheMiddleware(ttl)] *)

(** Its key: [`${req.user.id}:${req.originalUrl}`] when
    [req.user && req.user.id], [`${req.originalUrl}`] otherwise. *)
Definition middleware_key (u : option string) (url : string) : string :=
  match u with
  | Some id => if String.eqb id "" then url else id +:+ ":" +:+ url
  | None => url
  end.




(* ================================================================= *)
(** ** Authentication ([src/src/middleware/auth.middleware.js]) *)

(** [s.split(c)] for a one-character separator. *)
Fixpoint split_on (c : ascii) (s : string) : list string :=
  match s with
  | EmptyString => [""]
  | String d s' =>
      if Ascii.eqb d c then "" :: split_on c s'
      else match split_on c s' with
           | w :: ws => String d w :: ws
           | [] => [String d ""]
           end
  end.

(** The parts of a request the middleware reads: [req.path],
    [req.headers.authorization] and [req.query.token] ([None] for
    undefined). *)
Record auth_request : Type := mkAuthRequest {
  ar_path : string;
  ar_authorization : option string;
  ar_query_token : option string
}.

(** [getToken(req)]; [None] stands for undefined and null. *)
Definition get_token (req : auth_request) : option string :=
  let from_query :=
    match ar_query_token req with
    | Some t => if String.eqb t "" then None else Some t
    | None => None
    end in
  match ar_authorization req with
  | Some h =>
      if negb (String.eqb h "")
         && match nth_error (split_on " " h) 0 with Some w => String.eqb w "Bearer" | None => false end
      then nth_error (split_on " " h) 1
      else from_query
  | None => from_query
  end.

(** A truthy token. *)
Definition token_truthy (t : option string) : bool :=
  match t with Some s => negb (String.eqb s "") | None => false end.

Definition public_paths : list string := ["/health"; "/health/details"; "/health/config"; "/metrics"].

Definition auth_public (p : string) : bool :=
  existsb (String.eqb p) public_paths
  || String.eqb p "/health"
  || starts_with "/api/user/login" p || starts_with "/api/user/signup" p
  || starts_with "/api/user/test" p || starts_with "/api/watchlist/test" p
  || starts_with "/api/review/test" p.

(** An error handed to [next(err)]: its [name] and [message]. *)
Record js_error : Type := mkJsError { je_name : string; je_message : string }.

(** What a middleware ends with: [next()], [next(err)], or an answer. *)
Inductive mw_outcome : Type :=
| MwContinue
| MwError (e : js_error)
| MwAnswer (status : Z) (v : jsval).

(** [authMiddleware(req, res, next)].  [jwt req] is what express-jwt's
    middleware passes to its callback ([Some err] or nothing); the
    second component tells whether express-jwt was run. *)
Definition auth_middleware (jwt : auth_request -> option js_error) (req : auth_request)
    : mw_outcome * bool :=
  if auth_public (ar_path req) then (MwContinue, false)
  else if negb (token_truthy (get_token req)) then (MwContinue, false)
  else match jwt req with
       | Some _ => (MwContinue, true)
       | None => (MwContinue, true)
       end.

(** express-jwt's [UnauthorizedError('credentials_required', ...)]. *)
Definition credentials_required : js_error :=
  mkJsError "UnauthorizedError" "No authorization token was found".

(** What the [expressjwt({ secret, algorithms })] of [authMiddleware]
    passes to its callback.  With no [getToken] option it reads the
    Authorization header only: a missing or empty header gives
    [credentials_required] (credentials are required by default);
    [verify h] stands for its checks of a present header [h]. *)
Definition express_jwt (verify : string -> option js_error) (req : auth_request) : option js_error :=
  match ar_authorization req with
  | Some h => if String.eqb h "" then Some credentials_required else verify h
  | None => Some credentials_required
  end.

(** [handleJwtError(err, req, res, next)] *)
Definition handle_jwt_error (e : js_error) : mw_outcome :=
  if String.eqb (je_name e) "UnauthorizedError"
  then MwAnswer 401 (JObj [("error", JStr "Invalid token")])
  else MwError e.

(** [app.use(authMiddleware); app.use(handleJwtError);] in [createApp]:
    the error handler only sees an error passed to [next]. *)
Definition auth_stage (jwt : auth_request -> option js_error) (req : auth_request) : mw_outcome :=
  match fst (auth_middleware jwt req) with
  | MwError e => handle_jwt_error e
  | o => o
  end.

(** *** The middlewares of [createApp] before the routers *)

(** What the first middlewares see of a request: the request; the body
    parsers' failure, if any ([express.json()] and [express.urlencoded()]
    call [next(err)] with an http-errors error, e.g. status 400 on a
    malformed JSON body); how many requests the client's IP has made in
    the limiter's current 15-minute window, this one included; and
    [new Date().toISOString()]. *)
Record app_input : Type := mkAppInput {
  ai_req : request;
  ai_body_error : option (js_error * Z);
  ai_hits : nat;
  ai_timestamp : string
}.

(** [cors()] with its defaults answers a preflight itself:
    [res.statusCode = 204; res.setHeader('Content-Length', '0'); res.end()].
    The CORS and [RateLimit-*] headers are not modelled. *)
Definition cors_preflight : client_response := mkClientResponse 204 [] (BodySend (JStr "")).

(** [apiLimiter] ([src/unnamed/part_001]): 100 requests per IP per
    15 minutes, then its handler answers 429. *)
Definition limiter_max : nat := 100.
Definition limiter_message : string := "Too many requests from this IP, please try again later".

Definition error_body (msg : string) (status : Z) (timestamp : string) : jsval :=
  JObj [("error", JObj [("message", JStr msg); ("status", JNum status); ("timestamp", JStr timestamp)])].

(** [errorMiddleware(err, req, res, next)] ([src/unnamed/part_002]):
    status [err.statusCode || err.status || 500]. *)
Definition error_middleware (e : js_error) (status : Z) (timestamp : string) : client_response :=
  let code := if Z.eqb status 0 then 500%Z else status in
  mkClientResponse code []
    (BodyJson (error_body (or_default (je_message e) "Internal Server Error") code timestamp)).

(** The application of [createApp]: [cors()] (Node's parser gives
    [req.method] in capitals), [express.json()] and
    [express.urlencoded()], whose error skips every plain middleware to
    [handleJwtError] and then [errorMiddleware]; [morgan] (logging only);
    [metricsMiddleware], which serves [/metrics]; [apiLimiter]; then the
    routers ([handle_src]). *)
Definition handle_app (cfg : cache_config) (urls : service -> option string) (now : Z)
    (ai : app_input) (answer : nat -> backend_answer) (g : gateway) : app_result :=
  let req := ai_req ai in
  if String.eqb (rq_method req) "OPTIONS" then Answered g cors_preflight no_backend
  else match ai_body_error ai with
  | Some (e, status) =>
      match handle_jwt_error e with
      | MwAnswer code v => Answered g (mkClientResponse code [] (BodyJson v)) no_backend
      | _ => Answered g (error_middleware e status (ai_timestamp ai)) no_backend
      end
  | None =>
      match app_route req with
      | RMetrics => OtherHandler RMetrics
      | _ =>
          if Nat.ltb limiter_max (ai_hits ai)
          then Answered g (mkClientResponse 429 []
                             (BodyJson (error_body limiter_message 429 (ai_timestamp ai)))) no_backend
          else handle_src cfg urls now req answer g
      end
  end.

(* ================================================================= *)
(** ** [HealthController.getDetailedHealth]
    ([src/src/controllers/health.controller.js]) *)

(** [error.message] *)
Definition err_message (m : err_msg) : string :=
  match m with
  | MsgStatus n => "Request failed with status code " +:+ pretty n
  | MsgText t => t
  end.

(** [path.replace('/api/', '')] *)
Definition service_name (s : service) : string := replace_first (base_path s) "/api/" "".

(** The entry [serviceStatuses[serviceName]] for the result of [fire]. *)
Definition health_entry (o : outcome response gw_error) : jsval :=
  match o with
  | Ok r => JObj [("status", JStr (if Z.eqb (r_status r) 200 then "UP" else "DOWN")); ("details", r_data r)]
  | Err e => JObj [("status", JStr "DOWN"); ("error", JStr (err_message (e_message e)))]
  end.

(** [service.status === 'UP'] *)
Definition entry_up (v : jsval) : bool :=
  match js_field v "status" with Some (JStr s) => String.eqb s "UP" | _ => false end.

(** [Object.keys(serviceRegistry.serviceMap)] *)
Definition health_services : list service := [UserSvc; ReviewSvc; WatchlistSvc].

(** The probes: each service's breaker fires [GET `${serviceUrl}/health`].
    They run concurrently, each on its own breaker; entries are listed in
    the registry's order.  The last component lists the URL fired and the
    backend calls made, per service. *)
Fixpoint health_probes (urls : service -> string) (answers : service -> nat -> backend_answer)
    (ss : list service) (g : gateway)
    : gateway * list (string * jsval) * list (string * nat) :=
  match ss with
  | [] => (g, [], [])
  | s :: ss' =>
      let '(b', o, n) := service_fire retries_src (fallback_src s) (gw_breakers g s) (answers s) in
      let '(g2, entries, calls) := health_probes urls answers ss' (set_breaker g s b') in
      (g2, (service_name s, health_entry o) :: entries, (urls s +:+ "/health", n) :: calls)
  end.

Definition detailed_health (urls : service -> string) (answers : service -> nat -> backend_answer)
    (timestamp : string) (g : gateway) : gateway * client_response * list (string * nat) :=
  let '(g', entries, calls) := health_probes urls answers health_services g in
  let all_up := forallb (fun e => entry_up (snd e)) entries in
  (g', mkClientResponse 200 []
         (BodyJson (JObj [("status", JStr (if all_up then "UP" else "DEGRADED"));
                          ("service", JStr "api-gateway");
                          ("timestamp", JStr timestamp);
                          ("services", JObj entries)])),
   calls).

(** A field of a JSON response body. *)
Definition body_field (r : client_response) (k : string) : option jsval :=
  match cr_body r with BodyJson v | BodySend v => js_field v k | BodyHtml _ => None end.

(* ================================================================= *)
(** ** The service registry ([src/unnamed/part_004]) *)

(** [serviceMap] as an object: own keys in insertion order. *)
Abbreviation registry := (list (string * string)).

Fixpoint reg_lookup (m : registry) (p : string) : option string :=
  match m with
  | [] => None
  | (k, v) :: m' => if String.eqb k p then Some v else reg_lookup m' p
  end.

Fixpoint reg_set (m : registry) (p u : string) : registry :=
  match m with
  | [] => [(p, u)]
  | (k, v) :: m' => if String.eqb k p then (k, u) :: m' else (k, v) :: reg_set m' p u
  end.

Fixpoint reg_delete (m : registry) (p : string) : registry :=
  match m with
  | [] => []
  | (k, v) :: m' => if String.eqb k p then m' else (k, v) :: reg_delete m' p
  end.

(** The names an object inherits from [Object.prototype]. *)
Definition inherited_names : list string :=
  ["__proto__"; "constructor"; "hasOwnProperty"; "isPrototypeOf"; "propertyIsEnumerable";
   "toLocaleString"; "toString"; "valueOf"; "__defineGetter__"; "__defineSetter__";
   "__lookupGetter__"; "__lookupSetter__"].

Definition is_inherited (p : string) : bool := existsb (String.eqb p) inherited_names.

(** A property read [serviceMap[path]]: an own URL, an inherited member
    (a function or [Object.prototype], truthy), or undefined. *)
Inductive prop_val : Type := PUrl (u : string) | PInherited.

(** [getServiceUrl(path)] *)
Definition get_service_url (m : registry) (p : string) : option prop_val :=
  match reg_lookup m p with
  | Some u => Some (PUrl u)
  | None => if is_inherited p then Some PInherited else None
  end.

(** An array index: the canonical decimal form of an integer in
    [[0, 2^32 - 2]], with its value. *)
Definition array_index_value (p : string) : option Z :=
  let '(v, k, rest) := parse_digits p 0 0 in
  if Nat.eqb k 0 || negb (String.eqb rest "") then None
  else match p with
       | String "0" (String _ _) => None
       | _ => if (v <=? 4294967294)%Z then Some v else None
       end.

Definition is_array_index (p : string) : bool :=
  match array_index_value p with Some _ => true | None => false end.

Definition index_value (p : string) : Z :=
  match array_index_value p with Some v => v | None => 0 end.

Fixpoint insert_by_index (p : string) (ks : list string) : list string :=
  match ks with
  | [] => [p]
  | k :: ks' => if (index_value k <? index_value p)%Z then k :: insert_by_index p ks' else p :: ks
  end.

(** [Object.keys(obj)] for an object whose own keys were created in the
    order [ks]: the array indices first, in ascending numeric order, then
    the other keys in creation order. *)
Definition object_keys (ks : list string) : list string :=
  (fold_right insert_by_index [] (List.filter is_array_index ks)
   ++ List.filter (fun p => negb (is_array_index p)) ks)%list.

(** [getServicePaths()]: [Object.keys(this.serviceMap)]. *)
Definition get_service_paths (m : registry) : list string := object_keys (map fst m).

(** [addService(path, url)]: assigning a string to [__proto__] is
    ignored. *)
Definition add_service (m : registry) (p u : string) : registry :=
  if String.eqb p "__proto__" then m else reg_set m p u.

(** [removeService(path)] *)
Definition remove_service (m : registry) (p : string) : registry * bool :=
  match get_service_url m p with
  | Some (PUrl u) => if String.eqb u "" then (m, false) else (reg_delete m p, true)
  | Some PInherited => (reg_delete m p, true)
  | None => (m, false)
  end.

(** The registry's initial map: [process.env.X || default]. *)
Definition env_or (e : option string) (d : string) : string :=
  match e with Some v => or_default v d | None => d end.

Definition service_map_init (user review watchlist : option string) : registry :=
  [("/api/user", env_or user "http://localhost:3001");
   ("/api/review", env_or review "http://localhost:3002");
   ("/api/watchlist", env_or watchlist "http://localhost:3003")].

(** [this.serviceMap[basePath]] as [proxyRequest] reads it. *)
Definition registry_service_url (m : registry) (s : service) : option string :=
  match get_service_url m (base_path s) with
  | Some (PUrl u) => Some u
  | _ => None
  end.

(* ================================================================= *)
(** ** The first gateway ([src/index.js], lines 1-123) *)

(** Its forwarding handler: one plain [axios] call, no breaker, retry or
    cache. *)
Definition error_response_index (e : gw_error) : client_response :=
  match e_response e with
  | Some (st, d) =>
      mkClientResponse (if Z.eqb st 0 then 500 else st) []
        (BodySend (if truthy d then d else JStr "Internal Gateway Error"))
  | None => mkClientResponse 500 [] (BodySend (JStr "Internal Gateway Error"))
  end.

Definition index_forward (urls : service -> option string) (req : request) (answer : backend_answer)
    : client_response * trace :=
  match legacy_route (rq_original_url req) with
  | None => (not_found_legacy, no_backend)
  | Some s =>
      match urls s with
      | None => (not_found_legacy, no_backend)
      | Some service_url =>
          if String.eqb service_url "" then (not_found_legacy, no_backend)
          else
            let url := backend_url_legacy service_url s (rq_original_url req) in
            match axios_call answer with
            | Ok r => (mkClientResponse (r_status r) [] (BodySend (r_data r)), mkTrace (Some url) 1)
            | Err e => (error_response_index e, mkTrace (Some url) 1)
            end
      end
  end.

(* ================================================================= *)
(** ** The legacy gateway's [/api/health] route ([src/unnamed/part_005]) *)

(** [await redisCache.connect()] outside any breaker: while the server is
    down (outside test mode) the promise never settles, [None]. *)
Definition redis_connect_await (cfg : cache_config) (cs : cache_state)
    : option (outcome unit gw_error * cache_state) :=
  if negb (cs_connected cs) && negb (cc_test_mode cfg) && negb (cs_server_up cs) then None
  else Some (redis_connect cfg cs).

(** The route's answer, or [None] when it never answers. *)
Definition legacy_health (cfg : cache_config) (uptime timestamp : Z) (cs : cache_state)
    : option (cache_state * client_response) :=
  let base := [("uptime", JNum uptime); ("message", JStr "OK"); ("timestamp", JNum timestamp);
               ("redisConnection", JStr (if cs_connected cs then "connected" else "disconnected"))] in
  if negb (cs_connected cs) then
    match redis_connect_await cfg cs with
    | None => None
    | Some (Ok _, cs1) =>
        Some (cs1, mkClientResponse 200 [] (BodyJson (JObj (base ++ [("redisPing", JStr "successful")]))))
    | Some (Err e, cs1) =>
        Some (cs1, mkClientResponse 200 []
                     (BodyJson (JObj (base ++ [("redisPing", JStr "failed");
                                              ("redisError", JStr (err_message (e_message e)))]))))
    end
  else Some (cs, mkClientResponse 200 [] (BodyJson (JObj (base ++ [("redisPing", JStr "successful")])))).

(* ================================================================= *)
(** ** The older [createCircuitBreaker] ([src/unnamed/part_006]) *)

(** Three retries and the 503 fallbacks of [src/src]. *)
Definition part006_fire (s : service) (b : breaker) (answer : nat -> backend_answer)
    : breaker * outcome response gw_error * nat :=
  service_fire retries_legacy (fallback_src s) b answer.

(* ================================================================= *)
(** ** Sample inputs *)

Definition sample_store : store := {[ "api-gateway:u1:/api/user/1" := ("{}", 100%Z) ]}.

Definition sample_data : jsval := JObj [("a", JNum 1)].


(** Every backend refuses every connection. *)
Definition services_down : service -> nat -> backend_answer := fun _ _ => NetError "connect ECONNREFUSED".

Definition health_urls (s : service) : string :=
  match s with
  | UserSvc => "http://localhost:3001"
  | ReviewSvc => "http://localhost:3002"
  | WatchlistSvc => "http://localhost:3003"
  end.

(* ================================================================= *)
(** * Properties *)

(** ** Sample evaluations *)

Example json_parse_ex1 : json_parse " [1, -2, true, null, {}] " =
  Some (JArr [JNum 1; JNum (-2); JBool true; JNull; JObj []]).
Proof. vm_compute. reflexivity. Qed.

Example json_parse_ex2 : json_parse "0" = Some (JNum 0) /\ json_parse "abc" = None
  /\ json_parse "[1,]" = None /\ json_parse "01" = None.
Proof. vm_compute. repeat split. Qed.

Example json_roundtrip_ex :
  let v := JObj [("reviews", JArr []); ("fallback", JBool true); ("message", JStr "a\c")] in
  json_parse (json_stringify v) = Some v.
Proof. vm_compute. reflexivity. Qed.

Example retry_all_5xx : snd (async_retry 5 (fun _ => Answer 502 JNull)) = 6%nat.
Proof. reflexivity. Qed.

Example glob_ex :
  glob_match "api-gateway:u1:*" "api-gateway:u1:/api/user/7" = true
  /\ glob_match "api-gateway:u1:*" "api-gateway:u2:/api/user/7" = false
  /\ glob_match "api-gateway:u1:*/api/review*" "api-gateway:u1:/api/review/3?x=1" = true
  /\ glob_match "api-gateway:u1:*/api/review*" "api-gateway:u1:/api/user/3" = false
  /\ glob_match "h[a-c]?l\*" "hbxl*" = true.
Proof. vm_compute. repeat split. Qed.

(** ** Strings *)

Lemma str_app_nil (b : string) : "" +:+ b = b.
Proof. reflexivity. Qed.

Lemma str_app_cons (x : ascii) (a b : string) : String x a +:+ b = String x (a +:+ b).
Proof. reflexivity. Qed.

Ltac str_simpl := repeat rewrite ?str_app_nil, ?str_app_cons in *; cbn -[Ascii.eqb] in *.

Lemma str_app_assoc (a b c : string) : (a +:+ b) +:+ c = a +:+ (b +:+ c).
Proof. induction a as [|x a IH]; str_simpl; [reflexivity | now rewrite IH]. Qed.

Lemma str_app_nil_r (a : string) : a +:+ "" = a.
Proof. induction a as [|x a IH]; str_simpl; [reflexivity | now rewrite IH]. Qed.

Lemma str_length_app (a b : string) : String.length (a +:+ b) = (String.length a + String.length b)%nat.
Proof. induction a as [|x a IH]; str_simpl; [reflexivity | now rewrite IH]. Qed.

Lemma str_app_inj_l (a b c : string) : a +:+ b = a +:+ c -> b = c.
Proof. induction a as [|x a IH]; str_simpl; [auto | intros H; injection H; auto]. Qed.


Lemma starts_with_app (w t : string) : starts_with w (w +:+ t) = true.
Proof. induction w as [|x w IH]; str_simpl; [reflexivity | now rewrite Ascii.eqb_refl, IH]. Qed.

Lemma starts_with_spec (w s : string) : starts_with w s = true <-> exists t, s = w +:+ t.
Proof.
  revert s. induction w as [|x w IH]; intros s; str_simpl.
  - split; [intros _; now exists s | auto].
  - destruct s as [|y s].
    + split; [discriminate | intros [t Ht]; discriminate].
    + rewrite andb_true_iff, Ascii.eqb_eq, IH. split.
      * intros [-> [t ->]]. now exists t.
      * intros [t Ht]. injection Ht as -> ->. eauto.
Qed.

(** Two colon-free ids: [u:] begins [v:...] only when [u = v]. *)
Lemma colon_prefix_eq (u v x : string) :
  no_colon u = true -> no_colon v = true ->
  starts_with (u +:+ ":") (v +:+ ":" +:+ x) = true -> u = v.
Proof.
  revert v. induction u as [|a u IH]; intros [|b v] Hu Hv H; str_simpl.
  - reflexivity.
  - apply andb_true_iff in Hv as [Hb _]. apply andb_true_iff in H as [Hab _].
    apply Ascii.eqb_eq in Hab. subst b. rewrite Ascii.eqb_refl in Hb. discriminate.
  - apply andb_true_iff in Hu as [Ha _]. apply andb_true_iff in H as [Hab _].
    apply Ascii.eqb_eq in Hab. subst a. rewrite Ascii.eqb_refl in Ha. discriminate.
  - apply andb_true_iff in Hu as [_ Hu]. apply andb_true_iff in Hv as [_ Hv].
    apply andb_true_iff in H as [Hab H]. apply Ascii.eqb_eq in Hab. subst b.
    f_equal. now apply IH.
Qed.

(** ** Breakers *)

(** An open breaker (its [pendingClose] flag is cleared by [open()])
    rejects without running the action. *)
Lemma opossum_fire_open {A W : Type} (b : breaker) (fb : option A) run (w0 : W) :
  b_state b = Open -> b_pending_close b = false ->
  opossum_fire b fb run w0 =
    (mkBreaker Open false (S (b_fires b)) (b_failures b) (b_threshold b),
     match fb with Some a => Ok a | None => Err open_error end, w0).
Proof. destruct b; simpl; intros -> ->; reflexivity. Qed.

Lemma opossum_fire_run_err {A W : Type} (b : breaker) (fb : option A) run (w0 w : W) e :
  (b_state b = Closed \/ b_pending_close b = true) -> run tt = (Err e, w) ->
  opossum_fire b fb run w0 =
    (breaker_fail (with_state (mkBreaker (b_state b) (b_pending_close b) (S (b_fires b))
                                 (b_failures b) (b_threshold b)) (b_state b) false),
     match fb with Some a => Ok a | None => Err e end, w).
Proof.
  destruct b as [st pc f fl th]; simpl; intros Hadm Hrun. unfold opossum_fire. simpl.
  rewrite Hrun.
  destruct Hadm as [-> | ->]; simpl; [reflexivity|].
  destruct st; reflexivity.
Qed.

Lemma opossum_fire_run_ok {A W : Type} (b : breaker) (fb : option A) run (w0 w : W) a :
  (b_state b = Closed \/ b_pending_close b = true) -> run tt = (Ok a, w) ->
  opossum_fire b fb run w0 =
    (let b2 := with_state (mkBreaker (b_state b) (b_pending_close b) (S (b_fires b))
                             (b_failures b) (b_threshold b)) (b_state b) false in
     if is_half_open b2 then breaker_close b2 else b2, Ok a, w).
Proof.
  destruct b as [st pc f fl th]; simpl; intros Hadm Hrun. unfold opossum_fire. simpl.
  rewrite Hrun.
  destruct Hadm as [-> | ->]; simpl; [reflexivity|].
  destruct st; reflexivity.
Qed.

Lemma breaker_fail_failures (b : breaker) : b_failures (breaker_fail b) = S (b_failures b).
Proof. unfold breaker_fail. destruct (_ || _); reflexivity. Qed.

Lemma breaker_fail_half_open (b : breaker) :
  b_state b = HalfOpen -> b_state (breaker_fail b) = Open.
Proof.
  destruct b as [st pc f fl th]; simpl; intros ->. unfold breaker_fail, is_half_open. simpl.
  rewrite orb_true_r. reflexivity.
Qed.

(** The service breakers always have a fallback, so [fire] always
    resolves. *)
Lemma service_fire_resolves retries fb b answer :
  exists b' r n, service_fire retries fb b answer = (b', Ok r, n).
Proof.
  unfold service_fire, opossum_fire.
  destruct (negb _ && negb _); [eauto|].
  destruct (async_retry retries answer) as [[r|e] n]; eauto.
Qed.

(** ** Retries *)

Lemma retry_go_bounds t num errs answer :
  (1 <= snd (retry_go t num errs answer) <= S t)%nat.
Proof.
  revert num errs. induction t as [|t IH]; intros num errs; simpl;
    destruct (attempt (answer num)); simpl; try lia.
  specialize (IH (S num) (errs ++ [e])%list).
  destruct (retry_go t (S num) _ answer) as [r n]. simpl in *. lia.
Qed.

Lemma main_error_go_some errs counts best bc :
  best <> None -> main_error_go errs counts best bc <> None.
Proof.
  revert counts best bc. induction errs as [|e errs IH]; intros counts best bc Hb; simpl; [exact Hb|].
  destruct (Nat.leb bc _); apply IH; [discriminate | exact Hb].
Qed.

Lemma main_error_nonempty errs e : exists e', main_error (errs ++ [e])%list = Some e'.
Proof.
  unfold main_error. destruct errs as [|e0 errs]; simpl.
  - eexists; reflexivity.
  - destruct (main_error_go (errs ++ [e])%list _ (Some e0) _) as [e'|] eqn:E.
    + eauto.
    + exfalso. revert E. apply main_error_go_some. discriminate.
Qed.

Lemma retry_go_all_thrown t num errs answer :
  (forall k, (num <= k <= num + t)%nat -> is_retryable (answer k) = true) ->
  snd (retry_go t num errs answer) = S t /\
  exists e, fst (retry_go t num errs answer) = Err e /\
            main_error (errs ++ thrown_errors answer num (S t))%list = Some e.
Proof.
  revert num errs. induction t as [|t IH]; intros num errs Hall.
  - specialize (Hall num ltac:(lia)). unfold is_retryable in Hall. simpl.
    destruct (attempt (answer num)) as [r|e|e]; try discriminate. simpl.
    destruct (main_error_nonempty errs e) as [e' He']. rewrite He'. simpl. eauto.
  - pose proof (Hall num ltac:(lia)) as H0. unfold is_retryable in H0. simpl.
    destruct (attempt (answer num)) as [r|e|e] eqn:Ea; try discriminate.
    destruct (IH (S num) (errs ++ [e])%list) as [Hn [e' [He' Hm]]].
    { intros k Hk. apply Hall. lia. }
    destruct (retry_go t (S num) _ answer) as [res n]. simpl in *.
    split; [lia|]. exists e'. split; [exact He'|].
    rewrite <- app_assoc in Hm. exact Hm.
Qed.

(** ** The dispatcher after [fire] *)

Lemma service_eqb_refl (s : service) : service_eqb s s = true.
Proof. destruct s; reflexivity. Qed.

Lemma set_breaker_same g s b : gw_breakers (set_breaker g s b) s = b.
Proof. unfold set_breaker. simpl. now rewrite service_eqb_refl. Qed.

(** Once [fire] has resolved with [resp], both gateways answer with its
    status and data, keep the breaker [fire] left behind, and report the
    calls [fire] made. *)
Lemma forward_resolved v cfg su now s req answer hdrs g b' resp n :
  service_fire (retries_of v) (fallback_of v s) (gw_breakers g s) answer = (b', Ok resp, n) ->
  let '(g', r, t) := forward_of v cfg su now s req answer hdrs g in
  gw_breakers g' s = b' /\ cr_status r = r_status resp /\
  cr_body r = BodySend (r_data resp) /\
  cr_headers r = (hdrs ++ fallback_header (r_data resp))%list /\ t_calls t = n.
Proof.
  intros Hf. destruct v; unfold forward_of, forward_src, forward_legacy;
    simpl retries_of in Hf; simpl fallback_of in Hf; rewrite Hf;
    cbn [fst snd gw_breakers set_cache cr_status cr_body cr_headers t_calls];
    rewrite set_breaker_same; repeat split.
Qed.

Lemma attempt_4xx st d :
  (400 <= st < 500)%Z -> attempt (Answer st d) = ABail (mkError None (MsgStatus st) (Some (st, d))).
Proof.
  intros H. unfold attempt, axios_call, is_2xx.
  replace ((200 <=? st) && (st <? 300))%Z with false
    by (symmetry; apply andb_false_iff; right; apply Z.ltb_ge; lia).
  cbn [e_response].
  replace ((400 <=? st) && (st <? 500))%Z with true
    by (symmetry; apply andb_true_iff; split; [apply Z.leb_le | apply Z.ltb_lt]; lia).
  reflexivity.
Qed.

(** ** C1 *)

(** C1 (amended): a request that reaches [breaker.fire] while the breaker
    is OPEN, or whose HALF_OPEN probe fails, is answered with the
    service's fallback verbatim (the fallback's own status and body); the
    breaker is OPEN afterwards, and while OPEN no backend call is made.
    In the [src/src] gateway that status is 503 for every service; in the
    legacy gateway it is 503 for the user service and 200 for the review
    and watchlist services. *)
Theorem C1_fallback_when_open :
  forall v cfg service_url now s req answer hdrs g,
    (b_state (gw_breakers g s) = Open /\ b_pending_close (gw_breakers g s) = false)
    \/ probe_fails (retries_of v) (gw_breakers g s) answer ->
    let '(g', r, t) := forward_of v cfg service_url now s req answer hdrs g in
    cr_status r = r_status (fallback_of v s) /\
    cr_body r = BodySend (r_data (fallback_of v s)) /\
    b_state (gw_breakers g' s) = Open /\
    (b_state (gw_breakers g s) = Open -> t_calls t = 0%nat) /\
    cr_status r = (match v, s with LegacyGateway, (ReviewSvc | WatchlistSvc) => 200 | _, _ => 503 end)%Z.
Proof.
  intros v cfg su now s req answer hdrs g Hpre.
  destruct Hpre as [[Ho Hp] | [Hh [Hp [e He]]]].
  - pose proof (opossum_fire_open (gw_breakers g s) (Some (fallback_of v s))
                  (fun _ => async_retry (retries_of v) answer) 0%nat Ho Hp) as Hf.
    pose proof (forward_resolved v cfg su now s req answer hdrs g _ _ _ Hf) as Hr.
    destruct (forward_of v cfg su now s req answer hdrs g) as [[g' r] t].
    destruct Hr as (Hb & Hs & Hbody & _ & Hn).
    rewrite Hb, Hs, Hbody, Hn. repeat split.
    destruct v, s; reflexivity.
  - destruct (async_retry (retries_of v) answer) as [o n] eqn:Ea. simpl in He. subst o.
    pose proof (opossum_fire_run_err (gw_breakers g s) (Some (fallback_of v s))
                  (fun _ => async_retry (retries_of v) answer) 0%nat n e
                  (or_intror Hp) Ea) as Hf.
    pose proof (forward_resolved v cfg su now s req answer hdrs g _ _ _ Hf) as Hr.
    destruct (forward_of v cfg su now s req answer hdrs g) as [[g' r] t].
    destruct Hr as (Hb & Hs & Hbody & _ & Hn).
    rewrite Hb, Hs, Hbody. repeat split.
    + apply breaker_fail_half_open. simpl. exact Hh.
    + rewrite Hh. discriminate.
    + destruct v, s; reflexivity.
Qed.

Lemma C1_fallback_when_open_witness :
  ((b_state (gw_breakers (gw0 ∅ (fun _ => open_breaker)) ReviewSvc) = Open
    /\ b_pending_close (gw_breakers (gw0 ∅ (fun _ => open_breaker)) ReviewSvc) = false)
   \/ probe_fails (retries_of LegacyGateway) (gw_breakers (gw0 ∅ (fun _ => open_breaker)) ReviewSvc)
        (fun _ => Answer 200 JNull))
  /\ let '(g', r, t) := forward_of LegacyGateway gw_cache_cfg "http://localhost:3002" 0 ReviewSvc
                          (get_req None "/api/review/1") (fun _ => Answer 200 JNull) []
                          (gw0 ∅ (fun _ => open_breaker)) in
     cr_status r = r_status (fallback_of LegacyGateway ReviewSvc) /\
     cr_body r = BodySend (r_data (fallback_of LegacyGateway ReviewSvc)) /\
     b_state (gw_breakers g' ReviewSvc) = Open /\
     (b_state (gw_breakers (gw0 ∅ (fun _ => open_breaker)) ReviewSvc) = Open -> t_calls t = 0%nat) /\
     cr_status r = (match LegacyGateway, ReviewSvc with
                    | LegacyGateway, (ReviewSvc | WatchlistSvc) => 200 | _, _ => 503 end)%Z.
Proof.
  split.
  - left. split; reflexivity.
  - apply (C1_fallback_when_open LegacyGateway gw_cache_cfg "http://localhost:3002" 0 ReviewSvc
             (get_req None "/api/review/1") (fun _ => Answer 200 JNull) []
             (gw0 ∅ (fun _ => open_breaker))).
    left. split; reflexivity.
Defined.

(** C1 counterexample: in the legacy gateway a GET on [/api/review/1]
    with the review breaker OPEN is answered 200 (the review fallback),
    not 503, and without a backend call. *)
Lemma C1_legacy_open_review_is_200 :
  let '(_, r, t) := legacy_handler gw_cache_cfg registry_urls 0 (get_req None "/api/review/1")
                      (fun _ => Answer 200 (JObj [])) (gw0 ∅ (fun _ => open_breaker)) in
  cr_status r = 200%Z /\ cr_body r = BodySend (fallback_body ReviewSvc) /\ t_calls t = 0%nat.
Proof. vm_compute. repeat split. Qed.

(** ** C2 *)

(** C2 (the code): in the [src/src] gateway, when the service's breaker
    is closed and the backend answers the first attempt with a status in
    [400,500), exactly one backend call is made, the breaker records one
    failure, and the client receives the fallback: status 503 and the
    fallback body, not the backend's status. *)
Theorem C2_client_error_not_passed_through :
  forall cfg service_url now s req answer hdrs g st d,
    b_state (gw_breakers g s) = Closed ->
    answer 1%nat = Answer st d -> (400 <= st < 500)%Z ->
    let '(g', r, t) := forward_src cfg service_url now s req answer hdrs g in
    t_calls t = 1%nat /\ cr_status r = 503%Z /\ cr_body r = BodySend (fallback_body s) /\
    b_failures (gw_breakers g' s) = S (b_failures (gw_breakers g s)).
Proof.
  intros cfg su now s req answer hdrs g st d Hc Ha Hst.
  assert (Hr : async_retry retries_src answer = (Err (mkError None (MsgStatus st) (Some (st, d))), 1%nat)).
  { unfold async_retry, retries_src. simpl. rewrite Ha, attempt_4xx by exact Hst. reflexivity. }
  pose proof (opossum_fire_run_err (gw_breakers g s) (Some (fallback_src s))
                (fun _ => async_retry retries_src answer) 0%nat 1%nat _ (or_introl Hc) Hr) as Hf.
  pose proof (forward_resolved SrcGateway cfg su now s req answer hdrs g _ _ _ Hf) as Hfw.
  change (forward_of SrcGateway) with forward_src in Hfw.
  destruct (forward_src cfg su now s req answer hdrs g) as [[g' r] t].
  destruct Hfw as (Hb & Hs & Hbody & _ & Hn).
  rewrite Hb, Hs, Hbody, Hn, breaker_fail_failures. repeat split.
Qed.

Lemma C2_client_error_not_passed_through_witness :
  b_state (gw_breakers (gw0 ∅ (fun _ => closed_breaker)) UserSvc) = Closed /\
  (fun _ : nat => Answer 404 (JObj [])) 1%nat = Answer 404 (JObj []) /\ (400 <= 404 < 500)%Z /\
  let '(g', r, t) := forward_src gw_cache_cfg "http://localhost:3001" 0 UserSvc
                       (get_req (Some "u1") "/api/user/7") (fun _ => Answer 404 (JObj [])) []
                       (gw0 ∅ (fun _ => closed_breaker)) in
  t_calls t = 1%nat /\ cr_status r = 503%Z /\ cr_body r = BodySend (fallback_body UserSvc) /\
  b_failures (gw_breakers g' UserSvc) = S (b_failures (gw_breakers (gw0 ∅ (fun _ => closed_breaker)) UserSvc)).
Proof.
  split; [reflexivity|]. split; [reflexivity|]. split; [lia|].
  apply (C2_client_error_not_passed_through gw_cache_cfg "http://localhost:3001" 0 UserSvc
           (get_req (Some "u1") "/api/user/7") (fun _ => Answer 404 (JObj [])) []
           (gw0 ∅ (fun _ => closed_breaker)) 404 (JObj [])); [reflexivity | reflexivity | lia].
Defined.

Lemma cache_get_up cfg now key bp bf bfl bt st :
  cc_test_mode cfg = false ->
  cache_get cfg now key (mkCacheState true true (mkBreaker Closed bp bf bfl bt) st true) =
    (mkCacheState true true (mkBreaker Closed false (S bf) bfl bt) st true,
     decode_cached (srv_get now (get_key cfg key) st)).
Proof. intros Ht. unfold cache_get. rewrite Ht. reflexivity. Qed.

(** ** C4 *)

(** A request that [cors()], the body parsers and the limiter let
    through, and that is not for [/metrics], reaches the routers. *)
Lemma handle_app_passes cfg urls now req hits ts answer g :
  rq_method req <> "OPTIONS" -> (hits <= limiter_max)%nat -> app_route req <> RMetrics ->
  handle_app cfg urls now (mkAppInput req None hits ts) answer g = handle_src cfg urls now req answer g.
Proof.
  intros Hm Hh Hr. unfold handle_app. cbn [ai_req ai_body_error ai_hits].
  apply String.eqb_neq in Hm. rewrite Hm.
  assert (El : Nat.ltb limiter_max hits = false) by (apply Nat.ltb_ge; exact Hh).
  destruct (app_route req); [exfalso; now apply Hr | rewrite El; reflexivity ..].
Qed.

(** C4 (amended): in the [src/src] application ([createApp]), [cors()]
    answers every [OPTIONS] request 204 with an empty body, whatever its
    path; a body the parsers reject is answered by [errorMiddleware] with
    the parser's status (400 for malformed JSON); a client past 100
    requests in the limiter's window gets 429.  Any other request under
    [/api] that matches none of the three service mounts is answered 404
    with the fixed JSON body and no backend call; a path outside [/api]
    (and outside the health and metrics routes) falls to Express's final
    handler, whose 404 page names the method and path.  A request that
    reaches [proxyRequest] with no service type, or with no (or an empty)
    base URL for its service, gets the fixed 404 and no backend call.  In
    the legacy gateway every request reaching its catch-all handler with
    no matching prefix, or with no (or an empty) base URL, gets 404
    ['Service not found'] and no backend call. *)
Theorem C4_not_found_routes :
  forall cfg urls now req answer g,
    (forall err hits ts, rq_method req = "OPTIONS" ->
       handle_app cfg urls now (mkAppInput req err hits ts) answer g =
         Answered g cors_preflight no_backend) /\
    (forall e status hits ts, rq_method req <> "OPTIONS" -> je_name e <> "UnauthorizedError" ->
       handle_app cfg urls now (mkAppInput req (Some (e, status)) hits ts) answer g =
         Answered g (error_middleware e status ts) no_backend) /\
    (forall hits ts, rq_method req <> "OPTIONS" -> app_route req <> RMetrics ->
       (limiter_max < hits)%nat ->
       handle_app cfg urls now (mkAppInput req None hits ts) answer g =
         Answered g (mkClientResponse 429 [] (BodyJson (error_body limiter_message 429 ts))) no_backend) /\
    (forall hits ts, rq_method req <> "OPTIONS" -> (hits <= limiter_max)%nat ->
       (app_route req = RApiNotFound ->
          handle_app cfg urls now (mkAppInput req None hits ts) answer g =
            Answered g not_found_src no_backend) /\
       (app_route req = RDefault404 ->
          handle_app cfg urls now (mkAppInput req None hits ts) answer g =
            Answered g (mkClientResponse 404 []
                          (BodyHtml ("Cannot " +:+ rq_method req +:+ " " +:+ rq_pathname req))) no_backend)) /\
    (forall rel, proxy_request cfg urls now None rel req answer g = (g, not_found_src, no_backend)) /\
    (forall s rel, urls s = None \/ urls s = Some "" ->
       proxy_request cfg urls now (Some s) rel req answer g = (g, not_found_src, no_backend)) /\
    (legacy_route (rq_original_url req) = None ->
       legacy_handler cfg urls now req answer g = (g, not_found_legacy, no_backend)) /\
    (forall s, legacy_route (rq_original_url req) = Some s -> urls s = None \/ urls s = Some "" ->
       legacy_handler cfg urls now req answer g = (g, not_found_legacy, no_backend)).
Proof.
  intros cfg urls now req answer g.
  split; [intros err hits ts H; unfold handle_app; cbn [ai_req]; now rewrite H|].
  split.
  { intros e status hits ts Hm He. unfold handle_app. cbn [ai_req ai_body_error ai_timestamp].
    apply String.eqb_neq in Hm. rewrite Hm. unfold handle_jwt_error.
    apply String.eqb_neq in He. now rewrite He. }
  split.
  { intros hits ts Hm Hr Hh. unfold handle_app. cbn [ai_req ai_body_error ai_hits ai_timestamp].
    apply String.eqb_neq in Hm. rewrite Hm.
    assert (El : Nat.ltb limiter_max hits = true) by (apply Nat.ltb_lt; exact Hh).
    destruct (app_route req); [exfalso; now apply Hr | rewrite El; reflexivity ..]. }
  split.
  { intros hits ts Hm Hh. split; intros H; rewrite handle_app_passes by (rewrite ?H; easy);
      unfold handle_src; now rewrite H. }
  split; [reflexivity|].
  split; [intros s rel [H|H]; unfold proxy_request; now rewrite H|].
  split; [intros H; unfold legacy_handler; now rewrite H|].
  intros s Hr [H|H]; unfold legacy_handler; now rewrite Hr, H.
Qed.

Lemma C4_not_found_routes_witness :
  rq_method (mkRequest "DELETE" "/api/unknown" "/api/unknown" None JNull) <> "OPTIONS" /\
  (7 <= limiter_max)%nat /\
  app_route (mkRequest "DELETE" "/api/unknown" "/api/unknown" None JNull) = RApiNotFound /\
  handle_app gw_cache_cfg registry_urls 0
    (mkAppInput (mkRequest "DELETE" "/api/unknown" "/api/unknown" None JNull) None 7 "t")
    (fun _ => Answer 200 JNull) (gw0 ∅ (fun _ => closed_breaker)) =
  Answered (gw0 ∅ (fun _ => closed_breaker)) not_found_src no_backend.
Proof.
  assert (Hm : rq_method (mkRequest "DELETE" "/api/unknown" "/api/unknown" None JNull) <> "OPTIONS")
    by discriminate.
  assert (Hh : (7 <= limiter_max)%nat) by (unfold limiter_max; lia).
  assert (Hr : app_route (mkRequest "DELETE" "/api/unknown" "/api/unknown" None JNull) = RApiNotFound)
    by reflexivity.
  split; [exact Hm|]. split; [exact Hh|]. split; [exact Hr|].
  exact (proj1 (proj1 (proj2 (proj2 (proj2
           (C4_not_found_routes gw_cache_cfg registry_urls 0
              (mkRequest "DELETE" "/api/unknown" "/api/unknown" None JNull)
              (fun _ => Answer 200 JNull) (gw0 ∅ (fun _ => closed_breaker))))))
           7%nat "t" Hm Hh) Hr).
Defined.

(** C4 counterexample: [OPTIONS /api/unknown] matches no route and gets
    204 from [cors()]; [POST /foo] matches no route and gets Express's
    HTML page; neither gets the fixed 404 body. *)
Lemma C4_preflight_and_unrouted_path :
  handle_app gw_cache_cfg registry_urls 0
    (mkAppInput (mkRequest "OPTIONS" "/api/unknown" "/api/unknown" None JNull) None 1 "t")
    (fun _ => Answer 200 JNull) (gw0 ∅ (fun _ => closed_breaker)) =
  Answered (gw0 ∅ (fun _ => closed_breaker)) cors_preflight no_backend /\
  cors_preflight <> not_found_src /\
  match handle_app gw_cache_cfg registry_urls 0
          (mkAppInput (mkRequest "POST" "/foo" "/foo" None JNull) None 1 "t")
          (fun _ => Answer 200 JNull) (gw0 ∅ (fun _ => closed_breaker)) with
  | Answered _ r _ => r = mkClientResponse 404 [] (BodyHtml "Cannot POST /foo") /\ r <> not_found_src
  | OtherHandler _ => False
  end.
Proof.
  split; [reflexivity|]. split; [discriminate|].
  vm_compute. split; [reflexivity | discriminate].
Qed.

(** ** C5 *)

Lemma str_app_not_self (u url : string) : u <> "" -> u +:+ ":" +:+ url <> url.
Proof.
  intros Hu H. apply (f_equal String.length) in H.
  rewrite !str_length_app in H. destruct u; [now apply Hu | simpl in H; lia].
Qed.



(** ** C7 *)

(** The timer wins the race: one failure, the fallback, and the calls
    the action makes regardless. *)
Lemma opossum_fire_timed_timeout {A W : Type} timeout (b : breaker) (fb : A) run (w0 w : W) o t :
  (b_state b = Closed \/ b_pending_close b = true) -> run tt = (o, w, t) -> (timeout < t)%Z ->
  opossum_fire_timed timeout b (Some fb) run w0 =
    (breaker_fail (with_state (mkBreaker (b_state b) (b_pending_close b) (S (b_fires b))
                                 (b_failures b) (b_threshold b)) (b_state b) false), Ok fb, w).
Proof.
  destruct b as [st pc f fl th]; simpl; intros Hadm Hrun Ht. unfold opossum_fire_timed. simpl.
  rewrite Hrun, (proj2 (Z.ltb_lt _ _) Ht).
  destruct Hadm as [-> | ->]; simpl; [reflexivity|].
  destruct st; reflexivity.
Qed.

(** With waits of at least node-retry's least timeouts, a retry whose
    attempts all throw outlasts the breaker's timer, which fires after at
    most 4 ([src/src]) or 2 (legacy) attempts have started. *)
Lemma retry_outlasts_timeout v lat delay :
  (forall k, 0 <= lat k)%Z ->
  (forall k, min_retry_timeout (max_timeout_of v) k <= delay (S k))%Z ->
  (timeout_of v < retry_settle lat delay (S (retries_of v)))%Z /\
  (attempts_started_before (timeout_of v) lat delay (S (retries_of v))
     <= match v with SrcGateway => 4 | LegacyGateway => 2 end)%nat.
Proof.
  intros Hlat Hd.
  pose proof (Hd 0%nat) as D1. pose proof (Hd 1%nat) as D2. pose proof (Hd 2%nat) as D3.
  pose proof (Hd 3%nat) as D4. pose proof (Hd 4%nat) as D5.
  pose proof (Hlat 1%nat) as L1. pose proof (Hlat 2%nat) as L2. pose proof (Hlat 3%nat) as L3.
  pose proof (Hlat 4%nat) as L4. pose proof (Hlat 5%nat) as L5. pose proof (Hlat 6%nat) as L6.
  destruct v.
  - change (min_retry_timeout (max_timeout_of SrcGateway) 0) with 1000%Z in D1.
    change (min_retry_timeout (max_timeout_of SrcGateway) 1) with 2000%Z in D2.
    change (min_retry_timeout (max_timeout_of SrcGateway) 2) with 4000%Z in D3.
    change (min_retry_timeout (max_timeout_of SrcGateway) 3) with 8000%Z in D4.
    change (min_retry_timeout (max_timeout_of SrcGateway) 4) with 8000%Z in D5.
    unfold timeout_of, timeout_src, retries_of, retries_src. split.
    + unfold retry_settle. cbn [attempt_start]. lia.
    + unfold attempts_started_before. cbn [seq].
      assert (E5 : (attempt_start lat delay 5 <? 10000)%Z = false)
        by (apply Z.ltb_ge; cbn [attempt_start]; lia).
      assert (E6 : (attempt_start lat delay 6 <? 10000)%Z = false)
        by (apply Z.ltb_ge; cbn [attempt_start]; lia).
      cbn [List.filter]. rewrite E5, E6.
      repeat match goal with |- context [if ?c then _ else _] => destruct c end;
        cbn [length]; lia.
  - change (min_retry_timeout (max_timeout_of LegacyGateway) 0) with 1000%Z in D1.
    change (min_retry_timeout (max_timeout_of LegacyGateway) 1) with 2000%Z in D2.
    change (min_retry_timeout (max_timeout_of LegacyGateway) 2) with 4000%Z in D3.
    unfold timeout_of, timeout_legacy, retries_of, retries_legacy. split.
    + unfold retry_settle. cbn [attempt_start]. lia.
    + unfold attempts_started_before. cbn [seq].
      assert (E3 : (attempt_start lat delay 3 <? 3000)%Z = false)
        by (apply Z.ltb_ge; cbn [attempt_start]; lia).
      assert (E4 : (attempt_start lat delay 4 <? 3000)%Z = false)
        by (apply Z.ltb_ge; cbn [attempt_start]; lia).
      cbn [List.filter]. rewrite E3, E4.
      repeat match goal with |- context [if ?c then _ else _] => destruct c end;
        cbn [length]; lia.
Qed.

(** C7 (amended): one invocation of the retry policy makes between 1 and
    [retries + 1] backend calls (6 in [src/src], 4 in the legacy gateway).
    When every attempt throws a retryable error, exactly [retries + 1]
    calls are made and the retry promise rejects with node-retry's
    [mainError] (the most frequent message, the latest among ties) of the
    thrown errors.  With call latencies of at least 0 and backoff waits
    of at least node-retry's least timeouts, the breaker's timer
    (10000 ms in [src/src], 3000 ms in the legacy gateway) fires before
    the retry settles, when at most 4 (2) attempts have started: a closed
    breaker records the timeout as its one failure and resolves with the
    fallback, while the retry goes on making all its calls and its
    rejection is ignored. *)
Theorem C7_retry_attempt_budget :
  forall v s b answer lat delay,
    b_state b = Closed ->
    (forall k, 0 <= lat k)%Z ->
    (forall k, min_retry_timeout (max_timeout_of v) k <= delay (S k))%Z ->
    (1 <= snd (async_retry (retries_of v) answer) <= S (retries_of v))%nat /\
    ((forall k, (1 <= k <= S (retries_of v))%nat -> is_retryable (answer k) = true) ->
       snd (async_retry (retries_of v) answer) = S (retries_of v) /\
       (exists e, fst (async_retry (retries_of v) answer) = Err e /\
                  main_error (thrown_errors answer 1 (S (retries_of v))) = Some e) /\
       (timeout_of v < retry_settle lat delay (S (retries_of v)))%Z /\
       (attempts_started_before (timeout_of v) lat delay (S (retries_of v))
          <= match v with SrcGateway => 4 | LegacyGateway => 2 end)%nat /\
       let '(b', o, n) := service_fire_timed (timeout_of v) (retries_of v) (fallback_of v s)
                            b answer lat delay in
       b_failures b' = S (b_failures b) /\ o = Ok (fallback_of v s) /\ n = S (retries_of v)).
Proof.
  intros v s b answer lat delay Hc Hlat Hd. split; [apply retry_go_bounds|].
  intros Hall.
  destruct (retry_go_all_thrown (retries_of v) 1 [] answer) as [Hn [e [He Hm]]].
  { intros k Hk. apply Hall. lia. }
  destruct (retry_outlasts_timeout v lat delay Hlat Hd) as [Ht Hcount].
  split; [exact Hn|]. split; [exists e; split; [exact He | exact Hm]|].
  split; [exact Ht|]. split; [exact Hcount|].
  change (retry_go (retries_of v) 1 [] answer) with (async_retry (retries_of v) answer) in Hn.
  assert (Ea : async_retry (retries_of v) answer =
                 (fst (async_retry (retries_of v) answer), S (retries_of v))).
  { rewrite <- Hn. destruct (async_retry (retries_of v) answer); reflexivity. }
  unfold service_fire_timed.
  rewrite (opossum_fire_timed_timeout (timeout_of v) b (fallback_of v s)
             (fun _ => let '(o0, n0) := async_retry (retries_of v) answer in
                       (o0, n0, retry_settle lat delay n0))
             0%nat (S (retries_of v)) (fst (async_retry (retries_of v) answer))
             (retry_settle lat delay (S (retries_of v)))
             (or_introl Hc)); [| cbv beta; rewrite Ea; reflexivity | exact Ht].
  rewrite breaker_fail_failures. destruct b; repeat split.
Qed.

Lemma C7_retry_attempt_budget_witness :
  b_state closed_breaker = Closed /\
  (forall k, 0 <= (fun _ : nat => 0%Z) k)%Z /\
  (forall k, min_retry_timeout (max_timeout_of SrcGateway) k
             <= (fun k => min_retry_timeout max_timeout_src (Nat.pred k)) (S k))%Z /\
  (1 <= snd (async_retry (retries_of SrcGateway) (fun _ => Answer 502 JNull)) <= S (retries_of SrcGateway))%nat /\
  ((forall k, (1 <= k <= S (retries_of SrcGateway))%nat -> is_retryable ((fun _ => Answer 502 JNull) k) = true) ->
     snd (async_retry (retries_of SrcGateway) (fun _ => Answer 502 JNull)) = S (retries_of SrcGateway) /\
     (exists e, fst (async_retry (retries_of SrcGateway) (fun _ => Answer 502 JNull)) = Err e /\
                main_error (thrown_errors (fun _ => Answer 502 JNull) 1 (S (retries_of SrcGateway))) = Some e) /\
     (timeout_of SrcGateway < retry_settle (fun _ => 0%Z) (fun k => min_retry_timeout max_timeout_src (Nat.pred k))
                                (S (retries_of SrcGateway)))%Z /\
     (attempts_started_before (timeout_of SrcGateway) (fun _ => 0%Z)
        (fun k => min_retry_timeout max_timeout_src (Nat.pred k)) (S (retries_of SrcGateway)) <= 4)%nat /\
     let '(b', o, n) := service_fire_timed (timeout_of SrcGateway) (retries_of SrcGateway)
                          (fallback_of SrcGateway UserSvc) closed_breaker (fun _ => Answer 502 JNull)
                          (fun _ => 0%Z) (fun k => min_retry_timeout max_timeout_src (Nat.pred k)) in
     b_failures b' = S (b_failures closed_breaker) /\ o = Ok (fallback_of SrcGateway UserSvc) /\
     n = S (retries_of SrcGateway)).
Proof.
  assert (Hl : forall k, (0 <= (fun _ : nat => 0%Z) k)%Z) by (intros; apply Z.le_refl).
  assert (Hd : forall k, (min_retry_timeout (max_timeout_of SrcGateway) k
                          <= (fun k => min_retry_timeout max_timeout_src (Nat.pred k)) (S k))%Z)
    by (intros; apply Z.le_refl).
  split; [reflexivity|]. split; [exact Hl|]. split; [exact Hd|].
  exact (C7_retry_attempt_budget SrcGateway UserSvc closed_breaker (fun _ => Answer 502 JNull)
           (fun _ => 0%Z) (fun k => min_retry_timeout max_timeout_src (Nat.pred k)) eq_refl Hl Hd).
Defined.

(** C7 counterexample: the [src/src] policy makes 6 calls against a
    backend that keeps answering 502; the legacy policy facing 502, 502,
    503, 504 rejects with the 502 error, not the last one; and with
    instant answers and the shortest waits, the [src/src] breaker's timer
    fires after 4 of the 6 calls have started (the legacy one after 2 of
    4), so the failure recorded is the timeout and the fallback is
    served before the attempts are exhausted. *)
Lemma C7_six_attempts_and_main_error :
  snd (async_retry retries_src (fun _ => Answer 502 JNull)) = 6%nat /\
  async_retry retries_legacy
    (fun k => match k with 1%nat | 2%nat => Answer 502 JNull | 3%nat => Answer 503 JNull
                        | _ => Answer 504 JNull end)
  = (Err (mkError None (MsgStatus 502) (Some (502%Z, JNull))), 4%nat) /\
  attempts_started_before timeout_src (fun _ => 0%Z)
    (fun k => min_retry_timeout max_timeout_src (Nat.pred k)) 6 = 4%nat /\
  attempts_started_before timeout_legacy (fun _ => 0%Z)
    (fun k => min_retry_timeout max_timeout_legacy (Nat.pred k)) 4 = 2%nat /\
  (let '(b', o, n) := service_fire_timed timeout_src retries_src (fallback_src UserSvc) closed_breaker
                        (fun _ => Answer 502 JNull) (fun _ => 0%Z)
                        (fun k => min_retry_timeout max_timeout_src (Nat.pred k)) in
   b_failures b' = 1%nat /\ o = Ok (fallback_src UserSvc) /\ n = 6%nat).
Proof. do 4 (split; [reflexivity|]). vm_compute. repeat split. Qed.

(** ** C8 *)

(** C8 (the code): in [src/src] the backend URL for an empty remainder is
    the base URL followed by [/]; the legacy gateway's
    [serviceURL + originalUrl.replace(basePath, '') || '/'] applies
    [|| '/'] to the whole sum, so a request on the bare prefix goes to the
    base URL without [/]. *)
Theorem C8_empty_remainder_url :
  (forall service_url s, backend_url_src service_url s (base_path s) = service_url +:+ "/") /\
  (forall service_url s, backend_url_legacy service_url s (base_path s) = or_default service_url "/") /\
  (let '(_, _, t) := legacy_handler gw_cache_cfg registry_urls 0
                       (mkRequest "POST" "/api/user" "/api/user" (Some "u1") JNull)
                       (fun _ => Answer 200 JNull) (gw0 ∅ (fun _ => closed_breaker)) in
   t_url t = Some "http://localhost:3001").
Proof.
  split; [intros su s; destruct s; reflexivity|].
  split; [intros su s; destruct s; unfold backend_url_legacy; simpl; now rewrite str_app_nil_r|].
  vm_compute. reflexivity.
Qed.

(** ** Glob patterns with a literal part *)

Lemma glob_safe_app (a b : string) : glob_safe (a +:+ b) = glob_safe a && glob_safe b.
Proof. induction a as [|c a IH]; str_simpl; [reflexivity | now rewrite IH, andb_assoc]. Qed.

Lemma tokenize_lit (w r : string) :
  glob_safe w = true ->
  tokenize (w +:+ r) = (map GChar (list_ascii_of_string w) ++ tokenize r)%list.
Proof.
  induction w as [|c w IH]; intros H; str_simpl; [reflexivity|].
  apply andb_true_iff in H as [Hc Hw]. unfold glob_special in Hc.
  destruct (Ascii.eqb c "*"), (Ascii.eqb c "?"), (Ascii.eqb c "\"), (Ascii.eqb c "[");
    try discriminate.
  simpl. now rewrite IH.
Qed.

Lemma glob_lit (w : string) ts (s : string) :
  glob_tokens (map GChar (list_ascii_of_string w) ++ ts)%list s = true <->
  exists t, s = w +:+ t /\ glob_tokens ts t = true.
Proof.
  revert s. induction w as [|c w IH]; intros s; str_simpl.
  - split; [eauto | intros [t [-> H]]; exact H].
  - destruct s as [|d s].
    + split; [discriminate | intros [t [Ht _]]; discriminate].
    + rewrite andb_true_iff, Ascii.eqb_eq, IH. split.
      * intros [-> [t [-> Ht]]]. eauto.
      * intros [t [Ht Hg]]. injection Ht as -> ->. eauto.
Qed.

Lemma glob_star_cons ts c (s : string) :
  glob_tokens (GStar :: ts) (String c s) = glob_tokens ts (String c s) || glob_tokens (GStar :: ts) s.
Proof. reflexivity. Qed.

Lemma glob_star_nil ts : glob_tokens (GStar :: ts) "" = glob_tokens ts "" || false.
Proof. reflexivity. Qed.

Lemma glob_star_any (s : string) : glob_tokens [GStar] s = true.
Proof.
  induction s as [|c s IH]; [reflexivity|].
  rewrite glob_star_cons, IH. apply orb_true_r.
Qed.

Lemma glob_lit_star (w t : string) :
  glob_tokens (map GChar (list_ascii_of_string w) ++ [GStar])%list t = starts_with w t.
Proof.
  apply Bool.eq_iff_eq_true. rewrite glob_lit, starts_with_spec. split.
  - intros [x [-> _]]. eauto.
  - intros [x ->]. exists x. split; [reflexivity | apply glob_star_any].
Qed.

Lemma glob_star_lit_star (w t : string) :
  glob_tokens (GStar :: map GChar (list_ascii_of_string w) ++ [GStar])%list t = includes t w.
Proof.
  induction t as [|c t IH].
  - rewrite glob_star_nil, glob_lit_star. reflexivity.
  - rewrite glob_star_cons, glob_lit_star, IH. reflexivity.
Qed.

Lemma pattern_split (prefix u : string) s :
  prefix +:+ invalidation_pattern_src s u = (prefix +:+ u +:+ ":") +:+ String "*" (pattern_tail s).
Proof. destruct s; simpl; rewrite !str_app_assoc; reflexivity. Qed.

Lemma glob_invalidation (prefix u k : string) s :
  glob_safe prefix = true -> glob_safe u = true ->
  glob_match (prefix +:+ invalidation_pattern_src s u) k = true <->
  exists t, k = (prefix +:+ u +:+ ":") +:+ t /\ family_match s t = true.
Proof.
  intros Hp Hu. unfold glob_match. rewrite pattern_split, tokenize_lit.
  2: { rewrite !glob_safe_app, Hp, Hu. reflexivity. }
  rewrite glob_lit. destruct s; cbn [pattern_tail family_match].
  - change (tokenize (String "*" "")) with [GStar].
    split; intros [t [Ht _]]; exists t; split; auto using glob_star_any.
  - change (tokenize (String "*" "/api/review*"))
      with (GStar :: map GChar (list_ascii_of_string "/api/review") ++ [GStar])%list.
    split; intros [t [Ht Hg]]; exists t; rewrite glob_star_lit_star in *; auto.
  - change (tokenize (String "*" "/api/watchlist*"))
      with (GStar :: map GChar (list_ascii_of_string "/api/watchlist") ++ [GStar])%list.
    split; intros [t [Ht Hg]]; exists t; rewrite glob_star_lit_star in *; auto.
Qed.

Lemma glob_own_key (prefix u url : string) s :
  glob_safe prefix = true -> glob_safe u = true ->
  glob_match (prefix +:+ invalidation_pattern_src s u) (prefix +:+ u +:+ ":" +:+ url) = family_match s url.
Proof.
  intros Hp Hu. apply Bool.eq_iff_eq_true. rewrite glob_invalidation by assumption. split.
  - intros [t [Ht Hf]]. rewrite !str_app_assoc in Ht.
    apply str_app_inj_l, str_app_inj_l, str_app_inj_l in Ht. now subst.
  - intros Hf. exists url. split; [now rewrite !str_app_assoc | exact Hf].
Qed.

Lemma glob_other_key (prefix u v url : string) s :
  glob_safe prefix = true -> id_safe u = true -> id_safe v = true -> v <> u ->
  glob_match (prefix +:+ invalidation_pattern_src s u) (prefix +:+ v +:+ ":" +:+ url) = false.
Proof.
  intros Hp Hu Hv Hne. unfold id_safe in Hu, Hv.
  apply andb_true_iff in Hu as [Hgu Hcu]. apply andb_true_iff in Hv as [_ Hcv].
  apply not_true_iff_false. rewrite glob_invalidation by assumption.
  intros [t [Ht _]]. rewrite str_app_assoc in Ht. apply str_app_inj_l in Ht.
  apply Hne. symmetry. apply (colon_prefix_eq u v url Hcu Hcv).
  apply starts_with_spec. exists t. now rewrite Ht, str_app_assoc.
Qed.

(** ** The Redis server's keyspace *)

Lemma srv_del_lookup now pat st k :
  (srv_del_matching now pat st).1 !! k =
  match st !! k with
  | Some e => if glob_match pat k && live now e then None else Some e
  | None => None
  end.
Proof.
  unfold srv_del_matching. simpl. rewrite map_lookup_filter.
  destruct (st !! k) as [e|]; simpl; [|reflexivity].
  case_guard as Hg; destruct (glob_match pat k), (live now e); simpl in *;
    try reflexivity; exfalso;
    first [ tauto | destruct Hg as [? ?]; discriminate | apply Hg; intros [? ?]; discriminate ].
Qed.

(** A reachable cache whose breaker is closed runs [KEYS] and [DEL]. *)
Lemma invalidate_store cfg now pat cs :
  cc_test_mode cfg = false -> cs_connected cs = true -> cs_client cs = true ->
  cs_server_up cs = true -> b_state (cs_breaker cs) = Closed ->
  cs_store (fst (invalidate_by_pattern cfg now pat cs)) =
    (srv_del_matching now (cc_prefix cfg +:+ pat) (cs_store cs)).1.
Proof.
  intros Ht Hc Hcl Hu Hb. destruct cs as [c cl [bs bp bf bfl bt] st up]; simpl in *; subst.
  unfold invalidate_by_pattern, redis_fire. rewrite Ht. simpl.
  destruct (srv_del_matching now (cc_prefix cfg +:+ pat) st) as [st' n]. reflexivity.
Qed.

(** What a non-GET request does to the cache in [src/src]: [fire]
    always resolves, so the invalidation branch runs whenever the cache
    is connected and the user is not anonymous, whatever the backend
    answered. *)
Lemma forward_src_cache_mutation cfg su now s req answer hdrs g :
  is_get req = false ->
  gw_cache (fst (fst (forward_src cfg su now s req answer hdrs g))) =
    if cs_connected (gw_cache g) && negb (String.eqb (user_id (rq_user req)) "anonymous")
    then fst (invalidate_by_pattern cfg now (invalidation_pattern_src s (user_id (rq_user req))) (gw_cache g))
    else gw_cache g.
Proof.
  intros Hget. destruct (service_fire_resolves retries_src (fallback_src s) (gw_breakers g s) answer)
    as [b' [r [n Hf]]].
  unfold forward_src. rewrite Hf, Hget. reflexivity.
Qed.

(** ** C3 *)

(** C3 (amended): let a mutating (non-GET) request reach [fire] in the
    [src/src] gateway while the cache is connected, reachable and its
    breaker closed, with a key prefix free of glob metacharacters.  An
    anonymous request leaves the keyspace unchanged.  For a principal
    [u] whose id has no [:] and no glob metacharacter: each of [u]'s
    live entries is removed when its URL belongs to the service's family
    (every URL for the user service, URLs containing [/api/review] or
    [/api/watchlist] for the other two), and every entry of another such
    principal is untouched.  This happens whatever the backend answered:
    no 2xx status is required. *)
Theorem C3_invalidation_scope :
  forall cfg service_url now s req answer hdrs g,
    cc_test_mode cfg = false -> glob_safe (cc_prefix cfg) = true ->
    is_get req = false ->
    cs_connected (gw_cache g) = true -> cs_client (gw_cache g) = true ->
    cs_server_up (gw_cache g) = true -> b_state (cs_breaker (gw_cache g)) = Closed ->
    let '(g', _, _) := forward_src cfg service_url now s req answer hdrs g in
    let u := user_id (rq_user req) in
    (u = "anonymous" -> cs_store (gw_cache g') = cs_store (gw_cache g)) /\
    (id_safe u = true -> u <> "anonymous" ->
      (forall url,
         cs_store (gw_cache g') !! (cc_prefix cfg +:+ u +:+ ":" +:+ url) =
         match cs_store (gw_cache g) !! (cc_prefix cfg +:+ u +:+ ":" +:+ url) with
         | Some e => if family_match s url && live now e then None else Some e
         | None => None
         end) /\
      (forall v url, id_safe v = true -> v <> u ->
         cs_store (gw_cache g') !! (cc_prefix cfg +:+ v +:+ ":" +:+ url) =
         cs_store (gw_cache g) !! (cc_prefix cfg +:+ v +:+ ":" +:+ url))).
Proof.
  intros cfg su now s req answer hdrs g Ht Hp Hget Hc Hcl Hup Hb.
  pose proof (forward_src_cache_mutation cfg su now s req answer hdrs g Hget) as Hcache.
  destruct (forward_src cfg su now s req answer hdrs g) as [[g' r] t]. simpl in Hcache.
  cbv zeta. split.
  - intros Ha. rewrite Ha in Hcache. simpl in Hcache. rewrite Hcache, andb_false_r. reflexivity.
  - intros Hs Hna. rewrite Hc in Hcache.
    apply String.eqb_neq in Hna. rewrite Hna in Hcache. simpl in Hcache.
    rewrite Hcache, invalidate_store by assumption.
    pose proof Hs as Hs'. unfold id_safe in Hs'. apply andb_true_iff in Hs' as [Hgs _].
    split.
    + intros url. rewrite srv_del_lookup, glob_own_key by assumption. reflexivity.
    + intros v url Hv Hne. rewrite srv_del_lookup, glob_other_key by assumption.
      destruct (_ !! _); reflexivity.
Qed.

Lemma C3_invalidation_scope_witness :
  cc_test_mode gw_cache_cfg = false /\ glob_safe (cc_prefix gw_cache_cfg) = true /\
  is_get (mkRequest "POST" "/api/user/1" "/api/user/1" (Some "u1") JNull) = false /\
  cs_connected (gw_cache (gw0 {[ "api-gateway:u1:/api/user/1" := ("{}", 100%Z) ]} (fun _ => closed_breaker))) = true /\
  cs_client (gw_cache (gw0 {[ "api-gateway:u1:/api/user/1" := ("{}", 100%Z) ]} (fun _ => closed_breaker))) = true /\
  cs_server_up (gw_cache (gw0 {[ "api-gateway:u1:/api/user/1" := ("{}", 100%Z) ]} (fun _ => closed_breaker))) = true /\
  b_state (cs_breaker (gw_cache (gw0 {[ "api-gateway:u1:/api/user/1" := ("{}", 100%Z) ]} (fun _ => closed_breaker)))) = Closed /\
  let '(g', _, _) := forward_src gw_cache_cfg "http://localhost:3001" 0 UserSvc
                       (mkRequest "POST" "/api/user/1" "/api/user/1" (Some "u1") JNull)
                       (fun _ => Answer 200 JNull) []
                       (gw0 {[ "api-gateway:u1:/api/user/1" := ("{}", 100%Z) ]} (fun _ => closed_breaker)) in
  let u := user_id (Some "u1") in
  (u = "anonymous" -> cs_store (gw_cache g') =
     cs_store (gw_cache (gw0 {[ "api-gateway:u1:/api/user/1" := ("{}", 100%Z) ]} (fun _ => closed_breaker)))) /\
  (id_safe u = true -> u <> "anonymous" ->
    (forall url,
       cs_store (gw_cache g') !! (cc_prefix gw_cache_cfg +:+ u +:+ ":" +:+ url) =
       match cs_store (gw_cache (gw0 {[ "api-gateway:u1:/api/user/1" := ("{}", 100%Z) ]} (fun _ => closed_breaker)))
               !! (cc_prefix gw_cache_cfg +:+ u +:+ ":" +:+ url) with
       | Some e => if family_match UserSvc url && live 0 e then None else Some e
       | None => None
       end) /\
    (forall v url, id_safe v = true -> v <> u ->
       cs_store (gw_cache g') !! (cc_prefix gw_cache_cfg +:+ v +:+ ":" +:+ url) =
       cs_store (gw_cache (gw0 {[ "api-gateway:u1:/api/user/1" := ("{}", 100%Z) ]} (fun _ => closed_breaker)))
         !! (cc_prefix gw_cache_cfg +:+ v +:+ ":" +:+ url))).
Proof.
  do 7 (split; [reflexivity|]).
  exact (C3_invalidation_scope gw_cache_cfg "http://localhost:3001" 0 UserSvc
           (mkRequest "POST" "/api/user/1" "/api/user/1" (Some "u1") JNull)
           (fun _ => Answer 200 JNull) []
           (gw0 {[ "api-gateway:u1:/api/user/1" := ("{}", 100%Z) ]} (fun _ => closed_breaker))
           eq_refl eq_refl eq_refl eq_refl eq_refl eq_refl eq_refl).
Defined.

(** C3 counterexample: a [POST /api/user/1] by [u1] while the user
    breaker is OPEN is answered 503 (the fallback) and still removes
    [u1]'s cached entry; and a mutation by principal [a] removes the
    entries of principal [a:b]. *)
Lemma C3_invalidation_without_2xx :
  (let '(g', r, _) := forward_src gw_cache_cfg "http://localhost:3001" 0 UserSvc
                        (mkRequest "POST" "/api/user/1" "/api/user/1" (Some "u1") JNull)
                        (fun _ => Answer 200 JNull) []
                        (gw0 {[ "api-gateway:u1:/api/user/1" := ("{}", 100%Z) ]} (fun _ => open_breaker)) in
   cr_status r = 503%Z /\ cs_store (gw_cache g') !! "api-gateway:u1:/api/user/1" = None) /\
  (let '(g', r, _) := forward_src gw_cache_cfg "http://localhost:3001" 0 UserSvc
                        (mkRequest "POST" "/api/user/1" "/api/user/1" (Some "a") JNull)
                        (fun _ => Answer 200 JNull) []
                        (gw0 {[ "api-gateway:a:b:/api/user/1" := ("{}", 100%Z) ]} (fun _ => closed_breaker)) in
   cr_status r = 200%Z /\ cs_store (gw_cache g') !! "api-gateway:a:b:/api/user/1" = None).
Proof. vm_compute. repeat split. Qed.

(** ** The cache while disconnected *)

(** The Redis breaker's action reconnects first; when that fails, or the
    breaker rejects at once, the fallback's [null] is the result and the
    keyspace is untouched. *)
Lemma redis_fire_unreachable cfg cs op :
  cs_connected cs = false -> cc_test_mode cfg = false ->
  (cs_server_up cs = false \/ (b_state (cs_breaker cs) = Open /\ b_pending_close (cs_breaker cs) = false)) ->
  snd (redis_fire cfg cs op) = JNull /\ cs_store (fst (redis_fire cfg cs op)) = cs_store cs.
Proof.
  intros Hc Ht Hdown. destruct cs as [c cl [bs bp bf bfl bt] st up]; simpl in *; subst.
  unfold redis_fire, redis_connect. simpl. rewrite Ht.
  destruct Hdown as [-> | [-> ->]].
  - destruct bs, bp; simpl; split; reflexivity.
  - simpl. split; reflexivity.
Qed.

Lemma forward_src_cache_disconnected cfg su now s req answer hdrs g :
  cs_connected (gw_cache g) = false ->
  gw_cache (fst (fst (forward_src cfg su now s req answer hdrs g))) = gw_cache g.
Proof.
  intros Hc. destruct (service_fire_resolves retries_src (fallback_src s) (gw_breakers g s) answer)
    as [b' [r [n Hf]]].
  unfold forward_src. rewrite Hf. cbn [gw_cache set_breaker set_cache fst].
  rewrite Hc, andb_false_r. simpl. rewrite Hc, andb_false_r. reflexivity.
Qed.

(** ** C6 *)

(** C6 (amended): an operation of a [RedisCache] whose [connected] flag
    is false first tries to reconnect inside the Redis breaker.  In test
    mode get, set and invalidateByPattern return null, ['OK'] and 0.
    When the server is unreachable or the Redis breaker rejects, all
    three return the fallback's null (invalidateByPattern too, not 0),
    leave the keyspace as it was, and never fail.  When the server is
    reachable and the breaker closed, the reconnection succeeds and the
    operation reads, writes or deletes for real.  The [src/src]
    dispatcher itself performs no cache operation while [connected] is
    false. *)
Theorem C6_cache_when_disconnected :
  forall cfg now key v ttl pat cs,
    cs_connected cs = false ->
    (cc_test_mode cfg = true ->
       cache_get cfg now key cs = (cs, JNull) /\ cache_set cfg now key v ttl cs = (cs, JStr "OK") /\
       invalidate_by_pattern cfg now pat cs = (cs, JNum 0)) /\
    (cc_test_mode cfg = false ->
       (cs_server_up cs = false \/ (b_state (cs_breaker cs) = Open /\ b_pending_close (cs_breaker cs) = false)) ->
       snd (cache_get cfg now key cs) = JNull /\ cs_store (fst (cache_get cfg now key cs)) = cs_store cs /\
       snd (cache_set cfg now key v ttl cs) = JNull /\
       cs_store (fst (cache_set cfg now key v ttl cs)) = cs_store cs /\
       snd (invalidate_by_pattern cfg now pat cs) = JNull /\
       cs_store (fst (invalidate_by_pattern cfg now pat cs)) = cs_store cs) /\
    (cc_test_mode cfg = false -> cs_server_up cs = true -> b_state (cs_breaker cs) = Closed ->
       cs_connected (fst (cache_get cfg now key cs)) = true /\
       snd (cache_get cfg now key cs) = decode_cached (srv_get now (get_key cfg key) (cs_store cs)) /\
       (forall sv, set_payload v = Some sv ->
          cs_store (fst (cache_set cfg now key v ttl cs)) = srv_set now (get_key cfg key) sv ttl (cs_store cs)) /\
       cs_store (fst (invalidate_by_pattern cfg now pat cs)) =
         (srv_del_matching now (cc_prefix cfg +:+ pat) (cs_store cs)).1) /\
    (forall urls st rel req answer g, cs_connected (gw_cache g) = false ->
       gw_cache (fst (fst (proxy_request cfg urls now st rel req answer g))) = gw_cache g).
Proof.
  intros cfg now key v ttl pat cs Hc. split; [|split; [|split]].
  - intros Ht. unfold cache_get, cache_set, invalidate_by_pattern. rewrite Ht. repeat split.
  - intros Ht Hdown. unfold cache_get, cache_set, invalidate_by_pattern. rewrite Ht.
    destruct (redis_fire_unreachable cfg cs
      (fun cs1 => if negb (cs_connected cs1) || negb (cs_client cs1) then (Ok JNull, cs1)
                  else if negb (cs_server_up cs1) then (Err redis_down_error, cs1)
                  else (Ok (decode_cached (srv_get now (get_key cfg key) (cs_store cs1))), cs1))
      Hc Ht Hdown) as [H1 H2].
    destruct (redis_fire_unreachable cfg cs
      (fun cs1 => if negb (cs_connected cs1) || negb (cs_client cs1) then (Ok (JStr "OK"), cs1)
                  else match set_payload v with
                       | None => (Err invalid_arg_error, cs1)
                       | Some sv =>
                           if negb (cs_server_up cs1) then (Err redis_down_error, cs1)
                           else (Ok (JStr "OK"), set_store cs1 (srv_set now (get_key cfg key) sv ttl (cs_store cs1)))
                       end)
      Hc Ht Hdown) as [H3 H4].
    destruct (redis_fire_unreachable cfg cs
      (fun cs1 => if negb (cs_connected cs1) || negb (cs_client cs1) then (Ok (JNum 0), cs1)
                  else if negb (cs_server_up cs1) then (Err redis_down_error, cs1)
                  else let '(st', n) := srv_del_matching now (cc_prefix cfg +:+ pat) (cs_store cs1) in
                       (Ok (JNum (Z.of_nat n)), set_store cs1 st'))
      Hc Ht Hdown) as [H5 H6].
    repeat split; assumption.
  - intros Ht Hup Hb. destruct cs as [c cl [bs bp bf bfl bt] st up]; simpl in *; subst.
    unfold cache_get, cache_set, invalidate_by_pattern, redis_fire, redis_connect.
    rewrite Ht. simpl. rewrite ?Ht. simpl. split; [reflexivity|]. split; [reflexivity|]. split.
    + intros sv Hsv. rewrite Hsv. reflexivity.
    + destruct (srv_del_matching now (cc_prefix cfg +:+ pat) st) as [st' n]. reflexivity.
  - intros urls st rel req answer g Hg. unfold proxy_request.
    destruct st as [s|]; [|reflexivity].
    destruct (urls s) as [su|]; [|reflexivity].
    destruct (String.eqb su ""); [reflexivity|].
    rewrite Hg, andb_false_r. apply forward_src_cache_disconnected, Hg.
Qed.

Lemma C6_cache_when_disconnected_witness :
  cs_connected (mkCacheState false false closed_breaker ∅ true) = false /\
  (cc_test_mode gw_cache_cfg = true ->
     cache_get gw_cache_cfg 0 "k" (mkCacheState false false closed_breaker ∅ true)
       = (mkCacheState false false closed_breaker ∅ true, JNull) /\
     cache_set gw_cache_cfg 0 "k" (JNum 1) 60 (mkCacheState false false closed_breaker ∅ true)
       = (mkCacheState false false closed_breaker ∅ true, JStr "OK") /\
     invalidate_by_pattern gw_cache_cfg 0 "*" (mkCacheState false false closed_breaker ∅ true)
       = (mkCacheState false false closed_breaker ∅ true, JNum 0)) /\
  (cc_test_mode gw_cache_cfg = false ->
     (cs_server_up (mkCacheState false false closed_breaker ∅ true) = false \/
      (b_state (cs_breaker (mkCacheState false false closed_breaker ∅ true)) = Open /\
       b_pending_close (cs_breaker (mkCacheState false false closed_breaker ∅ true)) = false)) ->
     snd (cache_get gw_cache_cfg 0 "k" (mkCacheState false false closed_breaker ∅ true)) = JNull /\
     cs_store (fst (cache_get gw_cache_cfg 0 "k" (mkCacheState false false closed_breaker ∅ true)))
       = cs_store (mkCacheState false false closed_breaker ∅ true) /\
     snd (cache_set gw_cache_cfg 0 "k" (JNum 1) 60 (mkCacheState false false closed_breaker ∅ true)) = JNull /\
     cs_store (fst (cache_set gw_cache_cfg 0 "k" (JNum 1) 60 (mkCacheState false false closed_breaker ∅ true)))
       = cs_store (mkCacheState false false closed_breaker ∅ true) /\
     snd (invalidate_by_pattern gw_cache_cfg 0 "*" (mkCacheState false false closed_breaker ∅ true)) = JNull /\
     cs_store (fst (invalidate_by_pattern gw_cache_cfg 0 "*" (mkCacheState false false closed_breaker ∅ true)))
       = cs_store (mkCacheState false false closed_breaker ∅ true)) /\
  (cc_test_mode gw_cache_cfg = false -> cs_server_up (mkCacheState false false closed_breaker ∅ true) = true ->
     b_state (cs_breaker (mkCacheState false false closed_breaker ∅ true)) = Closed ->
     cs_connected (fst (cache_get gw_cache_cfg 0 "k" (mkCacheState false false closed_breaker ∅ true))) = true /\
     snd (cache_get gw_cache_cfg 0 "k" (mkCacheState false false closed_breaker ∅ true))
       = decode_cached (srv_get 0 (get_key gw_cache_cfg "k") (cs_store (mkCacheState false false closed_breaker ∅ true))) /\
     (forall sv, set_payload (JNum 1) = Some sv ->
        cs_store (fst (cache_set gw_cache_cfg 0 "k" (JNum 1) 60 (mkCacheState false false closed_breaker ∅ true)))
          = srv_set 0 (get_key gw_cache_cfg "k") sv 60 (cs_store (mkCacheState false false closed_breaker ∅ true))) /\
     cs_store (fst (invalidate_by_pattern gw_cache_cfg 0 "*" (mkCacheState false false closed_breaker ∅ true)))
       = (srv_del_matching 0 (cc_prefix gw_cache_cfg +:+ "*") (cs_store (mkCacheState false false closed_breaker ∅ true))).1) /\
  (forall urls st rel req answer g, cs_connected (gw_cache g) = false ->
     gw_cache (fst (fst (proxy_request gw_cache_cfg urls 0 st rel req answer g))) = gw_cache g).
Proof.
  split; [reflexivity|].
  exact (C6_cache_when_disconnected gw_cache_cfg 0 "k" (JNum 1) 60 "*"
           (mkCacheState false false closed_breaker ∅ true) eq_refl).
Defined.

(** C6 counterexample: with [connected] false and the server reachable,
    get reconnects and returns the stored value; with the server
    unreachable, invalidateByPattern returns null, not 0. *)
Lemma C6_disconnected_cache_not_a_noop :
  snd (cache_get gw_cache_cfg 0 "k"
         (mkCacheState false false closed_breaker {[ "api-gateway:k" := ("1", 100%Z) ]} true)) = JNum 1 /\
  snd (invalidate_by_pattern gw_cache_cfg 0 "*" (mkCacheState false false closed_breaker ∅ false)) = JNull.
Proof. vm_compute. split; reflexivity. Qed.

(** ** Cache lookups *)

(** A lookup on a connected cache yields null or the decoded stored
    value. *)
Lemma cache_get_connected cfg now key cs :
  cs_connected cs = true ->
  snd (cache_get cfg now key cs) = JNull \/
  snd (cache_get cfg now key cs) = decode_cached (srv_get now (get_key cfg key) (cs_store cs)).
Proof.
  intros Hc. unfold cache_get. destruct (cc_test_mode cfg); [left; reflexivity|].
  destruct cs as [c cl [bs bp bf bfl bt] st up]; simpl in *; subst.
  unfold redis_fire, opossum_fire. simpl.
  destruct bs, bp, cl, up; simpl; auto.
Qed.

(** A reachable cache with a closed breaker answers a lookup with the
    decoded stored value, and its breaker stays closed. *)
Lemma cache_set_up cfg now key v ttl sv bp bf bfl bt st :
  cc_test_mode cfg = false -> set_payload v = Some sv ->
  cache_set cfg now key v ttl (mkCacheState true true (mkBreaker Closed bp bf bfl bt) st true) =
    (mkCacheState true true (mkBreaker Closed false (S bf) bfl bt) (srv_set now (get_key cfg key) sv ttl st) true,
     JStr "OK").
Proof. intros Ht Hv. unfold cache_set. rewrite Ht. unfold redis_fire. simpl. rewrite Hv. reflexivity. Qed.

(** A falsy value written by [set] reads back falsy. *)
Lemma falsy_roundtrip v sv :
  truthy v = false -> set_payload v = Some sv -> truthy (decode_cached (Some sv)) = false.
Proof.
  intros Hf Hp. destruct v as [| b | n | s | xs | fs]; simpl in Hf, Hp.
  - injection Hp as <-. reflexivity.
  - discriminate.
  - apply negb_false_iff, Z.eqb_eq in Hf. subst n. injection Hp as <-. reflexivity.
  - apply negb_false_iff, String.eqb_eq in Hf. subst s. injection Hp as <-. reflexivity.
  - discriminate.
  - discriminate.
Qed.

Lemma forward_src_url cfg su now s req answer hdrs g :
  t_url (snd (forward_src cfg su now s req answer hdrs g)) = Some (backend_url_src su s (rq_original_url req)).
Proof.
  destruct (service_fire_resolves retries_src (fallback_src s) (gw_breakers g s) answer)
    as [b' [r [n Hf]]].
  unfold forward_src. rewrite Hf. reflexivity.
Qed.

Lemma forward_src_calls_closed cfg su now s req answer hdrs g :
  b_state (gw_breakers g s) = Closed ->
  (1 <= t_calls (snd (forward_src cfg su now s req answer hdrs g)))%nat.
Proof.
  intros Hc. unfold forward_src, service_fire, opossum_fire.
  destruct (gw_breakers g s) as [bs bp bf bfl bt]. simpl in Hc. subst bs. simpl.
  pose proof (retry_go_bounds retries_src 1 [] answer) as Hn. unfold async_retry.
  destruct (retry_go retries_src 1 [] answer) as [[r|e] n]; simpl in *; lia.
Qed.

(** ** C9 *)

(** C9: in the [src/src] gateway, when the entry under a GET request's
    cache key holds what [set] wrote for a falsy value (null, 0 or the
    empty string), the lookup counts as a miss: the response carries
    [X-Cache: MISS] and the request goes to [breaker.fire] with the
    backend URL, however recent the entry is; with the service's breaker
    closed, at least one backend call is made. *)
Theorem C9_falsy_cached_value_misses :
  forall cfg urls now s su rel req answer g v sv,
    urls s = Some su -> su <> "" -> is_get req = true -> cs_connected (gw_cache g) = true ->
    includes rel "/health" = false ->
    truthy v = false -> set_payload v = Some sv ->
    srv_get now (get_key cfg (cache_key (rq_user req) (rq_original_url req))) (cs_store (gw_cache g)) = Some sv ->
    let '(_, r, t) := proxy_request cfg urls now (Some s) rel req answer g in
    t_url t = Some (backend_url_src su s (rq_original_url req)) /\
    (b_state (gw_breakers g s) = Closed -> (1 <= t_calls t)%nat) /\
    exists rest, cr_headers r = ("X-Cache", "MISS") :: rest.
Proof.
  intros cfg urls now s su rel req answer g v sv Hu Hsu Hget Hc Hh Hf Hp Hst.
  unfold proxy_request. rewrite Hu.
  apply String.eqb_neq in Hsu. rewrite Hsu, Hget, Hc, Hh. simpl.
  assert (Hmiss : truthy (snd (cache_get cfg now (cache_key (rq_user req) (rq_original_url req)) (gw_cache g))) = false).
  { destruct (cache_get_connected cfg now (cache_key (rq_user req) (rq_original_url req)) (gw_cache g) Hc) as [H|H];
      rewrite H; [reflexivity|]. rewrite Hst. exact (falsy_roundtrip v sv Hf Hp). }
  destruct (cache_get cfg now (cache_key (rq_user req) (rq_original_url req)) (gw_cache g)) as [cs1 cached].
  simpl in Hmiss. rewrite Hmiss.
  pose proof (forward_src_url cfg su now s req answer [("X-Cache", "MISS")] (set_cache g cs1)) as Hurl.
  pose proof (forward_src_calls_closed cfg su now s req answer [("X-Cache", "MISS")] (set_cache g cs1)) as Hcalls.
  destruct (service_fire_resolves retries_src (fallback_src s) (gw_breakers (set_cache g cs1) s) answer)
    as [b' [r [n Hfire]]].
  pose proof (forward_resolved SrcGateway cfg su now s req answer [("X-Cache", "MISS")] (set_cache g cs1) b' r n Hfire)
    as Hres.
  change (forward_of SrcGateway) with forward_src in Hres.
  destruct (forward_src cfg su now s req answer [("X-Cache", "MISS")] (set_cache g cs1)) as [[g' resp] t].
  simpl in Hurl, Hcalls. destruct Hres as (_ & _ & _ & Hhd & _).
  split; [exact Hurl|]. split; [exact Hcalls|]. rewrite Hhd. eexists; reflexivity.
Qed.

Lemma C9_falsy_cached_value_misses_witness :
  registry_urls UserSvc = Some "http://localhost:3001" /\ "http://localhost:3001" <> "" /\
  is_get (get_req (Some "u1") "/api/user/1") = true /\
  cs_connected (gw_cache (gw0 {[ "api-gateway:u1:/api/user/1" := ("0", 100%Z) ]} (fun _ => closed_breaker))) = true /\
  includes "/1" "/health" = false /\ truthy (JNum 0) = false /\ set_payload (JNum 0) = Some "0" /\
  srv_get 0 (get_key gw_cache_cfg (cache_key (rq_user (get_req (Some "u1") "/api/user/1"))
                                      (rq_original_url (get_req (Some "u1") "/api/user/1"))))
    (cs_store (gw_cache (gw0 {[ "api-gateway:u1:/api/user/1" := ("0", 100%Z) ]} (fun _ => closed_breaker))))
    = Some "0" /\
  let '(_, r, t) := proxy_request gw_cache_cfg registry_urls 0 (Some UserSvc) "/1"
                      (get_req (Some "u1") "/api/user/1") (fun _ => Answer 200 (JNum 0))
                      (gw0 {[ "api-gateway:u1:/api/user/1" := ("0", 100%Z) ]} (fun _ => closed_breaker)) in
  t_url t = Some (backend_url_src "http://localhost:3001" UserSvc (rq_original_url (get_req (Some "u1") "/api/user/1"))) /\
  (b_state (gw_breakers (gw0 {[ "api-gateway:u1:/api/user/1" := ("0", 100%Z) ]} (fun _ => closed_breaker)) UserSvc)
     = Closed -> (1 <= t_calls t)%nat) /\
  exists rest, cr_headers r = ("X-Cache", "MISS") :: rest.
Proof.
  split; [reflexivity|]. split; [discriminate|].
  do 6 (split; [vm_compute; reflexivity|]).
  apply (C9_falsy_cached_value_misses gw_cache_cfg registry_urls 0 UserSvc "http://localhost:3001" "/1"
           (get_req (Some "u1") "/api/user/1") (fun _ => Answer 200 (JNum 0))
           (gw0 {[ "api-gateway:u1:/api/user/1" := ("0", 100%Z) ]} (fun _ => closed_breaker)) (JNum 0) "0");
    first [reflexivity | discriminate | vm_compute; reflexivity].
Defined.

(** ** Fallback bodies in the cache *)

Lemma fallback_json_roundtrip s :
  json_parse (json_stringify (fallback_body s)) = Some (fallback_body s).
Proof. destruct s; vm_compute; reflexivity. Qed.

Lemma srv_get_set now now2 k v ttl st :
  (now2 < now + ttl)%Z -> srv_get now2 k (srv_set now k v ttl st) = Some v.
Proof.
  intros H. unfold srv_get, srv_set. rewrite lookup_insert_eq. unfold live. simpl.
  replace (now2 <? now + ttl)%Z with true by (symmetry; apply Z.ltb_lt; exact H). reflexivity.
Qed.

Lemma decode_fallback s : decode_cached (Some (json_stringify (fallback_body s))) = fallback_body s.
Proof. destruct s; vm_compute; reflexivity. Qed.

Lemma truthy_fallback s : truthy (fallback_body s) = true.
Proof. destruct s; reflexivity. Qed.

Lemma fallback_header_fallback s : fallback_header (fallback_body s) = [("X-Fallback-Response", "true")].
Proof. destruct s; reflexivity. Qed.

Lemma set_payload_fallback s : set_payload (fallback_body s) = Some (json_stringify (fallback_body s)).
Proof. destruct s; reflexivity. Qed.

(** ** C10 *)

(** C10: in the legacy gateway, whose review and watchlist fallbacks
    carry status 200, a GET on such a service that misses the cache while
    the breaker is OPEN is answered 200 with the fallback body and the
    [X-Fallback-Response] marker, without a backend call; the fallback is
    stored under the request's cache key with the URL's TTL; and the same
    GET before that TTL runs out is a cache hit serving the fallback body
    with only [X-Cache: HIT], again without a backend call. *)
Theorem C10_fallback_cached_then_hit :
  forall cfg urls now now2 s su req answer answer2 g,
    (s = ReviewSvc \/ s = WatchlistSvc) ->
    legacy_route (rq_original_url req) = Some s -> urls s = Some su -> su <> "" ->
    is_get req = true -> cc_test_mode cfg = false ->
    cs_connected (gw_cache g) = true -> cs_client (gw_cache g) = true -> cs_server_up (gw_cache g) = true ->
    b_state (cs_breaker (gw_cache g)) = Closed ->
    b_state (gw_breakers g s) = Open -> b_pending_close (gw_breakers g s) = false ->
    srv_get now (get_key cfg (cache_key (rq_user req) (rq_original_url req))) (cs_store (gw_cache g)) = None ->
    (now <= now2 < now + ttl_legacy (rq_original_url req))%Z ->
    let '(g1, r1, t1) := legacy_handler cfg urls now req answer g in
    cr_status r1 = 200%Z /\ cr_body r1 = BodySend (fallback_body s) /\
    cr_headers r1 = [("X-Cache", "MISS"); ("X-Fallback-Response", "true")] /\ t_calls t1 = 0%nat /\
    cs_store (gw_cache g1) !! get_key cfg (cache_key (rq_user req) (rq_original_url req)) =
      Some (json_stringify (fallback_body s), (now + ttl_legacy (rq_original_url req))%Z) /\
    let '(_, r2, t2) := legacy_handler cfg urls now2 req answer2 g1 in
    r2 = mkClientResponse 200 [("X-Cache", "HIT")] (BodyJson (fallback_body s)) /\ t_calls t2 = 0%nat.
Proof.
  intros cfg urls now now2 s su req answer answer2 g Hs Hr Hu Hsu Hget Ht Hc Hcl Hup Hb Ho Hp Hmiss Hnow.
  destruct g as [[c cl [rs rp rf rfl rt] st up] brs]; simpl in *; subst c cl up rs.
  unfold legacy_handler. rewrite Hr, Hu. apply String.eqb_neq in Hsu. rewrite Hsu, Hget. simpl.
  rewrite cache_get_up by exact Ht. rewrite Hmiss. simpl.
  unfold forward_legacy, service_fire. simpl gw_breakers.
  rewrite (opossum_fire_open (brs s) _ _ _ Ho Hp). simpl.
  assert (Hfb : fallback_legacy s = mkResponse 200 (fallback_body s)) by (destruct Hs as [-> | ->]; reflexivity).
  rewrite Hfb, Hget. simpl.
  rewrite (cache_set_up cfg now _ _ _ _ _ _ _ _ _ Ht (set_payload_fallback s)). simpl.
  rewrite cache_get_up by exact Ht.
  rewrite srv_get_set by lia. rewrite decode_fallback, truthy_fallback, fallback_header_fallback.
  unfold srv_set. rewrite lookup_insert_eq. repeat split.
Qed.

Lemma C10_fallback_cached_then_hit_witness :
  (ReviewSvc = ReviewSvc \/ ReviewSvc = WatchlistSvc) /\
  legacy_route (rq_original_url (get_req (Some "u1") "/api/review/1")) = Some ReviewSvc /\
  registry_urls ReviewSvc = Some "http://localhost:3002" /\ "http://localhost:3002" <> "" /\
  is_get (get_req (Some "u1") "/api/review/1") = true /\ cc_test_mode gw_cache_cfg = false /\
  cs_connected (gw_cache (gw0 ∅ (fun _ => open_breaker))) = true /\
  cs_client (gw_cache (gw0 ∅ (fun _ => open_breaker))) = true /\
  cs_server_up (gw_cache (gw0 ∅ (fun _ => open_breaker))) = true /\
  b_state (cs_breaker (gw_cache (gw0 ∅ (fun _ => open_breaker)))) = Closed /\
  b_state (gw_breakers (gw0 ∅ (fun _ => open_breaker)) ReviewSvc) = Open /\
  b_pending_close (gw_breakers (gw0 ∅ (fun _ => open_breaker)) ReviewSvc) = false /\
  srv_get 0 (get_key gw_cache_cfg (cache_key (rq_user (get_req (Some "u1") "/api/review/1"))
                                      (rq_original_url (get_req (Some "u1") "/api/review/1"))))
    (cs_store (gw_cache (gw0 ∅ (fun _ => open_breaker)))) = None /\
  (0 <= 60 < 0 + ttl_legacy (rq_original_url (get_req (Some "u1") "/api/review/1")))%Z /\
  let '(g1, r1, t1) := legacy_handler gw_cache_cfg registry_urls 0 (get_req (Some "u1") "/api/review/1")
                         (fun _ => Answer 200 JNull) (gw0 ∅ (fun _ => open_breaker)) in
  cr_status r1 = 200%Z /\ cr_body r1 = BodySend (fallback_body ReviewSvc) /\
  cr_headers r1 = [("X-Cache", "MISS"); ("X-Fallback-Response", "true")] /\ t_calls t1 = 0%nat /\
  cs_store (gw_cache g1) !! get_key gw_cache_cfg (cache_key (rq_user (get_req (Some "u1") "/api/review/1"))
                                                   (rq_original_url (get_req (Some "u1") "/api/review/1"))) =
    Some (json_stringify (fallback_body ReviewSvc),
          (0 + ttl_legacy (rq_original_url (get_req (Some "u1") "/api/review/1")))%Z) /\
  let '(_, r2, t2) := legacy_handler gw_cache_cfg registry_urls 60 (get_req (Some "u1") "/api/review/1")
                        (fun _ => Answer 200 JNull) g1 in
  r2 = mkClientResponse 200 [("X-Cache", "HIT")] (BodyJson (fallback_body ReviewSvc)) /\ t_calls t2 = 0%nat.
Proof.
  split; [left; reflexivity|]. split; [reflexivity|]. split; [reflexivity|]. split; [discriminate|].
  do 8 (split; [reflexivity|]). split; [vm_compute; reflexivity|].
  split; [replace (ttl_legacy _) with 900%Z by reflexivity; lia|].
  apply (C10_fallback_cached_then_hit gw_cache_cfg registry_urls 0 60 ReviewSvc "http://localhost:3002"
           (get_req (Some "u1") "/api/review/1") (fun _ => Answer 200 JNull) (fun _ => Answer 200 JNull)
           (gw0 ∅ (fun _ => open_breaker)));
    first [left; reflexivity | reflexivity | discriminate | vm_compute; reflexivity
          | replace (ttl_legacy _) with 900%Z by reflexivity; lia].
Defined.

(* ================================================================= *)
(** ** The rest of [RedisCache] *)

(** [invalidateUserCache(u)] on a reachable cache with a closed breaker
    removes every live entry cached for [u], whatever its URL, and keeps
    the entries of every other glob-safe, colon-free principal. *)
Theorem invalidate_user_cache_scope cfg now u bp bf bfl bt st :
  cc_test_mode cfg = false -> glob_safe (cc_prefix cfg) = true -> id_safe u = true ->
  let st' := cs_store (fst (invalidate_user_cache cfg now u
                              (mkCacheState true true (mkBreaker Closed bp bf bfl bt) st true))) in
  (forall url, st' !! get_key cfg (u +:+ ":" +:+ url) =
     match st !! get_key cfg (u +:+ ":" +:+ url) with
     | Some e => if live now e then None else Some e
     | None => None
     end) /\
  (forall v url, id_safe v = true -> v <> u ->
     st' !! get_key cfg (v +:+ ":" +:+ url) = st !! get_key cfg (v +:+ ":" +:+ url)).
Proof.
  intros Ht Hp Hu st'. subst st'. unfold invalidate_user_cache. rewrite Ht.
  change (u +:+ ":*") with (invalidation_pattern_src UserSvc u).
  rewrite (invalidate_store cfg now _ (mkCacheState true true (mkBreaker Closed bp bf bfl bt) st true)
            Ht eq_refl eq_refl eq_refl eq_refl). cbn [cs_store].
  assert (Hg : glob_safe u = true) by (unfold id_safe in Hu; apply andb_true_iff in Hu; tauto).
  split.
  - intros url. rewrite srv_del_lookup. unfold get_key.
    rewrite glob_own_key by assumption. reflexivity.
  - intros v url Hv Hne. rewrite srv_del_lookup. unfold get_key.
    rewrite glob_other_key by assumption.
    destruct (st !! _); reflexivity.
Qed.

Lemma cache_del_up cfg now key bp bf bfl bt st :
  cc_test_mode cfg = false ->
  cache_del cfg now key (mkCacheState true true (mkBreaker Closed bp bf bfl bt) st true) =
    (mkCacheState true true (mkBreaker Closed false (S bf) bfl bt) (delete (get_key cfg key) st) true,
     JNum (Z.of_nat (srv_del now (get_key cfg key) st).2)).
Proof. intros Ht. unfold cache_del. rewrite Ht. reflexivity. Qed.

Lemma cache_flush_up cfg bp bf bfl bt st :
  cc_test_mode cfg = false ->
  cache_flush cfg (mkCacheState true true (mkBreaker Closed bp bf bfl bt) st true) =
    (mkCacheState true true (mkBreaker Closed false (S bf) bfl bt) ∅ true, JStr "OK").
Proof. intros Ht. unfold cache_flush. rewrite Ht. reflexivity. Qed.

(** [del(key)] on a reachable cache with a closed breaker replies 1 when
    the key was live and 0 otherwise, the next [get(key)] misses, and no
    other key of the keyspace changes. *)
Theorem cache_del_removes cfg now now2 key bp bf bfl bt st :
  cc_test_mode cfg = false ->
  let '(cs', r) := cache_del cfg now key (mkCacheState true true (mkBreaker Closed bp bf bfl bt) st true) in
  r = JNum (match srv_get now (get_key cfg key) st with Some _ => 1 | None => 0 end) /\
  snd (cache_get cfg now2 key cs') = JNull /\
  (forall k, k <> get_key cfg key -> cs_store cs' !! k = st !! k).
Proof.
  intros Ht. rewrite cache_del_up by exact Ht.
  rewrite cache_get_up by exact Ht. cbn [snd cs_store].
  split; [unfold srv_del; cbn [snd]; destruct (srv_get now (get_key cfg key) st); reflexivity|].
  split.
  - unfold srv_get. rewrite lookup_delete_eq. reflexivity.
  - intros k Hk. apply lookup_delete_ne. congruence.
Qed.

(** [flush()] on a reachable cache with a closed breaker replies ['OK']
    and empties the whole keyspace, keys outside the cache's prefix
    included; every later [get] misses. *)
Theorem cache_flush_empties cfg bp bf bfl bt st :
  cc_test_mode cfg = false ->
  let '(cs', r) := cache_flush cfg (mkCacheState true true (mkBreaker Closed bp bf bfl bt) st true) in
  r = JStr "OK" /\ cs_store cs' = ∅ /\ forall now key, snd (cache_get cfg now key cs') = JNull.
Proof.
  intros Ht. rewrite cache_flush_up by exact Ht.
  split; [reflexivity|]. split; [reflexivity|].
  intros now key. rewrite cache_get_up by exact Ht. cbn [snd].
  unfold srv_get. rewrite lookup_empty. reflexivity.
Qed.

(** A [get] on a cache whose [connected] flag is clear, while the
    server is up and the breaker closed, reconnects and reads. *)
Lemma cache_get_reconnect cfg now key cl bp bf bfl bt st :
  cc_test_mode cfg = false ->
  cache_get cfg now key (mkCacheState false cl (mkBreaker Closed bp bf bfl bt) st true) =
    (mkCacheState true true (mkBreaker Closed false (S bf) bfl bt) st true,
     decode_cached (srv_get now (get_key cfg key) st)).
Proof. intros Ht. unfold cache_get, redis_fire, redis_connect. rewrite Ht. reflexivity. Qed.

(** [close()] on a connected cache whose server is up and whose Redis
    breaker is closed resolves and clears [connected]; a later [get]
    reconnects through the Redis breaker and reads the same value as
    without the [close]. *)
Theorem cache_close_then_get cfg now key bp bf bfl bt st :
  cc_test_mode cfg = false ->
  let cs := mkCacheState true true (mkBreaker Closed bp bf bfl bt) st true in
  let '(o, cs1) := cache_close cs in
  o = Ok tt /\ cs_connected cs1 = false /\
  let '(cs2, v) := cache_get cfg now key cs1 in
  cs_connected cs2 = true /\ v = snd (cache_get cfg now key cs).
Proof.
  intros Ht cs. subst cs. rewrite cache_get_up by exact Ht.
  unfold cache_close. cbn [cs_client cs_connected cs_server_up andb set_conn cs_breaker cs_store].
  split; [reflexivity|]. split; [reflexivity|].
  unfold set_conn. cbn [cs_breaker cs_store cs_server_up].
  rewrite cache_get_reconnect by exact Ht. split; reflexivity.
Qed.

(** ** [cacheMiddleware] *)

(** The middleware's key agrees with the dispatcher's cache key for
    every principal except the id ['anonymous'], which the middleware
    keys as [anonymous:url] and the dispatcher as the bare URL. *)
Theorem middleware_key_vs_cache_key u url :
  middleware_key u url = cache_key u url <-> u <> Some "anonymous".
Proof.
  destruct u as [id|]; unfold middleware_key, cache_key, user_id.
  - destruct (String.eqb id "") eqn:E.
    + apply String.eqb_eq in E. subst id. cbn. split; [intros _; discriminate | reflexivity].
    + destruct (String.eqb id "anonymous") eqn:A.
      * apply String.eqb_eq in A. subst id. split.
        -- intros H. exfalso. revert H. apply str_app_not_self. discriminate.
        -- intros H. exfalso. apply H. reflexivity.
      * split; [|reflexivity]. intros _ H. injection H as ->. discriminate.
  - split; [intros _; discriminate | reflexivity].
Qed.


(** ** Authentication *)

(** An Authorization header whose first word is [Bearer] but which
    carries no token (['Bearer'], ['Bearer '], ['Bearer  x']) makes
    [getToken] ignore a [?token=] query parameter, so [authMiddleware]
    skips express-jwt.  Without the header [getToken] returns the query
    token and express-jwt is run, but it reads the Authorization header
    only: it fails with [credentials_required], which [authMiddleware]
    logs before calling [next()]; the query token is never checked. *)
Theorem bare_bearer_skips_query_token verify p h t :
  auth_public p = false -> t <> "" ->
  nth_error (split_on " " h) 0 = Some "Bearer" ->
  token_truthy (nth_error (split_on " " h) 1) = false ->
  snd (auth_middleware (express_jwt verify) (mkAuthRequest p (Some h) (Some t))) = false /\
  get_token (mkAuthRequest p None (Some t)) = Some t /\
  auth_middleware (express_jwt verify) (mkAuthRequest p None (Some t)) = (MwContinue, true) /\
  express_jwt verify (mkAuthRequest p None (Some t)) = Some credentials_required.
Proof.
  intros Hp Ht H0 H1. unfold auth_middleware, get_token. cbn [ar_path ar_authorization ar_query_token].
  rewrite Hp. cbn [negb].
  destruct (String.eqb h "") eqn:E.
  { apply String.eqb_eq in E. subst h. discriminate. }
  rewrite H0. cbn [negb andb]. rewrite String.eqb_refl.
  apply String.eqb_neq in Ht. rewrite Ht.
  split; [rewrite H1; reflexivity|].
  split; [reflexivity|].
  split; [cbn; rewrite Ht; reflexivity | reflexivity].
Qed.

(** The authentication stage never stops a request: [authMiddleware]
    always calls [next()] without an error, so [handleJwtError]'s 401 is
    never reached, whatever the JWT check decides; the check runs exactly
    on a non-public path with a truthy [getToken]. *)
Theorem auth_stage_never_blocks jwt req :
  auth_stage jwt req = MwContinue /\
  snd (auth_middleware jwt req) = negb (auth_public (ar_path req)) && token_truthy (get_token req).
Proof.
  unfold auth_stage, auth_middleware.
  destruct (auth_public (ar_path req)); [split; reflexivity|].
  destruct (token_truthy (get_token req)); [|split; reflexivity].
  destruct (jwt req); split; reflexivity.
Qed.

(** ** [getDetailedHealth] *)

Lemma service_eqb_eq a b : service_eqb a b = true <-> a = b.
Proof. destruct a, b; cbn; split; intros; congruence. Qed.

Lemma health_probes_spec urls answers ss g :
  List.NoDup ss ->
  let '(g', entries, calls) := health_probes urls answers ss g in
  entries = map (fun s => (service_name s,
               health_entry (snd (fst (service_fire retries_src (fallback_src s) (gw_breakers g s) (answers s)))))) ss /\
  calls = map (fun s => (urls s +:+ "/health",
               snd (service_fire retries_src (fallback_src s) (gw_breakers g s) (answers s)))) ss /\
  gw_cache g' = gw_cache g /\
  forall s, gw_breakers g' s =
    if existsb (service_eqb s) ss
    then fst (fst (service_fire retries_src (fallback_src s) (gw_breakers g s) (answers s)))
    else gw_breakers g s.
Proof.
  revert g. induction ss as [|s0 ss IH]; intros g Hnd.
  - cbn. repeat split.
  - apply NoDup_cons_iff in Hnd as [Hnin Hnd']. cbn [health_probes].
    destruct (service_fire retries_src (fallback_src s0) (gw_breakers g s0) (answers s0))
      as [[b' o] n] eqn:Ef.
    specialize (IH (set_breaker g s0 b') Hnd').
    destruct (health_probes urls answers ss (set_breaker g s0 b')) as [[g2 entries] calls].
    destruct IH as (He & Hc & Hcache & Hb).
    assert (Hsame : forall s, In s ss -> gw_breakers (set_breaker g s0 b') s = gw_breakers g s).
    { intros s Hin. unfold set_breaker. cbn [gw_breakers]. destruct (service_eqb s0 s) eqn:E; [|reflexivity].
      apply service_eqb_eq in E. subst. contradiction. }
    assert (Hno : existsb (service_eqb s0) ss = false).
    { apply not_true_iff_false. intros H. apply existsb_exists in H as [x [Hx Hxe]].
      apply service_eqb_eq in Hxe. subst. contradiction. }
    split; [|split; [|split]].
    + cbn [map]. rewrite Ef. cbn [fst snd]. f_equal. rewrite He.
      apply map_ext_in. intros s Hin. rewrite Hsame by exact Hin. reflexivity.
    + cbn [map]. rewrite Ef. cbn [fst snd]. f_equal. rewrite Hc.
      apply map_ext_in. intros s Hin. rewrite Hsame by exact Hin. reflexivity.
    + rewrite Hcache. reflexivity.
    + intros s. rewrite Hb. cbn [existsb]. destruct (service_eqb s s0) eqn:E.
      * apply service_eqb_eq in E. subst s. rewrite Hno, Ef. apply set_breaker_same.
      * cbn [orb]. destruct (existsb (service_eqb s) ss) eqn:Ex.
        -- apply existsb_exists in Ex as [x [Hx Hxe]]. apply service_eqb_eq in Hxe. subst x.
           rewrite Hsame by exact Hx. reflexivity.
        -- unfold set_breaker. cbn [gw_breakers]. destruct (service_eqb s0 s) eqn:E'; [|reflexivity].
           apply service_eqb_eq in E'. subst. rewrite service_eqb_refl in E. discriminate.
Qed.

Lemma health_services_nodup : List.NoDup health_services.
Proof. repeat constructor; cbn; intuition discriminate. Qed.

Lemma health_services_all s : In s health_services.
Proof. destruct s; cbn; auto. Qed.

Lemma existsb_health_services s : existsb (service_eqb s) health_services = true.
Proof. apply existsb_exists. exists s. split; [apply health_services_all | apply service_eqb_refl]. Qed.

Lemma entry_up_health_entry o :
  entry_up (health_entry o) = match o with Ok r => Z.eqb (r_status r) 200 | Err _ => false end.
Proof. destruct o as [r|e]; [cbn; destruct (Z.eqb (r_status r) 200); reflexivity | reflexivity]. Qed.

Lemma body_field_health (b : bool) ts entries :
  let r := mkClientResponse 200 []
             (BodyJson (JObj [("status", JStr (if b then "UP" else "DEGRADED"));
                              ("service", JStr "api-gateway");
                              ("timestamp", JStr ts);
                              ("services", JObj entries)])) in
  body_field r "status" = Some (JStr (if b then "UP" else "DEGRADED")) /\
  body_field r "services" = Some (JObj entries).
Proof. split; reflexivity. Qed.

(** [getDetailedHealth] always answers 200 and leaves the cache alone;
    it reports ['UP'] exactly when every service's breaker call resolved
    with status 200, and ['DEGRADED'] otherwise. *)
Theorem detailed_health_status urls answers ts g :
  let '(g', r, calls) := detailed_health urls answers ts g in
  cr_status r = 200%Z /\ gw_cache g' = gw_cache g /\
  (body_field r "status" = Some (JStr "UP") <->
   forall s, exists b' resp n,
     service_fire retries_src (fallback_src s) (gw_breakers g s) (answers s) = (b', Ok resp, n) /\
     r_status resp = 200%Z) /\
  (body_field r "status" = Some (JStr "UP") \/ body_field r "status" = Some (JStr "DEGRADED")).
Proof.
  unfold detailed_health.
  pose proof (health_probes_spec urls answers health_services g health_services_nodup) as Hs.
  destruct (health_probes urls answers health_services g) as [[g' entries] calls].
  destruct Hs as (He & _ & Hcache & _). subst entries.
  match goal with |- context [forallb ?f ?l] => set (b := forallb f l) end.
  destruct (body_field_health b ts (map (fun s => (service_name s,
               health_entry (snd (fst (service_fire retries_src (fallback_src s) (gw_breakers g s) (answers s))))))
               health_services)) as [Hst _].
  cbn zeta in Hst. rewrite Hst.
  split; [reflexivity|]. split; [exact Hcache|].
  split; [|destruct b; auto].
  destruct (service_fire_resolves retries_src (fallback_src UserSvc) (gw_breakers g UserSvc) (answers UserSvc))
    as (b1 & r1 & n1 & E1).
  destruct (service_fire_resolves retries_src (fallback_src ReviewSvc) (gw_breakers g ReviewSvc) (answers ReviewSvc))
    as (b2 & r2 & n2 & E2).
  destruct (service_fire_resolves retries_src (fallback_src WatchlistSvc) (gw_breakers g WatchlistSvc)
              (answers WatchlistSvc)) as (b3 & r3 & n3 & E3).
  subst b. cbn [health_services map forallb snd]. rewrite E1, E2, E3. cbn [fst snd].
  rewrite !entry_up_health_entry.
  destruct (Z.eqb (r_status r1) 200) eqn:Q1, (Z.eqb (r_status r2) 200) eqn:Q2,
           (Z.eqb (r_status r3) 200) eqn:Q3; cbn [andb].
  1: { split; [|reflexivity]. intros _ s. apply Z.eqb_eq in Q1, Q2, Q3.
       destruct s; do 3 eexists; split; first [eassumption | assumption]. }
  all: split; [intros H; discriminate H|].
  all: intros H; exfalso.
  all: first [ destruct (H UserSvc) as (? & ? & ? & Ea & Hs); rewrite E1 in Ea;
               injection Ea as <- <- <-; apply Z.eqb_neq in Q1; contradiction
             | destruct (H ReviewSvc) as (? & ? & ? & Ea & Hs); rewrite E2 in Ea;
               injection Ea as <- <- <-; apply Z.eqb_neq in Q2; contradiction
             | destruct (H WatchlistSvc) as (? & ? & ? & Ea & Hs); rewrite E3 in Ea;
               injection Ea as <- <- <-; apply Z.eqb_neq in Q3; contradiction ].
Qed.

(** A service whose breaker call resolves with its fallback is listed
    DOWN with the fallback as details, and the report is DEGRADED. *)
Lemma detailed_health_down urls answers ts g s b' n :
  service_fire retries_src (fallback_src s) (gw_breakers g s) (answers s) = (b', Ok (fallback_src s), n) ->
  let '(g', r, calls) := detailed_health urls answers ts g in
  body_field r "status" = Some (JStr "DEGRADED") /\
  (exists entries, body_field r "services" = Some (JObj entries) /\
     In (service_name s, JObj [("status", JStr "DOWN"); ("details", fallback_body s)]) entries) /\
  In (urls s +:+ "/health", n) calls /\ gw_breakers g' s = b'.
Proof.
  intros Hf. unfold detailed_health.
  pose proof (health_probes_spec urls answers health_services g health_services_nodup) as Hs.
  destruct (health_probes urls answers health_services g) as [[g' entries] calls].
  destruct Hs as (He & Hc & _ & Hb). subst entries calls.
  match goal with |- context [forallb ?f ?l] => set (b := forallb f l) end.
  assert (Hbf : b = false).
  { subst b. apply not_true_iff_false. intros H. rewrite forallb_forall in H.
    specialize (H _ (in_map (fun s => (service_name s,
               health_entry (snd (fst (service_fire retries_src (fallback_src s) (gw_breakers g s) (answers s))))))
               _ _ (health_services_all s))).
    rewrite Hf in H. discriminate H. }
  destruct (body_field_health b ts (map (fun s => (service_name s,
               health_entry (snd (fst (service_fire retries_src (fallback_src s) (gw_breakers g s) (answers s))))))
               health_services)) as [Hst Hsv].
  cbn zeta in Hst, Hsv. rewrite Hst, Hsv, Hbf.
  split; [reflexivity|]. split; [|split].
  - eexists. split; [reflexivity|].
    change (JObj [("status", JStr "DOWN"); ("details", fallback_body s)])
      with (health_entry (snd (fst (b', @Ok response gw_error (fallback_src s), n)))).
    rewrite <- Hf.
    exact (in_map (fun s => (service_name s,
               health_entry (snd (fst (service_fire retries_src (fallback_src s) (gw_breakers g s) (answers s))))))
               _ _ (health_services_all s)).
  - change n with (snd (b', @Ok response gw_error (fallback_src s), n)). rewrite <- Hf.
    exact (in_map (fun s => (urls s +:+ "/health",
               snd (service_fire retries_src (fallback_src s) (gw_breakers g s) (answers s))))
               _ _ (health_services_all s)).
  - rewrite Hb, existsb_health_services, Hf. reflexivity.
Qed.

(** The health probes go through the breakers the proxy uses: a
    service whose backend fails every attempt is reported DOWN with its
    503 fallback as details, its retry makes [1 + retries] calls to
    [`${url}/health`] in all, the report is DEGRADED, and the service's
    breaker counts one more failure.  (The breaker's timer may fire
    before the retry settles; its failure and fallback are the same.) *)
Theorem detailed_health_failing_probe urls answers ts g s :
  b_state (gw_breakers g s) = Closed ->
  (forall k, (1 <= k <= 1 + retries_src)%nat -> is_retryable (answers s k) = true) ->
  let '(g', r, calls) := detailed_health urls answers ts g in
  body_field r "status" = Some (JStr "DEGRADED") /\
  (exists entries, body_field r "services" = Some (JObj entries) /\
     In (service_name s, JObj [("status", JStr "DOWN"); ("details", fallback_body s)]) entries) /\
  In (urls s +:+ "/health", S retries_src) calls /\
  b_failures (gw_breakers g' s) = S (b_failures (gw_breakers g s)).
Proof.
  intros Hc Hall.
  destruct (retry_go_all_thrown retries_src 1 [] (answers s)) as [Hn [e [He _]]].
  { intros k Hk. apply Hall. lia. }
  assert (Hrun : async_retry retries_src (answers s) = (Err e, S retries_src)).
  { unfold async_retry. destruct (retry_go retries_src 1 [] (answers s)) as [o n].
    cbn in Hn, He. subst. reflexivity. }
  pose proof (opossum_fire_run_err (gw_breakers g s) (Some (fallback_src s))
                (fun _ => async_retry retries_src (answers s)) 0%nat (S retries_src) e
                (or_introl Hc) Hrun) as Hf.
  change (opossum_fire (gw_breakers g s) (Some (fallback_src s))
            (fun _ => async_retry retries_src (answers s)) 0%nat)
    with (service_fire retries_src (fallback_src s) (gw_breakers g s) (answers s)) in Hf.
  pose proof (detailed_health_down urls answers ts g s _ _ Hf) as Hd.
  destruct (detailed_health urls answers ts g) as [[g' r] calls].
  destruct Hd as (H1 & H2 & H3 & H4). split; [exact H1|]. split; [exact H2|]. split; [exact H3|].
  rewrite H4, breaker_fail_failures. reflexivity.
Qed.

(** A service whose breaker is open is reported DOWN with its 503
    fallback as details without any call to its backend, the report is
    DEGRADED, and the breaker stays open. *)
Theorem detailed_health_open_breaker urls answers ts g s :
  b_state (gw_breakers g s) = Open -> b_pending_close (gw_breakers g s) = false ->
  let '(g', r, calls) := detailed_health urls answers ts g in
  body_field r "status" = Some (JStr "DEGRADED") /\
  (exists entries, body_field r "services" = Some (JObj entries) /\
     In (service_name s, JObj [("status", JStr "DOWN"); ("details", fallback_body s)]) entries) /\
  In (urls s +:+ "/health", 0%nat) calls /\ b_state (gw_breakers g' s) = Open.
Proof.
  intros Ho Hp.
  pose proof (opossum_fire_open (gw_breakers g s) (Some (fallback_src s))
                (fun _ => async_retry retries_src (answers s)) 0%nat Ho Hp) as Hf.
  change (opossum_fire (gw_breakers g s) (Some (fallback_src s))
            (fun _ => async_retry retries_src (answers s)) 0%nat)
    with (service_fire retries_src (fallback_src s) (gw_breakers g s) (answers s)) in Hf.
  pose proof (detailed_health_down urls answers ts g s _ _ Hf) as Hd.
  destruct (detailed_health urls answers ts g) as [[g' r] calls].
  destruct Hd as (H1 & H2 & H3 & H4). split; [exact H1|]. split; [exact H2|]. split; [exact H3|].
  rewrite H4. reflexivity.
Qed.

(** ** The service registry *)

Lemma reg_lookup_set m p u q :
  reg_lookup (reg_set m p u) q = if String.eqb p q then Some u else reg_lookup m q.
Proof.
  induction m as [|[k v] m IH]; cbn [reg_set reg_lookup].
  - destruct (String.eqb p q); reflexivity.
  - destruct (String.eqb k p) eqn:E.
    + apply String.eqb_eq in E. subst k. cbn [reg_lookup].
      destruct (String.eqb p q); reflexivity.
    + cbn [reg_lookup]. destruct (String.eqb k q) eqn:E2; [|exact IH].
      apply String.eqb_eq in E2. subst k.
      destruct (String.eqb p q) eqn:E3; [|reflexivity].
      apply String.eqb_eq in E3. subst. rewrite String.eqb_refl in E. discriminate.
Qed.

Lemma reg_set_keys m p u :
  map fst (reg_set m p u) =
    (if existsb (String.eqb p) (map fst m) then map fst m else map fst m ++ [p])%list.
Proof.
  induction m as [|[k v] m IH]; cbn [reg_set map fst existsb]; [reflexivity|].
  destruct (String.eqb k p) eqn:E.
  - apply String.eqb_eq in E. subst k. rewrite String.eqb_refl. reflexivity.
  - rewrite (String.eqb_sym p k), E. cbn [orb map fst]. rewrite IH.
    destruct (existsb (String.eqb p) (map fst m)); reflexivity.
Qed.

Lemma reg_delete_keys_in m p x : In x (map fst (reg_delete m p)) -> In x (map fst m).
Proof.
  induction m as [|[k v] m IH]; cbn [reg_delete]; [auto|].
  destruct (String.eqb k p); cbn [map fst In]; [auto|]. intros [H|H]; auto.
Qed.

Lemma reg_delete_nodup m p : List.NoDup (map fst m) -> List.NoDup (map fst (reg_delete m p)).
Proof.
  induction m as [|[k v] m IH]; cbn [reg_delete map fst]; [auto|].
  intros Hnd. apply NoDup_cons_iff in Hnd as [Hn Hnd].
  destruct (String.eqb k p); [exact Hnd|]. cbn [map fst].
  constructor; [|auto]. intros H. apply Hn. eapply reg_delete_keys_in. exact H.
Qed.

Lemma reg_lookup_none_keys m p : reg_lookup m p = None <-> ~ In p (map fst m).
Proof.
  induction m as [|[k v] m IH]; cbn [reg_lookup map fst In]; [tauto|].
  destruct (String.eqb k p) eqn:E.
  - apply String.eqb_eq in E. split; [discriminate | tauto].
  - apply String.eqb_neq in E. rewrite IH. tauto.
Qed.

Lemma reg_lookup_delete_eq m p : List.NoDup (map fst m) -> reg_lookup (reg_delete m p) p = None.
Proof.
  induction m as [|[k v] m IH]; cbn [reg_delete]; [reflexivity|].
  intros Hnd. apply NoDup_cons_iff in Hnd as [Hn Hnd].
  destruct (String.eqb k p) eqn:E.
  - apply String.eqb_eq in E. subst k. apply reg_lookup_none_keys. exact Hn.
  - cbn [reg_lookup]. rewrite E. auto.
Qed.

Lemma reg_lookup_delete_ne m p q : q <> p -> reg_lookup (reg_delete m p) q = reg_lookup m q.
Proof.
  intros Hqp. induction m as [|[k v] m IH]; cbn [reg_delete]; [reflexivity|].
  destruct (String.eqb k p) eqn:E.
  - apply String.eqb_eq in E. subst k. cbn [reg_lookup].
    destruct (String.eqb p q) eqn:E2; [apply String.eqb_eq in E2; congruence | reflexivity].
  - cbn [reg_lookup]. destruct (String.eqb k q); [reflexivity | exact IH].
Qed.

Lemma reg_delete_absent m p : reg_lookup m p = None -> reg_delete m p = m.
Proof.
  induction m as [|[k v] m IH]; cbn [reg_delete reg_lookup]; [reflexivity|].
  destruct (String.eqb k p); [discriminate|]. intros H. f_equal. auto.
Qed.

Lemma insert_by_index_perm p ks : Permutation (insert_by_index p ks) (p :: ks).
Proof.
  induction ks as [|k ks IH]; cbn [insert_by_index]; [reflexivity|].
  destruct (index_value k <? index_value p)%Z; [|reflexivity].
  eapply perm_trans; [apply perm_skip, IH | apply perm_swap].
Qed.

Lemma sort_indices_perm ks : Permutation (fold_right insert_by_index [] ks) ks.
Proof.
  induction ks as [|k ks IH]; [constructor|]. cbn [fold_right].
  eapply perm_trans; [apply insert_by_index_perm | apply perm_skip, IH].
Qed.

Lemma filter_split_perm (f : string -> bool) ks :
  Permutation (List.filter f ks ++ List.filter (fun p => negb (f p)) ks) ks.
Proof.
  induction ks as [|k ks IH]; [constructor|]. cbn [List.filter].
  destruct (f k); cbn [negb].
  - cbn [app]. apply perm_skip, IH.
  - eapply perm_trans; [apply Permutation_sym, Permutation_middle | apply perm_skip, IH].
Qed.

(** [Object.keys] lists each own key once. *)
Lemma object_keys_perm ks : Permutation (object_keys ks) ks.
Proof.
  unfold object_keys.
  eapply perm_trans; [apply Permutation_app_tail, sort_indices_perm | apply filter_split_perm].
Qed.

Lemma get_service_paths_nodup m : List.NoDup (get_service_paths m) <-> List.NoDup (map fst m).
Proof.
  unfold get_service_paths. split; apply Permutation_NoDup;
    [| apply Permutation_sym]; apply object_keys_perm.
Qed.

Lemma existsb_object_keys p ks : existsb (String.eqb p) (object_keys ks) = existsb (String.eqb p) ks.
Proof.
  apply eq_true_iff_eq. rewrite !existsb_exists.
  split; intros [x [Hx He]]; exists x; (split; [|exact He]).
  - eapply Permutation_in; [apply object_keys_perm | exact Hx].
  - eapply Permutation_in; [apply Permutation_sym, object_keys_perm | exact Hx].
Qed.

Lemma object_keys_app_non_index ks p :
  is_array_index p = false -> object_keys (ks ++ [p]) = (object_keys ks ++ [p])%list.
Proof.
  intros Hp. unfold object_keys. rewrite !List.filter_app. cbn [List.filter]. rewrite Hp.
  cbn [negb]. rewrite app_nil_r, app_assoc. reflexivity.
Qed.

(** What [removeService] does to an own, non-inherited key. *)
Lemma remove_service_own m p :
  List.NoDup (get_service_paths m) -> is_inherited p = false ->
  snd (remove_service m p) = match reg_lookup m p with Some u => negb (String.eqb u "") | None => false end /\
  reg_lookup (fst (remove_service m p)) p =
    (if snd (remove_service m p) then None else reg_lookup m p) /\
  (forall q, q <> p -> reg_lookup (fst (remove_service m p)) q = reg_lookup m q) /\
  List.NoDup (get_service_paths (fst (remove_service m p))).
Proof.
  intros Hnd0 Hinh. pose proof (proj1 (get_service_paths_nodup m) Hnd0) as Hnd.
  unfold remove_service, get_service_url. rewrite Hinh.
  destruct (reg_lookup m p) as [u|] eqn:E.
  - destruct (String.eqb u "") eqn:Eu; cbn [fst snd negb].
    + repeat split; auto.
    + split; [reflexivity|]. split; [apply reg_lookup_delete_eq; exact Hnd|].
      split; [intros q Hq; apply reg_lookup_delete_ne; exact Hq|].
      apply get_service_paths_nodup, reg_delete_nodup. exact Hnd.
  - cbn [fst snd]. repeat split; auto.
Qed.

(** [addService(path, url)] for a path other than [__proto__] that is
    not an array index (the canonical decimal form of an integer below
    [2^32 - 1], which [Object.keys] lists first, in numeric order): the
    path now reads back [url], every other path reads as before, and
    [getServicePaths()] keeps its order, appending a new path at the
    end. *)
Theorem add_service_spec m p u :
  p <> "__proto__" -> is_array_index p = false ->
  (forall q, get_service_url (add_service m p u) q =
             if String.eqb q p then Some (PUrl u) else get_service_url m q) /\
  get_service_paths (add_service m p u) =
    (if existsb (String.eqb p) (get_service_paths m) then get_service_paths m
     else get_service_paths m ++ [p])%list.
Proof.
  intros Hp Hi. unfold add_service. apply String.eqb_neq in Hp. rewrite Hp. split.
  - intros q. unfold get_service_url. rewrite reg_lookup_set, (String.eqb_sym p q).
    destruct (String.eqb q p); reflexivity.
  - unfold get_service_paths. rewrite reg_set_keys, existsb_object_keys.
    destruct (existsb (String.eqb p) (map fst m)); [reflexivity|].
    apply object_keys_app_non_index. exact Hi.
Qed.

(** [removeService(path)] on a registry without duplicate keys, for a
    path that is not an [Object.prototype] member: it reports [true]
    exactly when the path held a non-empty URL, after which the path
    reads [undefined]; an empty URL or an absent path is left alone and
    reported [false]; other paths are unaffected and the keys stay
    distinct. *)
Theorem remove_service_spec m p :
  List.NoDup (get_service_paths m) -> is_inherited p = false ->
  let '(m', removed) := remove_service m p in
  removed = match get_service_url m p with Some (PUrl u) => negb (String.eqb u "") | _ => false end /\
  get_service_url m' p = (if removed then None else get_service_url m p) /\
  (forall q, q <> p -> get_service_url m' q = get_service_url m q) /\
  List.NoDup (get_service_paths m').
Proof.
  intros Hnd Hinh. destruct (remove_service_own m p Hnd Hinh) as (Hr & Hp & Hq & Hn).
  destruct (remove_service m p) as [m' removed]. cbn [fst snd] in *.
  unfold get_service_url. rewrite Hinh, Hp. split.
  - rewrite Hr. destruct (reg_lookup m p); reflexivity.
  - split; [destruct removed; reflexivity|].
    split; [|exact Hn]. intros q Hqp. rewrite Hq by exact Hqp. reflexivity.
Qed.

(** [removeService] on a name inherited from [Object.prototype] that the
    map does not own ([toString], [constructor], ...): the truthy
    inherited member makes it report [true] though nothing is removed. *)
Theorem remove_inherited_name m p :
  is_inherited p = true -> reg_lookup m p = None ->
  get_service_url m p = Some PInherited /\ remove_service m p = (m, true).
Proof.
  intros Hi Hl. unfold remove_service, get_service_url. rewrite Hl, Hi.
  rewrite reg_delete_absent by exact Hl. split; reflexivity.
Qed.

(** After [removeService(basePath)] (registry without duplicate keys),
    [proxyRequest] for that service answers 404 ['Service not found']
    and contacts no backend, whatever the request. *)
Theorem removed_service_not_found cfg m now s rel req answer g :
  List.NoDup (get_service_paths m) ->
  proxy_request cfg (registry_service_url (fst (remove_service m (base_path s)))) now (Some s)
    rel req answer g = (g, not_found_src, no_backend).
Proof.
  intros Hnd.
  assert (Hinh : is_inherited (base_path s) = false) by (destruct s; reflexivity).
  destruct (remove_service_own m (base_path s) Hnd Hinh) as (Hr & Hp & _ & _).
  assert (Hu : registry_service_url (fst (remove_service m (base_path s))) s = None \/
               registry_service_url (fst (remove_service m (base_path s))) s = Some "").
  { unfold registry_service_url, get_service_url. rewrite Hp, Hr, Hinh.
    destruct (reg_lookup m (base_path s)) as [u|] eqn:E; [|left; reflexivity].
    destruct (String.eqb u "") eqn:Eu; cbn [negb]; [|left; reflexivity].
    right. apply String.eqb_eq in Eu. subst. reflexivity. }
  unfold proxy_request. destruct Hu as [-> | ->]; reflexivity.
Qed.

(** ** The first gateway's forwarding *)

Lemma substring_from_app w t : substring_from (String.length w) (w +:+ t) = t.
Proof. induction w as [|x w IH]; [reflexivity|]. rewrite str_app_cons. exact IH. Qed.

Lemma replace_first_prefix w t r : replace_first (w +:+ t) w r = r +:+ t.
Proof.
  assert (Hunf : forall s pat rep, replace_first s pat rep =
            if starts_with pat s then rep +:+ substring_from (String.length pat) s
            else match s with
                 | EmptyString => EmptyString
                 | String c s' => String c (replace_first s' pat rep)
                 end) by (intros [|c s'] pat rep; reflexivity).
  rewrite Hunf, starts_with_app, substring_from_app. reflexivity.
Qed.

Lemma legacy_route_prefix s t : legacy_route (base_path s +:+ t) = Some s.
Proof. destruct s; reflexivity. Qed.

Lemma backend_url_legacy_prefix su s t :
  su <> "" -> backend_url_legacy su s (base_path s +:+ t) = su +:+ t.
Proof.
  intros Hsu. unfold backend_url_legacy. rewrite replace_first_prefix, str_app_nil.
  unfold or_default. destruct (String.eqb (su +:+ t) "") eqn:E; [|reflexivity].
  apply String.eqb_eq in E. destruct su as [|c su']; [contradiction|].
  rewrite str_app_cons in E. discriminate.
Qed.

(** The first gateway's handler ([src/index.js]) for a URL under a
    service prefix with a configured base URL: exactly one backend call,
    to the base URL followed by the rest of the URL, with no retry; a
    backend status other than 0 is relayed with the backend's body when
    that body is truthy, success or not; a network error gives 500
    ['Internal Gateway Error']. *)
Theorem index_forward_passthrough urls s su t req answer :
  rq_original_url req = base_path s +:+ t -> urls s = Some su -> su <> "" ->
  snd (index_forward urls req answer) = mkTrace (Some (su +:+ t)) 1 /\
  match answer with
  | Answer st d => st <> 0%Z -> truthy d = true ->
      fst (index_forward urls req answer) = mkClientResponse st [] (BodySend d)
  | NetError _ =>
      fst (index_forward urls req answer) =
        mkClientResponse 500 [] (BodySend (JStr "Internal Gateway Error"))
  end.
Proof.
  intros Hurl Hu Hsu. unfold index_forward. rewrite Hurl, legacy_route_prefix, Hu.
  assert (E : String.eqb su "" = false) by (apply String.eqb_neq; exact Hsu). rewrite E.
  rewrite backend_url_legacy_prefix by exact Hsu.
  destruct answer as [st d|m]; unfold axios_call.
  - destruct (is_2xx st); cbn [fst snd r_status r_data].
    + split; [reflexivity|]. intros _ _. reflexivity.
    + split; [reflexivity|]. intros Hst Hd. unfold error_response_index. cbn [e_response].
      apply Z.eqb_neq in Hst. rewrite Hst, Hd. reflexivity.
  - cbn [fst snd]. split; reflexivity.
Qed.

(** ** [proxyRequest] branches *)

(** [GET /api/<service>/health] in the [src/src] application, past the
    body parsers and the rate limiter: with the cache connected, the
    [this.forwardRequest] call throws and the request is answered 500
    ['Internal Gateway Error'] without reaching the service; with the
    cache disconnected it is forwarded like any other request. *)
Theorem src_service_health_path cfg urls now s su req hits ts answer g :
  rq_pathname req = base_path s +:+ "/health" -> rq_method req = "GET" ->
  urls s = Some su -> su <> "" -> (hits <= limiter_max)%nat ->
  handle_app cfg urls now (mkAppInput req None hits ts) answer g =
    if cs_connected (gw_cache g) then
      Answered g (mkClientResponse 500 [] (BodyJson (JObj [("error", JStr "Internal Gateway Error")])))
        no_backend
    else let '(g', r, t) := forward_src cfg su now s req answer [] g in Answered g' r t.
Proof.
  intros Hp Hm Hu Hsu Hh.
  assert (Happ : app_route req = RProxy s).
  { unfold app_route, get_route_match, mount_match. rewrite Hp, Hm. destruct s; reflexivity. }
  rewrite handle_app_passes by (rewrite ?Hm, ?Happ; first [discriminate | exact Hh]).
  unfold handle_src. rewrite Happ, Hp, substring_from_app.
  change (or_default "/health" "/") with "/health".
  unfold proxy_request. rewrite Hu.
  assert (E : String.eqb su "" = false) by (apply String.eqb_neq; exact Hsu). rewrite E.
  assert (Hg : is_get req = true) by (unfold is_get; rewrite Hm; reflexivity). rewrite Hg.
  destruct (cs_connected (gw_cache g)); reflexivity.
Qed.

Lemma cache_get_store cfg now key cs : cs_store (fst (cache_get cfg now key cs)) = cs_store cs.
Proof.
  unfold cache_get, redis_fire, opossum_fire, redis_connect.
  destruct cs as [c cl [bs bp bf bfl bt] st up]; cbn.
  destruct (cc_test_mode cfg), c, cl, bs, bp, up; reflexivity.
Qed.

Lemma forward_src_open cfg su now s req answer hdrs g :
  b_state (gw_breakers g s) = Open -> b_pending_close (gw_breakers g s) = false -> is_get req = true ->
  let '(g', r, t) := forward_src cfg su now s req answer hdrs g in
  cs_store (gw_cache g') = cs_store (gw_cache g) /\ t_calls t = 0%nat.
Proof.
  intros Ho Hp Hg. unfold forward_src, service_fire. rewrite opossum_fire_open by assumption.
  cbn [fst snd]. rewrite Hg. cbn [negb andb r_status fallback_src].
  destruct (cs_connected (gw_cache (set_breaker g s _))); cbn; split; reflexivity.
Qed.

(** [proxyRequest] for a GET while the service's breaker is open: no
    backend call is made and the cache's keyspace is unchanged (the
    fallback is never stored), whether the lookup hits, misses or is
    skipped. *)
Theorem src_open_breaker_get_keeps_store cfg urls now s rel req answer g :
  is_get req = true ->
  b_state (gw_breakers g s) = Open -> b_pending_close (gw_breakers g s) = false ->
  let '(g', r, t) := proxy_request cfg urls now (Some s) rel req answer g in
  cs_store (gw_cache g') = cs_store (gw_cache g) /\ t_calls t = 0%nat.
Proof.
  intros Hg Ho Hp. unfold proxy_request.
  destruct (urls s) as [su|]; [|split; reflexivity].
  destruct (String.eqb su ""); [split; reflexivity|]. rewrite Hg. cbn [andb].
  destruct (cs_connected (gw_cache g)).
  - destruct (includes rel "/health"); [split; reflexivity|].
    pose proof (cache_get_store cfg now (cache_key (rq_user req) (rq_original_url req)) (gw_cache g)) as Hs.
    destruct (cache_get cfg now (cache_key (rq_user req) (rq_original_url req)) (gw_cache g))
      as [cs1 cached]. cbn [fst] in Hs.
    destruct (truthy cached); [split; [exact Hs | reflexivity]|].
    pose proof (forward_src_open cfg su now s req answer [("X-Cache", "MISS")] (set_cache g cs1) Ho Hp Hg) as Hf.
    destruct (forward_src cfg su now s req answer [("X-Cache", "MISS")] (set_cache g cs1)) as [[g' r] t].
    destruct Hf as [Hf1 Hf2]. split; [rewrite Hf1; exact Hs | exact Hf2].
  - apply forward_src_open; assumption.
Qed.


(** ** The legacy [/api/health] route *)

(** The legacy [/api/health] awaits [connect()] outside any breaker: it
    never answers exactly when the cache is disconnected, outside test
    mode, while the server is down.  Otherwise it answers 200 with
    [redisPing] ['successful'] and [redisConnection] reporting the state
    before the request; a disconnected cache is reconnected outside test
    mode; the keyspace is unchanged. *)
Theorem legacy_health_reconnects cfg uptime ts cs :
  match legacy_health cfg uptime ts cs with
  | None => cs_connected cs = false /\ cc_test_mode cfg = false /\ cs_server_up cs = false
  | Some (cs', r) =>
      (cs_connected cs || cc_test_mode cfg || cs_server_up cs) = true /\
      cr_status r = 200%Z /\
      body_field r "redisConnection" =
        Some (JStr (if cs_connected cs then "connected" else "disconnected")) /\
      cs_connected cs' = cs_connected cs || negb (cc_test_mode cfg) /\
      cs_store cs' = cs_store cs /\
      body_field r "redisPing" = Some (JStr "successful")
  end.
Proof.
  unfold legacy_health, redis_connect_await, redis_connect.
  destruct cs as [c cl b st up]; cbn [cs_connected cs_server_up cs_store].
  destruct c, (cc_test_mode cfg), up; cbn; repeat split.
Qed.

(** ** [createCircuitBreaker] of [src/unnamed/part_006] *)

Lemma attempt_resolve_2xx a r : attempt a = AResolve r -> is_2xx (r_status r) = true.
Proof.
  unfold attempt, axios_call. destruct a as [st d|m].
  - destruct (is_2xx st) eqn:E2; [intros H; injection H as <-; exact E2|].
    cbn [e_response]. destruct ((400 <=? st)%Z && (st <? 500)%Z); discriminate.
  - discriminate.
Qed.

Lemma retry_go_ok_2xx t num errs answer r n :
  retry_go t num errs answer = (Ok r, n) -> is_2xx (r_status r) = true.
Proof.
  revert num errs n. induction t as [|t IH]; intros num errs n; cbn [retry_go];
    destruct (attempt (answer num)) as [r0|e|e] eqn:Ea; try discriminate.
  1,2: intros H; injection H as <- _; exact (attempt_resolve_2xx _ _ Ea).
  destruct (retry_go t (S num) (errs ++ [e])%list answer) as [res m] eqn:Er.
  intros H. injection H as -> _. exact (IH _ _ _ Er).
Qed.

(** The breaker built by the older [createCircuitBreaker] always
    resolves, after at most four backend calls (three retries), either
    with a 2xx backend response or with the service's 503 fallback:
    a backend error status never reaches its caller. *)
Theorem part006_fire_outcome s b answer :
  let '(b', o, n) := part006_fire s b answer in
  (n <= 4)%nat /\
  exists r, o = Ok r /\ (r = fallback_src s \/ is_2xx (r_status r) = true).
Proof.
  unfold part006_fire, service_fire, opossum_fire.
  destruct (negb _ && negb _).
  - split; [lia|]. eexists. split; [reflexivity | left; reflexivity].
  - pose proof (retry_go_bounds retries_legacy 1 [] answer) as Hb. unfold async_retry.
    destruct (retry_go retries_legacy 1 [] answer) as [[r|e] n] eqn:E; cbn [snd] in Hb;
      unfold retries_legacy in Hb.
    + split; [lia|]. exists r. split; [reflexivity|]. right. exact (retry_go_ok_2xx _ _ _ _ _ _ E).
    + split; [lia|]. eexists. split; [reflexivity | left; reflexivity].
Qed.

(** ** Routing in [createApp] *)

(** A request that is not a preflight, has a body the parsers accept,
    and is within the rate limit, whose lower-cased path is a service's
    mount path, or that path followed by ['/'] and anything, is handed to
    that service's proxy route, whatever its method. *)
Theorem app_route_service_mount cfg urls now req s t hits ts answer g :
  rq_method req <> "OPTIONS" -> (hits <= limiter_max)%nat ->
  lower (rq_pathname req) = base_path s \/ lower (rq_pathname req) = base_path s +:+ "/" +:+ t ->
  app_route req = RProxy s /\
  handle_app cfg urls now (mkAppInput req None hits ts) answer g =
    (let rel := or_default (substring_from (String.length (base_path s)) (rq_pathname req)) "/" in
     let '(g', resp, tr) := proxy_request cfg urls now (Some s) rel req answer g in
     Answered g' resp tr).
Proof.
  intros Hmeth Hh H.
  assert (Hm : (String.eqb (rq_pathname req) "/metrics" || String.eqb (rq_pathname req) "/metrics/") = false).
  { apply not_true_iff_false. intros Hx. apply orb_true_iff in Hx.
    destruct Hx as [Hx|Hx]; apply String.eqb_eq in Hx; rewrite Hx in H;
      destruct s; destruct H as [H|H]; vm_compute in H; discriminate H. }
  assert (Happ : app_route req = RProxy s).
  { unfold app_route. cbv zeta. rewrite Hm. unfold get_route_match, mount_match.
    destruct H as [H|H]; rewrite H;
      destruct (String.eqb (rq_method req) "GET" || String.eqb (rq_method req) "HEAD");
      destruct s; reflexivity. }
  split; [exact Happ|].
  rewrite handle_app_passes by (rewrite ?Happ; first [exact Hmeth | exact Hh | discriminate]).
  unfold handle_src. rewrite Happ. reflexivity.
Qed.

(** ** Witnesses for the further properties *)

Lemma invalidate_user_cache_scope_witness :
  cc_test_mode gw_cache_cfg = false /\ glob_safe (cc_prefix gw_cache_cfg) = true /\ id_safe "u1" = true /\
  let st' := cs_store (fst (invalidate_user_cache gw_cache_cfg 0 "u1" (up_cache sample_store))) in
  (forall url, st' !! get_key gw_cache_cfg ("u1" +:+ ":" +:+ url) =
     match sample_store !! get_key gw_cache_cfg ("u1" +:+ ":" +:+ url) with
     | Some e => if live 0 e then None else Some e
     | None => None
     end) /\
  (forall v url, id_safe v = true -> v <> "u1" ->
     st' !! get_key gw_cache_cfg (v +:+ ":" +:+ url) = sample_store !! get_key gw_cache_cfg (v +:+ ":" +:+ url)).
Proof.
  do 3 (split; [reflexivity|]).
  exact (invalidate_user_cache_scope gw_cache_cfg 0 "u1" false 0 0 50 sample_store eq_refl eq_refl eq_refl).
Defined.

Lemma cache_del_removes_witness :
  cc_test_mode gw_cache_cfg = false /\
  let '(cs', r) := cache_del gw_cache_cfg 0 "u1:/api/user/1" (up_cache sample_store) in
  r = JNum (match srv_get 0 (get_key gw_cache_cfg "u1:/api/user/1") sample_store with
            | Some _ => 1 | None => 0 end) /\
  snd (cache_get gw_cache_cfg 5 "u1:/api/user/1" cs') = JNull /\
  (forall k, k <> get_key gw_cache_cfg "u1:/api/user/1" -> cs_store cs' !! k = sample_store !! k).
Proof.
  split; [reflexivity|].
  exact (cache_del_removes gw_cache_cfg 0 5 "u1:/api/user/1" false 0 0 50 sample_store eq_refl).
Defined.

Lemma cache_flush_empties_witness :
  cc_test_mode gw_cache_cfg = false /\
  let '(cs', r) := cache_flush gw_cache_cfg (up_cache sample_store) in
  r = JStr "OK" /\ cs_store cs' = ∅ /\ forall now key, snd (cache_get gw_cache_cfg now key cs') = JNull.
Proof.
  split; [reflexivity|].
  exact (cache_flush_empties gw_cache_cfg false 0 0 50 sample_store eq_refl).
Defined.

Lemma cache_close_then_get_witness :
  cc_test_mode gw_cache_cfg = false /\
  let '(o, cs1) := cache_close (up_cache sample_store) in
  o = Ok tt /\ cs_connected cs1 = false /\
  let '(cs2, v) := cache_get gw_cache_cfg 0 "u1:/api/user/1" cs1 in
  cs_connected cs2 = true /\ v = snd (cache_get gw_cache_cfg 0 "u1:/api/user/1" (up_cache sample_store)).
Proof.
  split; [reflexivity|].
  exact (cache_close_then_get gw_cache_cfg 0 "u1:/api/user/1" false 0 0 50 sample_store eq_refl).
Defined.


Lemma bare_bearer_skips_query_token_witness :
  auth_public "/api/review/1" = false /\ "tok" <> "" /\
  nth_error (split_on " " "Bearer") 0 = Some "Bearer" /\
  token_truthy (nth_error (split_on " " "Bearer") 1) = false /\
  snd (auth_middleware (express_jwt (fun _ => None))
         (mkAuthRequest "/api/review/1" (Some "Bearer") (Some "tok"))) = false /\
  get_token (mkAuthRequest "/api/review/1" None (Some "tok")) = Some "tok" /\
  auth_middleware (express_jwt (fun _ => None)) (mkAuthRequest "/api/review/1" None (Some "tok"))
    = (MwContinue, true) /\
  express_jwt (fun _ => None) (mkAuthRequest "/api/review/1" None (Some "tok")) = Some credentials_required.
Proof.
  split; [reflexivity|]. split; [discriminate|]. split; [reflexivity|]. split; [reflexivity|].
  apply (bare_bearer_skips_query_token (fun _ => None) "/api/review/1" "Bearer" "tok");
    first [reflexivity | discriminate].
Defined.

Lemma detailed_health_failing_probe_witness :
  b_state (gw_breakers (gw0 ∅ (fun _ => closed_breaker)) UserSvc) = Closed /\
  (forall k, (1 <= k <= 1 + retries_src)%nat -> is_retryable (services_down UserSvc k) = true) /\
  let '(g', r, calls) := detailed_health health_urls services_down "2026-01-01T00:00:00.000Z"
                           (gw0 ∅ (fun _ => closed_breaker)) in
  body_field r "status" = Some (JStr "DEGRADED") /\
  (exists entries, body_field r "services" = Some (JObj entries) /\
     In (service_name UserSvc, JObj [("status", JStr "DOWN"); ("details", fallback_body UserSvc)]) entries) /\
  In (health_urls UserSvc +:+ "/health", S retries_src) calls /\
  b_failures (gw_breakers g' UserSvc) = S (b_failures (gw_breakers (gw0 ∅ (fun _ => closed_breaker)) UserSvc)).
Proof.
  split; [reflexivity|]. split; [intros k _; reflexivity|].
  apply (detailed_health_failing_probe health_urls services_down "2026-01-01T00:00:00.000Z"
           (gw0 ∅ (fun _ => closed_breaker)) UserSvc); [reflexivity | intros k _; reflexivity].
Defined.

Lemma detailed_health_open_breaker_witness :
  b_state (gw_breakers (gw0 ∅ (fun _ => open_breaker)) ReviewSvc) = Open /\
  b_pending_close (gw_breakers (gw0 ∅ (fun _ => open_breaker)) ReviewSvc) = false /\
  let '(g', r, calls) := detailed_health health_urls services_down "2026-01-01T00:00:00.000Z"
                           (gw0 ∅ (fun _ => open_breaker)) in
  body_field r "status" = Some (JStr "DEGRADED") /\
  (exists entries, body_field r "services" = Some (JObj entries) /\
     In (service_name ReviewSvc, JObj [("status", JStr "DOWN"); ("details", fallback_body ReviewSvc)]) entries) /\
  In (health_urls ReviewSvc +:+ "/health", 0%nat) calls /\ b_state (gw_breakers g' ReviewSvc) = Open.
Proof.
  split; [reflexivity|]. split; [reflexivity|].
  exact (detailed_health_open_breaker health_urls services_down "2026-01-01T00:00:00.000Z"
           (gw0 ∅ (fun _ => open_breaker)) ReviewSvc eq_refl eq_refl).
Defined.

Lemma add_service_spec_witness :
  "/api/movie" <> "__proto__" /\ is_array_index "/api/movie" = false /\
  (forall q, get_service_url (add_service (service_map_init None None None) "/api/movie" "http://localhost:3004") q =
             if String.eqb q "/api/movie" then Some (PUrl "http://localhost:3004")
             else get_service_url (service_map_init None None None) q) /\
  get_service_paths (add_service (service_map_init None None None) "/api/movie" "http://localhost:3004") =
    (if existsb (String.eqb "/api/movie") (get_service_paths (service_map_init None None None))
     then get_service_paths (service_map_init None None None)
     else get_service_paths (service_map_init None None None) ++ ["/api/movie"])%list.
Proof.
  split; [discriminate|]. split; [reflexivity|].
  apply (add_service_spec (service_map_init None None None) "/api/movie" "http://localhost:3004");
    first [discriminate | reflexivity].
Defined.

Lemma remove_service_spec_witness :
  List.NoDup (get_service_paths (service_map_init None None None)) /\ is_inherited "/api/review" = false /\
  let '(m', removed) := remove_service (service_map_init None None None) "/api/review" in
  removed = match get_service_url (service_map_init None None None) "/api/review" with
            | Some (PUrl u) => negb (String.eqb u "") | _ => false end /\
  get_service_url m' "/api/review" =
    (if removed then None else get_service_url (service_map_init None None None) "/api/review") /\
  (forall q, q <> "/api/review" -> get_service_url m' q = get_service_url (service_map_init None None None) q) /\
  List.NoDup (get_service_paths m').
Proof.
  assert (Hnd : List.NoDup (get_service_paths (service_map_init None None None))).
  { apply get_service_paths_nodup. simpl. repeat constructor; simpl; intuition discriminate. }
  split; [exact Hnd|]. split; [reflexivity|].
  exact (remove_service_spec (service_map_init None None None) "/api/review" Hnd eq_refl).
Defined.

Lemma remove_inherited_name_witness :
  is_inherited "toString" = true /\ reg_lookup (service_map_init None None None) "toString" = None /\
  get_service_url (service_map_init None None None) "toString" = Some PInherited /\
  remove_service (service_map_init None None None) "toString" = (service_map_init None None None, true).
Proof.
  split; [reflexivity|]. split; [reflexivity|].
  exact (remove_inherited_name (service_map_init None None None) "toString" eq_refl eq_refl).
Defined.

Lemma removed_service_not_found_witness :
  List.NoDup (get_service_paths (service_map_init None None None)) /\
  proxy_request gw_cache_cfg
    (registry_service_url (fst (remove_service (service_map_init None None None) (base_path UserSvc))))
    0 (Some UserSvc) "/1" (get_req None "/api/user/1") (fun _ => Answer 200 JNull)
    (gw0 ∅ (fun _ => closed_breaker)) =
  (gw0 ∅ (fun _ => closed_breaker), not_found_src, no_backend).
Proof.
  assert (Hnd : List.NoDup (get_service_paths (service_map_init None None None))).
  { apply get_service_paths_nodup. simpl. repeat constructor; simpl; intuition discriminate. }
  split; [exact Hnd|].
  exact (removed_service_not_found gw_cache_cfg (service_map_init None None None) 0 UserSvc "/1"
           (get_req None "/api/user/1") (fun _ => Answer 200 JNull) (gw0 ∅ (fun _ => closed_breaker)) Hnd).
Defined.

Lemma index_forward_passthrough_witness :
  rq_original_url (get_req None "/api/review/1") = base_path ReviewSvc +:+ "/1" /\
  registry_urls ReviewSvc = Some "http://localhost:3002" /\ "http://localhost:3002" <> "" /\
  snd (index_forward registry_urls (get_req None "/api/review/1") (Answer 404 sample_data)) =
    mkTrace (Some ("http://localhost:3002" +:+ "/1")) 1 /\
  match Answer 404 sample_data with
  | Answer st d => st <> 0%Z -> truthy d = true ->
      fst (index_forward registry_urls (get_req None "/api/review/1") (Answer 404 sample_data)) =
        mkClientResponse st [] (BodySend d)
  | NetError _ =>
      fst (index_forward registry_urls (get_req None "/api/review/1") (Answer 404 sample_data)) =
        mkClientResponse 500 [] (BodySend (JStr "Internal Gateway Error"))
  end.
Proof.
  split; [reflexivity|]. split; [reflexivity|]. split; [discriminate|].
  apply (index_forward_passthrough registry_urls ReviewSvc "http://localhost:3002" "/1"
           (get_req None "/api/review/1") (Answer 404 sample_data)); first [reflexivity | discriminate].
Defined.

Lemma src_service_health_path_witness :
  rq_pathname (get_req None "/api/user/health") = base_path UserSvc +:+ "/health" /\
  rq_method (get_req None "/api/user/health") = "GET" /\
  registry_urls UserSvc = Some "http://localhost:3001" /\ "http://localhost:3001" <> "" /\
  (3 <= limiter_max)%nat /\
  handle_app gw_cache_cfg registry_urls 0 (mkAppInput (get_req None "/api/user/health") None 3 "t")
    (fun _ => Answer 200 JNull) (gw0 ∅ (fun _ => closed_breaker)) =
    if cs_connected (gw_cache (gw0 ∅ (fun _ => closed_breaker))) then
      Answered (gw0 ∅ (fun _ => closed_breaker))
        (mkClientResponse 500 [] (BodyJson (JObj [("error", JStr "Internal Gateway Error")]))) no_backend
    else let '(g', r, t) := forward_src gw_cache_cfg "http://localhost:3001" 0 UserSvc
                              (get_req None "/api/user/health") (fun _ => Answer 200 JNull) []
                              (gw0 ∅ (fun _ => closed_breaker)) in Answered g' r t.
Proof.
  split; [reflexivity|]. split; [reflexivity|]. split; [reflexivity|]. split; [discriminate|].
  split; [unfold limiter_max; lia|].
  apply (src_service_health_path gw_cache_cfg registry_urls 0 UserSvc "http://localhost:3001"
           (get_req None "/api/user/health") 3 "t" (fun _ => Answer 200 JNull) (gw0 ∅ (fun _ => closed_breaker)));
    first [reflexivity | discriminate | unfold limiter_max; lia].
Defined.

Lemma src_open_breaker_get_keeps_store_witness :
  is_get (get_req (Some "u1") "/api/user/1") = true /\
  b_state (gw_breakers (gw0 sample_store (fun _ => open_breaker)) UserSvc) = Open /\
  b_pending_close (gw_breakers (gw0 sample_store (fun _ => open_breaker)) UserSvc) = false /\
  let '(g', r, t) := proxy_request gw_cache_cfg registry_urls 0 (Some UserSvc) "/1"
                       (get_req (Some "u1") "/api/user/1") (fun _ => Answer 200 JNull)
                       (gw0 sample_store (fun _ => open_breaker)) in
  cs_store (gw_cache g') = cs_store (gw_cache (gw0 sample_store (fun _ => open_breaker))) /\ t_calls t = 0%nat.
Proof.
  split; [reflexivity|]. split; [reflexivity|]. split; [reflexivity|].
  exact (src_open_breaker_get_keeps_store gw_cache_cfg registry_urls 0 UserSvc "/1"
           (get_req (Some "u1") "/api/user/1") (fun _ => Answer 200 JNull)
           (gw0 sample_store (fun _ => open_breaker)) eq_refl eq_refl eq_refl).
Defined.


Lemma app_route_service_mount_witness :
  rq_method (mkRequest "DELETE" "/API/Review/7?x=1" "/API/Review/7" None JNull) <> "OPTIONS" /\
  (2 <= limiter_max)%nat /\
  (lower (rq_pathname (mkRequest "DELETE" "/API/Review/7?x=1" "/API/Review/7" None JNull)) = base_path ReviewSvc \/
   lower (rq_pathname (mkRequest "DELETE" "/API/Review/7?x=1" "/API/Review/7" None JNull)) =
     base_path ReviewSvc +:+ "/" +:+ "7") /\
  app_route (mkRequest "DELETE" "/API/Review/7?x=1" "/API/Review/7" None JNull) = RProxy ReviewSvc /\
  handle_app gw_cache_cfg registry_urls 0
    (mkAppInput (mkRequest "DELETE" "/API/Review/7?x=1" "/API/Review/7" None JNull) None 2 "t")
    (fun _ => Answer 200 JNull) (gw0 ∅ (fun _ => closed_breaker)) =
    (let rel := or_default (substring_from (String.length (base_path ReviewSvc))
                              (rq_pathname (mkRequest "DELETE" "/API/Review/7?x=1" "/API/Review/7" None JNull))) "/" in
     let '(g', resp, tr) := proxy_request gw_cache_cfg registry_urls 0 (Some ReviewSvc) rel
                              (mkRequest "DELETE" "/API/Review/7?x=1" "/API/Review/7" None JNull)
                              (fun _ => Answer 200 JNull) (gw0 ∅ (fun _ => closed_breaker)) in
     Answered g' resp tr).
Proof.
  assert (Hm : rq_method (mkRequest "DELETE" "/API/Review/7?x=1" "/API/Review/7" None JNull) <> "OPTIONS")
    by discriminate.
  assert (Hh : (2 <= limiter_max)%nat) by (unfold limiter_max; lia).
  assert (H : lower (rq_pathname (mkRequest "DELETE" "/API/Review/7?x=1" "/API/Review/7" None JNull)) =
                base_path ReviewSvc \/
              lower (rq_pathname (mkRequest "DELETE" "/API/Review/7?x=1" "/API/Review/7" None JNull)) =
                base_path ReviewSvc +:+ "/" +:+ "7") by (right; vm_compute; reflexivity).
  split; [exact Hm|]. split; [exact Hh|]. split; [exact H|].
  exact (app_route_service_mount gw_cache_cfg registry_urls 0
           (mkRequest "DELETE" "/API/Review/7?x=1" "/API/Review/7" None JNull)
           ReviewSvc "7" 2 "t" (fun _ => Answer 200 JNull) (gw0 ∅ (fun _ => closed_breaker)) Hm Hh H).
Defined.
